(** * Fyyur: a shallow embedding of [app.py] and its specification

    The booking directory of [app.py] is a set of Flask request handlers over
    an SQLAlchemy schema.  This development embeds the schema as finite maps
    keyed by primary key, the session's [commit]/[rollback] as explicit
    passing of the committed database, and every handler as a function from
    the database and the submitted form to the new database and the reply.

    What [app.py] leaves to its libraries is fixed as follows.
    - A Python [str] is represented by its UTF-8 encoding, a Rocq [string] of
      bytes; [strip] removes the characters of [str.isspace].
    - The database is PostgreSQL with the encoding UTF-8 ([config.py] is not
      among the sources): [ilike] is [ILIKE] with the backslash as escape
      character, [_] standing for one character, and both sides lower-cased
      as the locale of the database says, which is a field of the database;
      a [db.String(n)] column is a [varchar(n)] of [n] characters.
    - The driver refuses to send a [str] that contains the character NUL
      ([Driver.adapt]); the insert of a [Details] row is modelled without
      that check, for values free of NUL.
    - The ORM keeps one row of an association table per genre of an entity's
      [genres] collection; deleting a venue drops its association rows and
      sets the [venue_id] of its shows to [NULL].
    - Flask answers an exception that leaves a handler with status 500. *)

From Stdlib Require Import ZArith String Ascii List Bool Lia.
From stdpp Require Import base option list gmap sets strings pretty fin_maps.

Local Open Scope string_scope.
Local Open Scope list_scope.
Local Open Scope Z_scope.

(** ** Characters of a text in UTF-8 *)

Module Utf8.

(** A continuation byte, [10xxxxxx]: every byte of a character but its
    first. *)
Definition continuation (c : ascii) : bool :=
  let n := nat_of_ascii c in (128 <=? n)%nat && (n <? 192)%nat.

(** The text starts a character, or is empty. *)
Definition boundary (s : list ascii) : bool :=
  match s with
  | [] => true
  | c :: _ => negb (continuation c)
  end.

(** What follows the continuation bytes at the front of [s]. *)
Fixpoint rest (s : list ascii) : list ascii :=
  match s with
  | [] => []
  | c :: s' => if continuation c then rest s' else s
  end.

(** The number of characters. *)
Definition length (s : list ascii) : nat :=
  List.length (List.filter (λ c, negb (continuation c)) s).

(** The first [n] characters, and what follows them. *)
Fixpoint take (n : nat) (s : list ascii) : list ascii :=
  match s with
  | [] => []
  | c :: s' =>
      if continuation c then c :: take n s'
      else match n with
           | O => []
           | S n' => c :: take n' s'
           end
  end.

Fixpoint drop (n : nat) (s : list ascii) : list ascii :=
  match s with
  | [] => []
  | c :: s' =>
      if continuation c then drop n s'
      else match n with
           | O => s
           | S n' => drop n' s'
           end
  end.

End Utf8.

(** ** Python strings *)

Module PyStr.

(** [str.isspace] on one character, given by the bytes of its encoding:
    TAB, LF, VT, FF, CR, the separators FS, GS, RS, US, and SPACE; U+0085
    and U+00A0; U+1680; U+2000 to U+200A, U+2028, U+2029 and U+202F;
    U+205F; U+3000. *)
Definition isspace (c : list ascii) : bool :=
  match N_of_ascii <$> c with
  | [n] => ((9 <=? n)%N && (n <=? 13)%N) || ((28 <=? n)%N && (n <=? 32)%N)
  | [194%N; n] => (n =? 133)%N || (n =? 160)%N
  | [225%N; 154%N; 128%N] => true
  | [226%N; 128%N; n] =>
      ((128 <=? n)%N && (n <=? 138)%N) || (n =? 168)%N || (n =? 169)%N
      || (n =? 175)%N
  | [226%N; 129%N; 159%N] => true
  | [227%N; 128%N; 128%N] => true
  | _ => false
  end.

(** The bytes of a character as they are met when the text is read from
    its front, or from its back. *)
Definition order (back : bool) (c : list ascii) : list ascii :=
  if back then rev c else c.

(** The text without the whitespace characters at the end it is read
    from. *)
Fixpoint skip_space (back : bool) (s : list ascii) : list ascii :=
  match s with
  | [] => []
  | a :: s1 =>
      if isspace [a] then skip_space back s1
      else
        match s1 with
        | [] => s
        | b :: s2 =>
            if isspace (order back [a; b]) then skip_space back s2
            else
              match s2 with
              | [] => s
              | c :: s3 =>
                  if isspace (order back [a; b; c]) then skip_space back s3
                  else s
              end
        end
  end.

Definition lstrip_chars (s : list ascii) : list ascii := skip_space false s.

Definition rstrip_chars (s : list ascii) : list ascii :=
  rev (skip_space true (rev s)).

(** [s.strip()] *)
Definition strip (s : string) : string :=
  string_of_list_ascii
    (rstrip_chars (lstrip_chars (list_ascii_of_string s))).

(** [len(s)] *)
Definition len (s : string) : nat := Utf8.length (list_ascii_of_string s).

End PyStr.

(** ** The locale of a database *)

Module Locale.

(** A locale is taken by what it does to a text in [lower()]. *)
Definition t : Type := list ascii → list ascii.

(** [lower(s)]; the empty text has nothing to lower. *)
Definition lower (l : t) (s : list ascii) : list ascii :=
  match s with
  | [] => []
  | _ :: _ => l s
  end.

(** The locale [C]: the letters A to Z, and no other character. *)
Definition c_lower (c : ascii) : ascii :=
  let n := nat_of_ascii c in
  if ((65 <=? n)%nat && (n <=? 90)%nat)%bool then ascii_of_nat (n + 32) else c.

Definition C : t := map c_lower.

End Locale.

(** ** SQL [LIKE] patterns *)

Module Like.

(** A pattern is a sequence of tokens: [%] matches any run of characters,
    [_] exactly one, anything else itself.  A backslash takes the next
    character literally (the default escape of the PostgreSQL backend the
    application is configured for); a pattern ending in a lone backslash
    is rejected. *)
Inductive tok : Type :=
| Any
| One
| Lit (c : ascii).

Fixpoint parse (p : list ascii) : option (list tok) :=
  match p with
  | [] => Some []
  | c :: p' =>
      if Ascii.eqb c "\" then
        match p' with
        | [] => None
        | d :: p'' => cons (Lit d) <$> parse p''
        end
      else if Ascii.eqb c "%" then cons Any <$> parse p'
      else if Ascii.eqb c "_" then cons One <$> parse p'
      else cons (Lit c) <$> parse p'
  end.

(** [m] holds of what is left of [s] after one or more of its
    characters. *)
Fixpoint skip (m : list ascii → bool) (s : list ascii) : bool :=
  match s with
  | [] => false
  | _ :: s' => (Utf8.boundary s' && m s') || skip m s'
  end.

(** [matches p s]: the whole of [s] matches the token list [p]. *)
Fixpoint matches (p : list tok) (s : list ascii) : bool :=
  match p with
  | [] => match s with [] => true | _ :: _ => false end
  | Any :: p' => matches p' s || skip (matches p') s
  | One :: p' =>
      match s with
      | [] => false
      | _ :: s' => matches p' (Utf8.rest s')
      end
  | Lit c :: p' =>
      match s with
      | [] => false
      | d :: s' => Ascii.eqb c d && matches p' s'
      end
  end.

(** The pattern with its literal text lower-cased: each run of literal
    characters, [run] being the one read so far, is replaced by what
    [lower] makes of it. *)
Fixpoint fold (lower : list ascii → list ascii) (run : list ascii)
    (p : list tok) : list tok :=
  match p with
  | [] => Lit <$> lower run
  | Lit c :: p' => fold lower (run ++ [c]) p'
  | t :: p' => (Lit <$> lower run) ++ t :: fold lower [] p'
  end.

(** A text without any of the characters a pattern reads specially. *)
Definition plain (t : list ascii) : bool :=
  forallb (λ c, negb (Ascii.eqb c "\") && negb (Ascii.eqb c "%")
                && negb (Ascii.eqb c "_")) t.

(** [value ILIKE pattern] in a database of locale [l]: the match is made
    on the lower-cased value and the lower-cased literal text of the
    pattern; [None] is the error of a malformed pattern. *)
Definition ilike (l : Locale.t) (value pattern : string) : option bool :=
  toks ← parse (list_ascii_of_string pattern);
  Some (matches (fold (Locale.lower l) [] toks)
          (Locale.lower l (list_ascii_of_string value))).

End Like.

(** ** Python values, exceptions and responses *)

(** The values the handlers hand to the templates: [None], booleans,
    integers, strings, lists, and dict literals in insertion order. *)
#[warnings="-register-all"]
Inductive pyval : Type :=
| PNone
| PBool (b : bool)
| PInt (n : Z)
| PStr (s : string)
| PList (l : list pyval)
| PDict (d : list (string * pyval)).

Definition dict : Type := list (string * pyval).

(** [d[k]] *)
Fixpoint dict_get (d : dict) (k : string) : option pyval :=
  match d with
| [] => None
| (k', v) :: d' => if String.eqb k k' then Some v else dict_get d' k
  end.

Definition keys (d : dict) : list string := map fst d.

(** A nullable string column read into Python. *)
Definition of_column (v : option string) : pyval :=
  match v with
| Some s => PStr s
| None => PNone
  end.

(** The exceptions of the ORM, of the database driver and of Python that the
    handlers can meet, and werkzeug's [HTTPException] raised by [abort]. *)
Inductive exn : Type :=
| NoResultFound
| MultipleResultsFound
| IntegrityError
| DataError
| AttributeError
| TypeError
| NameError
| ValueError
| HTTPException (code : Z).

Definition result (A : Type) : Type := exn + A.

Definition raise {A : Type} (e : exn) : result A := inl e.

#[global] Instance result_ret : MRet result := λ A x, inr x.
#[global] Instance result_bind : MBind result :=
  λ A B f m, match m with inl e => inl e | inr x => f x end.

Definition abort {A : Type} (code : Z) : result A := raise (HTTPException code).

(** ** The database driver *)

Module Driver.

(** A text without the character NUL. *)
Definition nul_free (s : string) : bool :=
  forallb (λ c, negb (Ascii.eqb c "000")) (list_ascii_of_string s).

(** The driver adapting the parameters of one statement: a [str] that
    contains NUL is refused with [ValueError] before anything is sent;
    [None] is sent as [NULL]. *)
Definition adapt (params : list (option string)) : result unit :=
  if forallb (λ p, match p with Some s => nul_free s | None => true end) params
  then mret ()
  else raise ValueError.

End Driver.

Inductive Response : Type :=
| render_template (template : string) (context : dict)
| redirect (endpoint : string) (values : dict)
| json_response (body : pyval).

(** What a request yields: the messages flashed and either the response the
    handler returned or the exception that left it. *)
Record Reply : Type := mkReply {
  flashed : list string;
  outcome : result Response
}.

(** The status line: an exception that leaves a handler is a 500 unless it is
    an [HTTPException], which carries its own code. *)
Definition status (o : result Response) : Z :=
  match o with
| inr (render_template _ _) => 200
| inr (redirect _ _) => 302
| inr (json_response _) => 200
| inl (HTTPException code) => code
| inl _ => 500
  end.

(** ** Naive [datetime] values *)

Module DateTime.

Record t : Type := mk {
  year : Z;
  month : Z;
  day : Z;
  hour : Z;
  minute : Z;
  second : Z;
  microsecond : Z
}.

Definition fields (d : t) : list Z :=
  [year d; month d; day d; hour d; minute d; second d; microsecond d].

Fixpoint lex_lt (a b : list Z) : bool :=
  match a, b with
  | x :: a', y :: b' => (x <? y) || ((x =? y) && lex_lt a' b')
  | _, _ => false
  end.

(** [a > b] *)
Definition gt (a b : t) : bool := lex_lt (fields b) (fields a).

Fixpoint zeros (n : nat) : string :=
  match n with
  | O => ""
  | S n' => "0" +:+ zeros n'
  end.

(** [%0<width>d] *)
Definition pad (width : nat) (n : Z) : string :=
  let s := pretty n in
  zeros (width - String.length s) +:+ s.

(** [str(d)], the ISO format with a space between date and time. *)
Definition str (d : t) : string :=
  pad 4 (year d) +:+ "-" +:+ pad 2 (month d) +:+ "-" +:+ pad 2 (day d) +:+ " "
  +:+ pad 2 (hour d) +:+ ":" +:+ pad 2 (minute d) +:+ ":" +:+ pad 2 (second d)
  +:+ (if microsecond d =? 0 then "" else "." +:+ pad 6 (microsecond d)).

End DateTime.

(** ** Models *)

Module Genre.
Record t : Type := mk { name : option string }.
End Genre.

Module Details.
Record t : Type := mk {
  city : option string;
  state : option string;
  address : option string;
  phone : option string;
  website : option string;
  image_link : option string;
  facebook_link : option string
}.
End Details.

Module Venue.
Record t : Type := mk {
  details_id : Z;
  name : option string;
  seeking_talent : bool;
  seeking_text : option string
}.
End Venue.

Module Artist.
Record t : Type := mk {
  details_id : Z;
  name : option string;
  seeking_venue : bool;
  seeking_text : option string
}.
End Artist.

Module Show.
Record t : Type := mk {
  artist_id : Z;
  venue_id : Z;
  upcoming : bool;
  start_time : option DateTime.t
}.
End Show.

(** The committed database: one finite map per table, keyed by the primary
    key [id], the two association tables as sets of
    [(genre_id, entity_id)] pairs (their composite primary key), and the
    locale the database was created with. *)
Record Database : Type := mkDatabase {
  genre_rows : gmap Z Genre.t;
  details_rows : gmap Z Details.t;
  venue_rows : gmap Z Venue.t;
  artist_rows : gmap Z Artist.t;
  show_rows : gmap Z Show.t;
  artist_genres : gset (Z * Z);
  venue_genres : gset (Z * Z);
  lc_ctype : Locale.t
}.

Definition with_details (d : gmap Z Details.t) (db : Database) : Database :=
  mkDatabase (genre_rows db) d (venue_rows db) (artist_rows db) (show_rows db)
             (artist_genres db) (venue_genres db) (lc_ctype db).

Definition with_venues (v : gmap Z Venue.t) (db : Database) : Database :=
  mkDatabase (genre_rows db) (details_rows db) v (artist_rows db) (show_rows db)
             (artist_genres db) (venue_genres db) (lc_ctype db).

Definition with_artists (a : gmap Z Artist.t) (db : Database) : Database :=
  mkDatabase (genre_rows db) (details_rows db) (venue_rows db) a (show_rows db)
             (artist_genres db) (venue_genres db) (lc_ctype db).

Definition with_shows (s : gmap Z Show.t) (db : Database) : Database :=
  mkDatabase (genre_rows db) (details_rows db) (venue_rows db) (artist_rows db) s
             (artist_genres db) (venue_genres db) (lc_ctype db).

Definition with_artist_genres (g : gset (Z * Z)) (db : Database) : Database :=
  mkDatabase (genre_rows db) (details_rows db) (venue_rows db) (artist_rows db) (show_rows db)
             g (venue_genres db) (lc_ctype db).

Definition with_venue_genres (g : gset (Z * Z)) (db : Database) : Database :=
  mkDatabase (genre_rows db) (details_rows db) (venue_rows db) (artist_rows db) (show_rows db)
             (artist_genres db) g (lc_ctype db).

(** ** Queries *)

Module Query.

(** [Model.query.all()] *)
Definition all {A : Type} (t : gmap Z A) : list (Z * A) := map_to_list t.

(** [.one()] on the rows a filter selected. *)
Definition one {A : Type} (selected : list A) : result A :=
  match selected with
  | [] => raise NoResultFound
  | [r] => mret r
  | _ :: _ :: _ => raise MultipleResultsFound
  end.

(** [Model.query.filter_by(id=i).one_or_none()]: [id] is the primary key,
    so at most one row is selected. *)
Definition by_id_or_none {A : Type} (t : gmap Z A) (i : Z) : option A := t !! i.

(** [Model.query.filter_by(id=i).one()] *)
Definition by_id {A : Type} (t : gmap Z A) (i : Z) : result A :=
  match t !! i with
  | Some r => mret r
  | None => raise NoResultFound
  end.

(** [Genre.query.filter_by(name=n)]; a [NULL] name equals nothing. *)
Definition genres_named (db : Database) (n : string) : list (Z * Genre.t) :=
  filter (λ r, Genre.name r.2 = Some n) (all (genre_rows db)).

(** [Details.query.filter_by(facebook_link=l)]; for [None] the ORM compares
    with [IS NULL]. *)
Definition details_linked (db : Database) (l : option string)
  : list (Z * Details.t) :=
  filter (λ r, Details.facebook_link r.2 = l) (all (details_rows db)).

(** The id of the next inserted row.  The table's sequence gives an id
    that is not in use; it is taken here as the first above every id in
    use, though a sequence that has given ids to rows since deleted or
    refused is further on. *)
Definition next_id {A : Type} (t : gmap Z A) : Z :=
  1 + foldr Z.max 0 (map fst (map_to_list t)).

End Query.

(** ** Column types *)

Module Column.

(** Storing a value in a [db.String(n)] column, a [varchar(n)]: a value of
    more than [n] characters is refused, unless all that exceeds [n]
    characters is spaces, which are then cut off. *)
Definition varchar (n : nat) (v : option string) : result (option string) :=
  match v with
  | None => mret None
  | Some s =>
      let chars := list_ascii_of_string s in
      if (Utf8.length chars <=? n)%nat then mret (Some s)
      else if forallb (Ascii.eqb " ") (Utf8.drop n chars)
      then mret (Some (string_of_list_ascii (Utf8.take n chars)))
      else raise DataError
  end.

Definition digit (c : ascii) : option Z :=
  let n := nat_of_ascii c in
  if ((48 <=? n)%nat && (n <=? 57)%nat)%bool then Some (Z.of_nat (n - 48)) else None.

Fixpoint digits (acc : Z) (s : list ascii) : option Z :=
  match s with
  | [] => Some acc
  | c :: s' => d ← digit c; digits (10 * acc + d) s'
  end.

(** Storing a Python string in a [db.Integer] column: the database reads it
    as a decimal literal with an optional sign.  (PostgreSQL reads more
    from version 16 on: the prefixes [0x], [0o] and [0b], and [_] between
    digits.) *)
Definition integer (s : string) : result Z :=
  let parsed :=
    match list_ascii_of_string s with
    | [] => None
    | c :: ds =>
        if Ascii.eqb c "-" then
          match ds with [] => None | _ :: _ => Z.opp <$> digits 0 ds end
        else if Ascii.eqb c "+" then
          match ds with [] => None | _ :: _ => digits 0 ds end
        else digits 0 (c :: ds)
    end in
  match parsed with
  | Some n => mret n
  | None => raise DataError
  end.

(** The row of [Details] as the table stores it. *)
Definition details (d : Details.t) : result Details.t :=
  city ← varchar 120 (Details.city d);
  state ← varchar 120 (Details.state d);
  phone ← varchar 120 (Details.phone d);
  image_link ← varchar 500 (Details.image_link d);
  facebook_link ← varchar 120 (Details.facebook_link d);
  mret (Details.mk city state (Details.address d) phone (Details.website d)
          image_link facebook_link).

End Column.

(** ** Forms *)

(** Modelled from the spec: [forms.py] is not among the sources.  A form is
    the record of the submitted values that the handlers read as
    [form.<field>.data]: free-text fields are strings, [genres] is the list
    of selected genre names, and [start_time] is the parsed date, [None]
    when the submitted text is not one. *)
Module VenueForm.
Record t : Type := mk {
  name : string;
  city : string;
  state : string;
  address : string;
  phone : string;
  facebook_link : string;
  genres : list string
}.
End VenueForm.

Module ArtistForm.
Record t : Type := mk {
  name : string;
  city : string;
  state : string;
  phone : string;
  facebook_link : string;
  genres : list string
}.
End ArtistForm.

Module ShowForm.
Record t : Type := mk {
  artist_id : string;
  venue_id : string;
  start_time : option DateTime.t
}.
End ShowForm.

(** [app.py] uses the names [jsonify] and [datetime], which none of its own
    import lines binds; they can only come from [from forms import *].
    [star] lists the names that import binds. *)
Definition bound (star : list string) (name : string) : bool :=
  bool_decide (name ∈ star).

(** ** Relationships *)

(** [venue.shows] and [artist.shows] *)
Definition shows_of_venue (db : Database) (venue_id : Z) : list (Z * Show.t) :=
  filter (λ r, Show.venue_id r.2 = venue_id) (Query.all (show_rows db)).

Definition shows_of_artist (db : Database) (artist_id : Z) : list (Z * Show.t) :=
  filter (λ r, Show.artist_id r.2 = artist_id) (Query.all (show_rows db)).

(** [venue.genres] and [artist.genres]: the genres joined through the
    association table [assoc]. *)
Definition genres_of (assoc : gset (Z * Z)) (db : Database) (entity : Z)
  : list (Z * Genre.t) :=
  filter (λ r, (r.1, entity) ∈ assoc) (Query.all (genre_rows db)).

(** The association rows of a collection of genres. *)
Definition pairs (gs : list Z) (entity : Z) : gset (Z * Z) :=
  list_to_set ((λ g, (g, entity)) <$> gs).

(** ** The session *)

(** Every function of this module is one flush of the unit of work into the
    database it is given; the handlers keep the last committed database
    and fall back to it on [rollback]. *)
Module Session.

(** [db.session.add(Details(...))]: the new row and its id.  The insert is
    modelled for values without the character NUL, which the driver
    would refuse: the check of [Driver.adapt] is not made here. *)
Definition add_details (db : Database) (d : Details.t)
  : result (Z * Details.t * Database) :=
  stored ← Column.details d;
  let i := Query.next_id (details_rows db) in
  mret (i, stored, with_details (<[i := stored]> (details_rows db)) db).

(** [db.session.add(Venue(...))] with the genres appended to it. *)
Definition add_venue (db : Database) (v : Venue.t) (gs : list Z) : result Database :=
  _ ← Driver.adapt [Venue.name v; Venue.seeking_text v];
  match details_rows db !! Venue.details_id v with
  | None => raise IntegrityError
  | Some _ =>
      let i := Query.next_id (venue_rows db) in
      mret (with_venue_genres (pairs gs i ∪ venue_genres db)
              (with_venues (<[i := v]> (venue_rows db)) db))
  end.

Definition add_artist (db : Database) (a : Artist.t) (gs : list Z) : result Database :=
  _ ← Driver.adapt [Artist.name a; Artist.seeking_text a];
  match details_rows db !! Artist.details_id a with
  | None => raise IntegrityError
  | Some _ =>
      let i := Query.next_id (artist_rows db) in
      mret (with_artist_genres (pairs gs i ∪ artist_genres db)
              (with_artists (<[i := a]> (artist_rows db)) db))
  end.

(** [db.session.add(Show(...))]: both foreign keys must resolve. *)
Definition add_show (db : Database) (s : Show.t) : result Database :=
  match artist_rows db !! Show.artist_id s, venue_rows db !! Show.venue_id s with
  | Some _, Some _ =>
      mret (with_shows (<[Query.next_id (show_rows db) := s]> (show_rows db)) db)
  | _, _ => raise IntegrityError
  end.

(** The updates of an edit: the entity row, its [Details] row, and its
    genre collection cleared and refilled with [gs].  The statements carry
    the five values the handler assigns. *)
Definition update_artist (db : Database) (artist_id : Z) (a : Artist.t)
    (details_id : Z) (d : Details.t) (gs : list Z) : result Database :=
  _ ← Driver.adapt [Artist.name a; Details.city d; Details.state d;
                    Details.phone d; Details.facebook_link d];
  stored ← Column.details d;
  mret (with_artist_genres
          (pairs gs artist_id ∪ filter (λ p, p.2 ≠ artist_id) (artist_genres db))
          (with_details (<[details_id := stored]> (details_rows db))
             (with_artists (<[artist_id := a]> (artist_rows db)) db))).

Definition update_venue (db : Database) (venue_id : Z) (v : Venue.t)
    (details_id : Z) (d : Details.t) (gs : list Z) : result Database :=
  _ ← Driver.adapt [Venue.name v; Details.city d; Details.state d;
                    Details.phone d; Details.facebook_link d];
  stored ← Column.details d;
  mret (with_venue_genres
          (pairs gs venue_id ∪ filter (λ p, p.2 ≠ venue_id) (venue_genres db))
          (with_details (<[details_id := stored]> (details_rows db))
             (with_venues (<[venue_id := v]> (venue_rows db)) db))).

(** [db.session.delete(venue)]: the unit of work drops the venue's rows of
    [venue_genres] and sets [venue_id] of the venue's shows to [NULL], which
    the column, declared [nullable=False], refuses. *)
Definition delete_venue (db : Database) (venue_id : Z) : result Database :=
  match shows_of_venue db venue_id with
  | [] =>
      mret (with_venue_genres (filter (λ p, p.2 ≠ venue_id) (venue_genres db))
              (with_venues (delete venue_id (venue_rows db)) db))
  | _ :: _ => raise IntegrityError
  end.

End Session.

(** [Genre.query.filter_by(name=genre).one()] for each submitted name, in
    order. *)
Fixpoint lookup_genres (db : Database) (names : list string) : result (list Z) :=
  match names with
  | [] => mret []
  | genre :: names' =>
      _ ← Driver.adapt [Some genre];
      g ← Query.one (Query.genres_named db genre);
      gs ← lookup_genres db names';
      mret (g.1 :: gs)
  end.

(** ** Controllers: reading *)

(** [{"id": row.id, "name": row.name}] *)
Definition summary (id : Z) (name : option string) : pyval :=
  PDict [("id", PInt id); ("name", of_column name)].

(** *** [venues] *)

Definition place : Type := option string * option string.

(** The first loop of [venues]: the set of [(city, state)] tuples. *)
Fixpoint collect_places (db : Database) (vs : list (Z * Venue.t))
    (statesAndCities : gset place) : result (gset place) :=
  match vs with
  | [] => mret statesAndCities
  | (_, venue) :: vs' =>
      detail ← Query.by_id (details_rows db) (Venue.details_id venue);
      collect_places db vs'
        ({[ (Details.city detail, Details.state detail) ]} ∪ statesAndCities)
  end.

(** The inner loop: the venues found at [place]. *)
Fixpoint venues_at (db : Database) (place : place) (vs : list (Z * Venue.t))
  : result (list pyval) :=
  match vs with
  | [] => mret []
  | (id, venue) :: vs' =>
      detail ← Query.by_id (details_rows db) (Venue.details_id venue);
      listOfVenues ← venues_at db place vs';
      mret (if bool_decide (Details.city detail = place.1)
               && bool_decide (Details.state detail = place.2)
            then summary id (Venue.name venue) :: listOfVenues
            else listOfVenues)
  end.

(** The outer loop: one area per place. *)
Fixpoint areas (db : Database) (places : list place) (vs : list (Z * Venue.t))
  : result (list pyval) :=
  match places with
  | [] => mret []
  | place :: places' =>
      listOfVenues ← venues_at db place vs;
      venueData ← areas db places' vs;
      mret (PDict [("city", of_column place.1);
                   ("state", of_column place.2);
                   ("venues", PList listOfVenues)] :: venueData)
  end.

Definition venues (db : Database) : result Response :=
  let venues := Query.all (venue_rows db) in
  statesAndCities ← collect_places db venues ∅;
  venueData ← areas db (elements statesAndCities) venues;
  mret (render_template "pages/venues.html" [("areas", PList venueData)]).

(** *** Search *)

(** [column.ilike(pattern)] on one row, in a database of locale [l]; a
    [NULL] name matches nothing. *)
Definition name_ilike (l : Locale.t) (pattern : list Like.tok)
    (name : option string) : bool :=
  match name with
  | Some n =>
      Like.matches (Like.fold (Locale.lower l) [] pattern)
        (Locale.lower l (list_ascii_of_string n))
  | None => false
  end.

Definition search_response (template : string) (found : list pyval)
    (count : nat) (search : string) : Response :=
  render_template template
    [("results", PDict [("count", PInt (Z.of_nat count)); ("data", PList found)]);
     ("search_term", PStr search)].

(** [search_term] is [request.form.get('search_term', '')] before [strip]. *)
Definition search_venues (db : Database) (search_term : option string)
  : result Response :=
  let search := PyStr.strip (default "" search_term) in
  _ ← Driver.adapt [Some ("%" +:+ search +:+ "%")];
  match Like.parse (list_ascii_of_string ("%" +:+ search +:+ "%")) with
  | None => raise DataError
  | Some filterTerm =>
      let venues :=
        filter (λ r, name_ilike (lc_ctype db) filterTerm (Venue.name r.2) = true)
               (Query.all (venue_rows db)) in
      let count := length venues in
      mret (search_response "pages/search_venues.html"
              ((λ r, summary r.1 (Venue.name r.2)) <$> venues) count search)
  end.

Definition search_artists (db : Database) (search_term : option string)
  : result Response :=
  let search := PyStr.strip (default "" search_term) in
  _ ← Driver.adapt [Some ("%" +:+ search +:+ "%")];
  match Like.parse (list_ascii_of_string ("%" +:+ search +:+ "%")) with
  | None => raise DataError
  | Some filterTerm =>
      let artists :=
        filter (λ r, name_ilike (lc_ctype db) filterTerm (Artist.name r.2) = true)
               (Query.all (artist_rows db)) in
      let count := length artists in
      mret (search_response "pages/search_artists.html"
              ((λ r, summary r.1 (Artist.name r.2)) <$> artists) count search)
  end.

(** *** Detail pages *)

(** [str(show.start_time)] *)
Definition str_start_time (t : option DateTime.t) : string :=
  match t with
  | Some d => DateTime.str d
  | None => "None"
  end.

(** The four accumulators of the loop over an entity's shows. *)
Record tally : Type := mkTally {
  showsUpcoming : list pyval;
  showsPast : list pyval;
  numUpcoming : Z;
  numPast : Z
}.

Definition count_show (upcoming : bool) (entry : pyval) (acc : tally) : tally :=
  if upcoming
  then mkTally (showsUpcoming acc ++ [entry]) (showsPast acc)
               (numUpcoming acc + 1) (numPast acc)
  else mkTally (showsUpcoming acc) (showsPast acc ++ [entry])
               (numUpcoming acc) (numPast acc + 1).

(** The loop of [show_venue] over [venue.shows]. *)
Fixpoint venue_shows (db : Database) (ss : list (Z * Show.t)) (acc : tally)
  : result tally :=
  match ss with
  | [] => mret acc
  | (_, show) :: ss' =>
      artist ← Query.by_id (artist_rows db) (Show.artist_id show);
      artistDetail ← Query.by_id (details_rows db) (Artist.details_id artist);
      let startTime := str_start_time (Show.start_time show) in
      venue_shows db ss'
        (count_show (Show.upcoming show)
           (PDict [("artist_image_link", of_column (Details.image_link artistDetail));
                   ("artist_id", PInt (Show.artist_id show));
                   ("artist_name", of_column (Artist.name artist));
                   ("start_time", PStr startTime)])
           acc)
  end.

(** The loop of [show_artist] over [artist.shows]. *)
Fixpoint artist_shows (db : Database) (ss : list (Z * Show.t)) (acc : tally)
  : result tally :=
  match ss with
  | [] => mret acc
  | (_, show) :: ss' =>
      venue ← Query.by_id (venue_rows db) (Show.venue_id show);
      venueDetails ← Query.by_id (details_rows db) (Venue.details_id venue);
      let startTime := str_start_time (Show.start_time show) in
      artist_shows db ss'
        (count_show (Show.upcoming show)
           (PDict [("venue_image_link", of_column (Details.image_link venueDetails));
                   ("venue_id", PInt (Show.venue_id show));
                   ("venue_name", of_column (Venue.name venue));
                   ("start_time", PStr startTime)])
           acc)
  end.

Definition genre_names (gs : list (Z * Genre.t)) : list pyval :=
  (λ r, of_column (Genre.name r.2)) <$> gs.

Definition show_venue (db : Database) (venue_id : Z) : result Response :=
  match Query.by_id_or_none (venue_rows db) venue_id with
  | Some venue =>
      detail ← Query.by_id (details_rows db) (Venue.details_id venue);
      shows ← venue_shows db (shows_of_venue db venue_id) (mkTally [] [] 0 0);
      let genresList := genre_names (genres_of (venue_genres db) db venue_id) in
      mret (render_template "pages/show_venue.html"
        [("venue", PDict
           [("id", PInt venue_id);
            ("name", of_column (Venue.name venue));
            ("genres", PList genresList);
            ("state", of_column (Details.state detail));
            ("city", of_column (Details.city detail));
            ("address", of_column (Details.address detail));
            ("phone", of_column (Details.phone detail));
            ("website", of_column (Details.website detail));
            ("facebook_link", of_column (Details.facebook_link detail));
            ("seeking_talent", PBool (Venue.seeking_talent venue));
            ("seeking_description", of_column (Venue.seeking_text venue));
            ("past_shows", PList (showsPast shows));
            ("past_shows_count", PInt (numPast shows));
            ("upcoming_shows", PList (showsUpcoming shows));
            ("upcoming_shows_count", PInt (numUpcoming shows));
            ("image_link", of_column (Details.image_link detail))])])
  | None =>
      let errorMessage := "ID Error: Not Found!" in
      let nullMessage := "" in
      mret (render_template "pages/show_venue.html"
        [("venue", PDict
           [("id", PStr errorMessage);
            ("name", PStr nullMessage);
            ("genres", PStr nullMessage);
            ("state", PStr nullMessage);
            ("city", PStr nullMessage);
            ("address", PStr nullMessage);
            ("phone", PStr nullMessage);
            ("website", PStr nullMessage);
            ("facebook_link", PStr nullMessage);
            ("seeking_talent", PStr nullMessage);
            ("seeking_description", PStr nullMessage);
            ("past_shows", PStr nullMessage);
            ("past_shows_count", PStr nullMessage);
            ("upcoming_shows", PStr nullMessage);
            ("upcoming_shows_count", PStr nullMessage);
            ("image_link", PStr nullMessage)])])
  end.

Definition show_artist (db : Database) (artist_id : Z) : result Response :=
  match Query.by_id_or_none (artist_rows db) artist_id with
  | Some artist =>
      detail ← Query.by_id (details_rows db) (Artist.details_id artist);
      shows ← artist_shows db (shows_of_artist db artist_id) (mkTally [] [] 0 0);
      let genresList := genre_names (genres_of (artist_genres db) db artist_id) in
      mret (render_template "pages/show_artist.html"
        [("artist", PDict
           [("id", PInt artist_id);
            ("name", of_column (Artist.name artist));
            ("genres", PList genresList);
            ("state", of_column (Details.state detail));
            ("city", of_column (Details.city detail));
            ("phone", of_column (Details.phone detail));
            ("website", of_column (Details.website detail));
            ("facebook_link", of_column (Details.facebook_link detail));
            ("seeking_venue", PBool (Artist.seeking_venue artist));
            ("seeking_description", of_column (Artist.seeking_text artist));
            ("past_shows", PList (showsPast shows));
            ("past_shows_count", PInt (numPast shows));
            ("upcoming_shows", PList (showsUpcoming shows));
            ("upcoming_shows_count", PInt (numUpcoming shows));
            ("image_link", of_column (Details.image_link detail))])])
  | None =>
      let errorMessage := "ID Error: Not Found!" in
      let nullMessage := "" in
      mret (render_template "pages/show_artist.html"
        [("artist", PDict
           [("id", PStr errorMessage);
            ("name", PStr nullMessage);
            ("genres", PStr nullMessage);
            ("state", PStr nullMessage);
            ("city", PStr nullMessage);
            ("phone", PStr nullMessage);
            ("website", PStr nullMessage);
            ("facebook_link", PStr nullMessage);
            ("seeking_venue", PStr nullMessage);
            ("seeking_description", PStr nullMessage);
            ("past_shows", PStr nullMessage);
            ("past_shows_count", PStr nullMessage);
            ("upcoming_shows", PStr nullMessage);
            ("upcoming_shows_count", PStr nullMessage);
            ("image_link", PStr nullMessage)])])
  end.

(** *** Listings and forms *)

Definition index : result Response :=
  mret (render_template "pages/home.html" []).

Definition artists (db : Database) : result Response :=
  let artists := Query.all (artist_rows db) in
  mret (render_template "pages/artists.html"
          [("artists", PList ((λ r, summary r.1 (Artist.name r.2)) <$> artists))]).

(** The loop of [shows] over every show. *)
Fixpoint show_summaries (db : Database) (ss : list (Z * Show.t))
  : result (list pyval) :=
  match ss with
  | [] => mret []
  | (_, show) :: ss' =>
      artist ← Query.by_id (artist_rows db) (Show.artist_id show);
      venue ← Query.by_id (venue_rows db) (Show.venue_id show);
      detail ← Query.by_id (details_rows db) (Artist.details_id artist);
      let startTime := str_start_time (Show.start_time show) in
      showData ← show_summaries db ss';
      mret (PDict [("artist_image_link", of_column (Details.image_link detail));
                   ("start_time", PStr startTime);
                   ("artist_id", PInt (Show.artist_id show));
                   ("artist_name", of_column (Artist.name artist));
                   ("venue_id", PInt (Show.venue_id show));
                   ("venue_name", of_column (Venue.name venue))] :: showData)
  end.

Definition shows (db : Database) : result Response :=
  showData ← show_summaries db (Query.all (show_rows db));
  mret (render_template "pages/shows.html" [("shows", PList showData)]).

(** Modelled from the spec: the form classes of [forms.py] are not among the
    sources.  A form given to a template is the record of its prefilled
    values: none for a new form, the columns of [obj] for [Form(obj=obj)]. *)
Definition blank_form : pyval := PDict [].

Definition form_of (obj : Details.t) : pyval :=
  PDict [("city", of_column (Details.city obj));
         ("state", of_column (Details.state obj));
         ("address", of_column (Details.address obj));
         ("phone", of_column (Details.phone obj));
         ("website", of_column (Details.website obj));
         ("image_link", of_column (Details.image_link obj));
         ("facebook_link", of_column (Details.facebook_link obj))].

Definition create_venue_form : result Response :=
  mret (render_template "forms/new_venue.html" [("form", blank_form)]).

Definition create_artist_form : result Response :=
  mret (render_template "forms/new_artist.html" [("form", blank_form)]).

Definition create_shows : result Response :=
  mret (render_template "forms/new_show.html" [("form", blank_form)]).

Definition edit_artist (db : Database) (artist_id : Z) : result Response :=
  match Query.by_id_or_none (artist_rows db) artist_id with
  | Some artist =>
      detail ← Query.by_id (details_rows db) (Artist.details_id artist);
      let artistForm := form_of detail in
      let genresList := genre_names (genres_of (artist_genres db) db artist_id) in
      mret (render_template "forms/edit_artist.html"
        [("form", artistForm);
         ("artist", PDict
           [("id", PInt artist_id);
            ("name", of_column (Artist.name artist));
            ("genres", PList genresList);
            ("state", of_column (Details.state detail));
            ("city", of_column (Details.city detail));
            ("phone", of_column (Details.phone detail));
            ("website", of_column (Details.website detail));
            ("facebook_link", of_column (Details.facebook_link detail));
            ("seeking_venue", PBool (Artist.seeking_venue artist));
            ("seeking_description", of_column (Artist.seeking_text artist));
            ("image_link", of_column (Details.image_link detail))])])
  | None => abort 500
  end.

Definition edit_venue (db : Database) (venue_id : Z) : result Response :=
  match Query.by_id_or_none (venue_rows db) venue_id with
  | Some venue =>
      detail ← Query.by_id (details_rows db) (Venue.details_id venue);
      let form := form_of detail in
      let genresList := genre_names (genres_of (venue_genres db) db venue_id) in
      mret (render_template "forms/edit_venue.html"
        [("form", form);
         ("venue", PDict
           [("id", PInt venue_id);
            ("name", of_column (Venue.name venue));
            ("genres", PList genresList);
            ("state", of_column (Details.state detail));
            ("city", of_column (Details.city detail));
            ("address", of_column (Details.address detail));
            ("phone", of_column (Details.phone detail));
            ("website", of_column (Details.website detail));
            ("facebook_link", of_column (Details.facebook_link detail));
            ("seeking_talent", PBool (Venue.seeking_talent venue));
            ("seeking_description", of_column (Venue.seeking_text venue));
            ("image_link", of_column (Details.image_link detail))])])
  | None => abort 500
  end.

(** ** Controllers: writing *)

(** A writing handler yields the database as committed when it returns,
    and its reply.  Inside [try], the database is threaded through the
    session's flushes; [except] falls back to the last commit. *)

Definition create_venue_submission (db : Database) (form : VenueForm.t)
  : Database * Reply :=
  let genres := VenueForm.genres form in
  let name := PyStr.strip (VenueForm.name form) in
  let city := PyStr.strip (VenueForm.city form) in
  let state := PyStr.strip (VenueForm.state form) in
  let address := PyStr.strip (VenueForm.address form) in
  let phone := PyStr.strip (VenueForm.phone form) in
  let facebook_link := PyStr.strip (VenueForm.facebook_link form) in
  let newDetail :=
    Details.mk (Some city) (Some state) (Some address) (Some phone) None None
               (Some facebook_link) in
  let '(committed, createError) :=
    match Session.add_details db newDetail with
    | inl _ => (db, true)
    | inr (_, newDetail, db1) =>
        (* the first [db.session.commit()] has made [db1] durable *)
        match
          _ ← Driver.adapt [Details.facebook_link newDetail];
          detail ← Query.one
                     (Query.details_linked db1 (Details.facebook_link newDetail));
          let newVenue := Venue.mk detail.1 (Some name) false None in
          gs ← lookup_genres db1 genres;
          Session.add_venue db1 newVenue gs
        with
        | inl _ => (db1, true)
        | inr db2 => (db2, false)
        end
    end in
  if createError
  then (committed,
        mkReply ["An error occurred. Venue " +:+ name +:+ " could not be listed."]
                (mret (redirect "create_venue_submission" [])))
  else (committed,
        mkReply ["Venue " +:+ VenueForm.name form +:+ " was successfully listed!"]
                (mret (render_template "pages/home.html" []))).

Definition create_artist_submission (db : Database) (form : ArtistForm.t)
  : Database * Reply :=
  let genres := ArtistForm.genres form in
  let name := PyStr.strip (ArtistForm.name form) in
  let city := PyStr.strip (ArtistForm.city form) in
  let state := PyStr.strip (ArtistForm.state form) in
  let phone := PyStr.strip (ArtistForm.phone form) in
  let facebook_link := PyStr.strip (ArtistForm.facebook_link form) in
  let newDetail :=
    Details.mk (Some city) (Some state) None (Some phone) None None
               (Some facebook_link) in
  let '(committed, updateError) :=
    match Session.add_details db newDetail with
    | inl _ => (db, true)
    | inr (_, newDetail, db1) =>
        match
          _ ← Driver.adapt [Details.facebook_link newDetail];
          detail ← Query.one
                     (Query.details_linked db1 (Details.facebook_link newDetail));
          let newArtist := Artist.mk detail.1 (Some name) false None in
          gs ← lookup_genres db1 genres;
          Session.add_artist db1 newArtist gs
        with
        | inl _ => (db1, true)
        | inr db2 => (db2, false)
        end
    end in
  if updateError
  then (committed,
        mkReply ["An error occurred. Artist " +:+ name +:+ " could not be listed."]
                (mret (redirect "create_artist_submission" [])))
  else (committed,
        mkReply ["Artist " +:+ ArtistForm.name form +:+ " was successfully listed!"]
                (mret (render_template "pages/home.html" []))).

Definition delete_venue (star : list string) (db : Database) (venue_id : Z)
  : Database * Reply :=
  match Query.by_id (venue_rows db) venue_id with
  | inl e => (db, mkReply [] (raise e))
  | inr venue =>
      let '(committed, deleteError) :=
        match Session.delete_venue db venue_id with
        | inl _ => (db, true)
        | inr db1 => (db1, false)
        end in
      if deleteError
      then (committed, mkReply [] (abort 500))
      else (committed,
            mkReply []
              (if bound star "jsonify"
               then mret (json_response (PDict [("deleted", PBool true)]))
               else raise NameError))
  end.

Definition edit_artist_submission (db : Database) (artist_id : Z)
    (form : ArtistForm.t) : Database * Reply :=
  let genres := ArtistForm.genres form in
  let name := PyStr.strip (ArtistForm.name form) in
  let city := PyStr.strip (ArtistForm.city form) in
  let state := PyStr.strip (ArtistForm.state form) in
  let phone := ArtistForm.phone form in
  let facebook_link := PyStr.strip (ArtistForm.facebook_link form) in
  match Query.by_id_or_none (artist_rows db) artist_id with
  | None => (db, mkReply [] (raise AttributeError))
  | Some artist =>
      match Query.by_id (details_rows db) (Artist.details_id artist) with
      | inl e => (db, mkReply [] (raise e))
      | inr detail =>
          let artist :=
            Artist.mk (Artist.details_id artist) (Some name)
                      (Artist.seeking_venue artist) (Artist.seeking_text artist) in
          let detail' :=
            Details.mk (Some city) (Some state) (Details.address detail)
                       (Some phone) (Details.website detail)
                       (Details.image_link detail) (Some facebook_link) in
          match
            gs ← lookup_genres db genres;
            Session.update_artist db artist_id artist
              (Artist.details_id artist) detail' gs
          with
          | inl _ => (db, mkReply [] (abort 500))
          | inr db1 =>
              (db1, mkReply []
                      (mret (redirect "show_artist" [("artist_id", PInt artist_id)])))
          end
      end
  end.

Definition edit_venue_submission (db : Database) (venue_id : Z)
    (form : VenueForm.t) : Database * Reply :=
  let genres := VenueForm.genres form in
  let name := PyStr.strip (VenueForm.name form) in
  let city := PyStr.strip (VenueForm.city form) in
  let state := PyStr.strip (VenueForm.state form) in
  let phone := PyStr.strip (VenueForm.phone form) in
  let facebook_link := PyStr.strip (VenueForm.facebook_link form) in
  match Query.by_id_or_none (venue_rows db) venue_id with
  | None => (db, mkReply [] (raise AttributeError))
  | Some venue =>
      match Query.by_id (details_rows db) (Venue.details_id venue) with
      | inl e => (db, mkReply [] (raise e))
      | inr detail =>
          let venue :=
            Venue.mk (Venue.details_id venue) (Some name)
                     (Venue.seeking_talent venue) (Venue.seeking_text venue) in
          let detail' :=
            Details.mk (Some city) (Some state) (Details.address detail)
                       (Some phone) (Details.website detail)
                       (Details.image_link detail) (Some facebook_link) in
          match
            gs ← lookup_genres db genres;
            Session.update_venue db venue_id venue
              (Venue.details_id venue) detail' gs
          with
          | inl _ => (db, mkReply [] (abort 500))
          | inr db1 =>
              (db1, mkReply []
                      (mret (redirect "show_venue" [("venue_id", PInt venue_id)])))
          end
      end
  end.

(** [now] is what [datetime.now()] returns while the request is handled. *)
Definition create_show_submission (star : list string) (now : DateTime.t)
    (db : Database) (form : ShowForm.t) : Database * Reply :=
  let venueId := PyStr.strip (ShowForm.venue_id form) in
  let artistId := PyStr.strip (ShowForm.artist_id form) in
  let startTime := ShowForm.start_time form in
  if negb (bound star "datetime") then (db, mkReply [] (raise NameError))
  else
    let time := now in
    match startTime with
    | None => (db, mkReply [] (raise TypeError))
    | Some startTime =>
        let upcomingShow := if DateTime.gt startTime time then true else false in
        match
          artist_id ← Column.integer artistId;
          venue_id ← Column.integer venueId;
          Session.add_show db
            (Show.mk artist_id venue_id upcomingShow (Some startTime))
        with
        | inl _ =>
            (db, mkReply ["An error occurred. Show could not be listed."]
                         (mret (redirect "create_show_submission" [])))
        | inr db1 =>
            (db1, mkReply ["Show was successfully listed!"]
                          (mret (render_template "pages/home.html" [])))
        end
    end.

(** ** The application as a whole *)

(** The routes of the application. *)
Inductive Request : Type :=
| GET_index
| GET_venues
| POST_venues_search (search_term : option string)
| GET_venue (venue_id : Z)
| GET_venues_create
| POST_venues_create (form : VenueForm.t)
| DELETE_venue (venue_id : Z)
| GET_artists
| POST_artists_search (search_term : option string)
| GET_artist (artist_id : Z)
| GET_artist_edit (artist_id : Z)
| POST_artist_edit (artist_id : Z) (form : ArtistForm.t)
| GET_venue_edit (venue_id : Z)
| POST_venue_edit (venue_id : Z) (form : VenueForm.t)
| GET_artists_create
| POST_artists_create (form : ArtistForm.t)
| GET_shows
| GET_shows_create
| POST_shows_create (now : DateTime.t) (form : ShowForm.t).

Definition reading (db : Database) (o : result Response) : Database * Reply :=
  (db, mkReply [] o).

Definition handle (star : list string) (db : Database) (r : Request)
  : Database * Reply :=
  match r with
  | GET_index => reading db index
  | GET_venues => reading db (venues db)
  | POST_venues_search t => reading db (search_venues db t)
  | GET_venue i => reading db (show_venue db i)
  | GET_venues_create => reading db create_venue_form
  | POST_venues_create f => create_venue_submission db f
  | DELETE_venue i => delete_venue star db i
  | GET_artists => reading db (artists db)
  | POST_artists_search t => reading db (search_artists db t)
  | GET_artist i => reading db (show_artist db i)
  | GET_artist_edit i => reading db (edit_artist db i)
  | POST_artist_edit i f => edit_artist_submission db i f
  | GET_venue_edit i => reading db (edit_venue db i)
  | POST_venue_edit i f => edit_venue_submission db i f
  | GET_artists_create => reading db create_artist_form
  | POST_artists_create f => create_artist_submission db f
  | GET_shows => reading db (shows db)
  | GET_shows_create => reading db create_shows
  | POST_shows_create now f => create_show_submission star now db f
  end.

(** The database after a sequence of requests, served one after another. *)
Fixpoint serve (star : list string) (db : Database) (rs : list Request) : Database :=
  match rs with
  | [] => db
  | r :: rs' => serve star (handle star db r).1 rs'
  end.

(** ** Vocabulary of the specification *)

(** The constraints the schema declares between tables: every foreign key
    resolves. *)
Definition consistent (db : Database) : Prop :=
  map_Forall (λ _ v, is_Some (details_rows db !! Venue.details_id v)) (venue_rows db)
  ∧ map_Forall (λ _ a, is_Some (details_rows db !! Artist.details_id a)) (artist_rows db)
  ∧ map_Forall (λ _ s, is_Some (artist_rows db !! Show.artist_id s)
                       ∧ is_Some (venue_rows db !! Show.venue_id s)) (show_rows db)
  ∧ set_Forall (λ p, is_Some (genre_rows db !! p.1) ∧ is_Some (artist_rows db !! p.2))
               (artist_genres db)
  ∧ set_Forall (λ p, is_Some (genre_rows db !! p.1) ∧ is_Some (venue_rows db !! p.2))
               (venue_genres db).

#[global] Instance consistent_dec (db : Database) : Decision (consistent db).
Proof. unfold consistent. apply _. Defined.

(** The record of a detail page when the id is unknown: the marker under
    ["id"], the blank string under every other key. *)
Definition sentinel (d : dict) : Prop :=
  dict_get d "id" = Some (PStr "ID Error: Not Found!")
  ∧ ∀ k, k ∈ keys d → k ≠ "id" → dict_get d k = Some (PStr "").

(** A text as the database of [db] lower-cases it. *)
Definition lowered (db : Database) (s : string) : list ascii :=
  Locale.lower (lc_ctype db) (list_ascii_of_string s).

(** The term occurs in the name, both lower-cased by the database: at the
    start of the name or where one of its characters starts, as every
    occurrence of a text in a text does. *)
Definition occurs (db : Database) (t n : string) : Prop :=
  ∃ pre post : list ascii,
    lowered db n = pre ++ lowered db t ++ post
    ∧ (pre = [] ∨ Utf8.boundary (lowered db t ++ post) = true).

(** Where a venue is: the city and state of its [Details] row. *)
Definition location (db : Database) (v : Venue.t) : option place :=
  d ← details_rows db !! Venue.details_id v;
  Some (Details.city d, Details.state d).

(** One area of the venue listing, as handed to the template. *)
Definition area_view (g : place * list (Z * Venue.t)) : pyval :=
  PDict [("city", of_column g.1.1);
         ("state", of_column g.1.2);
         ("venues", PList ((λ r, summary r.1 (Venue.name r.2)) <$> g.2))].

(** Every venue and every artist has a name. *)
Definition named (db : Database) : Prop :=
  map_Forall (λ _ v, is_Some (Venue.name v)) (venue_rows db)
  ∧ map_Forall (λ _ a, is_Some (Artist.name a)) (artist_rows db).

(** [g] is the id of the one row of [Genre] whose name is [n]: what
    [Genre.query.filter_by(name=n).one()] returns. *)
Definition names_genre (db : Database) (n : string) (g : Z) : Prop :=
  (∃ r, genre_rows db !! g = Some r ∧ Genre.name r = Some n)
  ∧ ∀ g' r', genre_rows db !! g' = Some r' → Genre.name r' = Some n → g' = g.

(** A small database used to run the handlers: two genres, a venue and an
    artist with their details, and one past show, in the locale [C]. *)
Definition sample : Database :=
  mkDatabase
    (list_to_map [(1, Genre.mk (Some "Jazz")); (2, Genre.mk (Some "Blues"))])
    (list_to_map
       [(1, Details.mk (Some "San Francisco") (Some "CA") (Some "1015 Folsom Street")
              (Some "123-123-1234") None None (Some "fb/musicalhop"));
        (2, Details.mk (Some "San Francisco") (Some "CA") None
              (Some "326-123-5000") None None (Some "fb/gunsnpetals"))])
    (list_to_map [(1, Venue.mk 1 (Some "The Musical Hop") false None)])
    (list_to_map [(1, Artist.mk 2 (Some "Guns N Petals") false None)])
    (list_to_map [(1, Show.mk 1 1 false (Some (DateTime.mk 2019 5 21 21 30 0 0)))])
    {[ (1, 1) ]}
    {[ (1, 1) ]}
    Locale.C.

(** A database whose only venue and only artist have no name: the column
    [name] is nullable. *)
Definition unnamed : Database :=
  mkDatabase ∅
    (list_to_map [(1, Details.mk None None None None None None None)])
    (list_to_map [(1, Venue.mk 1 None false None)])
    (list_to_map [(1, Artist.mk 1 None false None)])
    ∅ ∅ ∅ Locale.C.

(** A submission for a new venue whose second genre, "Polka", is not one of
    the genres of [sample]. *)
Definition polka_venue : VenueForm.t :=
  VenueForm.mk "The Dive" "New York" "NY" "1 Main Street" "555-0100" "fb/thedive"
               ["Jazz"; "Polka"].

(** An edit of artist 1 of [sample], whose genre is Jazz, to Blues. *)
Definition to_blues : ArtistForm.t :=
  ArtistForm.mk "Guns N Petals" "San Francisco" "CA" " 326-123-5000 "
                "fb/gunsnpetals" ["Blues"].

(** A show of artist 1 at venue 1 of [sample], submitted for the evening of
    1 June 2030. *)
Definition june_show : ShowForm.t :=
  ShowForm.mk " 1 " "1" (Some (DateTime.mk 2030 6 1 20 0 0 0)).

(** Requests that follow it, among them a show submitted in 2031, when the
    start time of [june_show] has passed. *)
Definition later_requests : list Request :=
  [GET_venue 1;
   GET_shows;
   POST_artist_edit 1 to_blues;
   POST_shows_create (DateTime.mk 2031 1 1 0 0 0 0)
     (ShowForm.mk "1" "1" (Some (DateTime.mk 2031 2 1 20 0 0 0)));
   DELETE_venue 1;
   GET_venue 1].

(** The text starts with a whitespace character; [back] says from which
    end it is read. *)
Definition starts_space (back : bool) (s : list ascii) : bool :=
  match s with
  | [] => false
  | a :: s1 =>
      PyStr.isspace [a]
      || match s1 with
         | [] => false
         | b :: s2 =>
             PyStr.isspace (PyStr.order back [a; b])
             || match s2 with
                | [] => false
                | c :: _ => PyStr.isspace (PyStr.order back [a; b; c])
                end
         end
  end.

(** A name without leading or trailing whitespace; [NULL] counts as one. *)
Definition trimmed (name : option string) : bool :=
  match name with
  | None => true
  | Some n =>
      let chars := list_ascii_of_string n in
      negb (starts_space false chars) && negb (starts_space true (rev chars))
  end.

(** Every stored venue and artist name is trimmed. *)
Definition names_trimmed (db : Database) : Prop :=
  map_Forall (λ _ v, trimmed (Venue.name v) = true) (venue_rows db)
  ∧ map_Forall (λ _ a, trimmed (Artist.name a) = true) (artist_rows db).

(** The [Details] row and the [Venue] row that a venue submission asks to
    store, and the conditions under which they can be stored. *)
Definition submitted_details (form : VenueForm.t) : Details.t :=
  Details.mk (Some (PyStr.strip (VenueForm.city form)))
             (Some (PyStr.strip (VenueForm.state form)))
             (Some (PyStr.strip (VenueForm.address form)))
             (Some (PyStr.strip (VenueForm.phone form)))
             None None
             (Some (PyStr.strip (VenueForm.facebook_link form))).

Definition submitted_venue (details_id : Z) (form : VenueForm.t) : Venue.t :=
  Venue.mk details_id (Some (PyStr.strip (VenueForm.name form))) false None.

Definition fits_columns (form : VenueForm.t) : Prop :=
  (PyStr.len (PyStr.strip (VenueForm.city form)) ≤ 120)%nat
  ∧ (PyStr.len (PyStr.strip (VenueForm.state form)) ≤ 120)%nat
  ∧ (PyStr.len (PyStr.strip (VenueForm.phone form)) ≤ 120)%nat
  ∧ (PyStr.len (PyStr.strip (VenueForm.facebook_link form)) ≤ 120)%nat.

(** No submitted value contains the character NUL: the driver sends them
    all. *)
Definition venue_sendable (form : VenueForm.t) : Prop :=
  Forall (λ s, Driver.nul_free s = true)
    (VenueForm.name form :: VenueForm.city form :: VenueForm.state form
     :: VenueForm.address form :: VenueForm.phone form
     :: VenueForm.facebook_link form :: VenueForm.genres form).

Definition artist_sendable (form : ArtistForm.t) : Prop :=
  Forall (λ s, Driver.nul_free s = true)
    (ArtistForm.name form :: ArtistForm.city form :: ArtistForm.state form
     :: ArtistForm.phone form :: ArtistForm.facebook_link form
     :: ArtistForm.genres form).

(** No row of [Details] has the link [l] yet. *)
Definition link_unused (db : Database) (l : string) : Prop :=
  map_Forall (λ _ d, Details.facebook_link d ≠ Some l) (details_rows db).

(** Every name of the list is the name of exactly one genre. *)
Definition genres_known (db : Database) (names : list string) : Prop :=
  Forall (λ n, ∃ g, names_genre db n g) names.

(** A submission that [sample] accepts. *)
Definition jazz_venue : VenueForm.t :=
  VenueForm.mk " Park Square Live " "San Francisco" "CA" "34 Whiskey Moore Ave"
               "415-000-1234" "fb/parksquare" ["Jazz"; "Blues"; "Jazz"].

(** A second submission for [sample] that reuses the facebook link of its
    venue. *)
Definition same_link_venue : VenueForm.t :=
  VenueForm.mk "The Other Hop" "Oakland" "CA" "2 Side Street" "415-000-9999"
               " fb/musicalhop " ["Jazz"].

(** A submission for a new artist whose genre "Polka" is not one of the
    genres of [sample]. *)
Definition polka_artist : ArtistForm.t :=
  ArtistForm.mk "The Polka Dots" "Austin" "TX" "512-000-1111" "fb/polkadots"
                ["Polka"].

(** An edit of venue 1 of [sample]: a new name and city, genre Blues. *)
Definition hop_edit : VenueForm.t :=
  VenueForm.mk " The Musical Hop II " " Oakland " "CA" "ignored" "510-000-0000"
               "fb/musicalhop2" ["Blues"].

(** An edit of artist 1 of [sample] to a genre that [sample] has not. *)
Definition to_polka : ArtistForm.t :=
  ArtistForm.mk "Guns N Petals" "San Francisco" "CA" "326-123-5000"
                "fb/gunsnpetals" ["Jazz"; "Polka"].

(** One show of the listing, as handed to the template; [None] when a row
    the show refers to is missing. *)
Definition show_view (db : Database) (show : Show.t) : option pyval :=
  artist ← artist_rows db !! Show.artist_id show;
  venue ← venue_rows db !! Show.venue_id show;
  detail ← details_rows db !! Artist.details_id artist;
  Some (PDict [("artist_image_link", of_column (Details.image_link detail));
               ("start_time", PStr (str_start_time (Show.start_time show)));
               ("artist_id", PInt (Show.artist_id show));
               ("artist_name", of_column (Artist.name artist));
               ("venue_id", PInt (Show.venue_id show));
               ("venue_name", of_column (Venue.name venue))]).

(** A submission for a new artist that [sample] accepts. *)
Definition blues_artist : ArtistForm.t :=
  ArtistForm.mk "  Matt Quevedo " "New York" "NY" "300-400-5000" "fb/mattquevedo"
                ["Blues"].

(** The conditions under which the values of an artist submission can be
    stored. *)
Definition artist_fits_columns (form : ArtistForm.t) : Prop :=
  (PyStr.len (PyStr.strip (ArtistForm.city form)) ≤ 120)%nat
  ∧ (PyStr.len (PyStr.strip (ArtistForm.state form)) ≤ 120)%nat
  ∧ (PyStr.len (PyStr.strip (ArtistForm.phone form)) ≤ 120)%nat
  ∧ (PyStr.len (PyStr.strip (ArtistForm.facebook_link form)) ≤ 120)%nat.

(** The text is a decimal numeral, one or more digits, of the number
    [n]. *)
Definition decimal (s : string) (n : Z) : Prop :=
  s ≠ "" ∧ Column.digits 0 (list_ascii_of_string s) = Some n.

(** ** Examples *)

Example strip_ex : PyStr.strip "  The Bar " = "The Bar".
Proof. reflexivity. Qed.

(** A no-break space, U+00A0, and an em space, U+2003, are stripped as
    well. *)
Example strip_unicode_ex :
  PyStr.strip (String "194" (String "160" "Hop")
               +:+ String "226" (String "128" (String "131" "")))
  = "Hop".
Proof. reflexivity. Qed.

Example ilike_ex :
  Like.ilike Locale.C "The Dueling Pianos Bar" "%PIANO%" = Some true.
Proof. reflexivity. Qed.

(** [_] stands for one character, of whatever number of bytes: the name
    is "Caf" followed by U+00E9. *)
Example ilike_one_ex :
  Like.ilike Locale.C ("Caf" +:+ String "195" (String "169" "")) "c_f_"
  = Some true
  ∧ Like.ilike Locale.C ("Caf" +:+ String "195" (String "169" "")) "c_f__"
    = Some false.
Proof. split; reflexivity. Qed.

Example datetime_str_ex :
  DateTime.str (DateTime.mk 2019 5 21 21 30 0 0) = "2019-05-21 21:30:00".
Proof. vm_compute. reflexivity. Qed.

Example sample_consistent : consistent sample.
Proof. apply (bool_decide_unpack _). vm_compute. exact I. Qed.

(** ** Detail pages *)

(** C3: for an id that matches no venue (respectively no artist), the detail
    page is rendered, no exception is raised, and the record handed to the
    template holds the marker ['ID Error: Not Found!'] under ["id"] and the
    blank string under every other key. *)
Theorem detail_not_found_sentinel (db : Database) (id : Z) :
  (venue_rows db !! id = None →
   ∃ d, show_venue db id
        = inr (render_template "pages/show_venue.html" [("venue", PDict d)])
        ∧ sentinel d ∧ length d = 16%nat)
  ∧ (artist_rows db !! id = None →
     ∃ d, show_artist db id
          = inr (render_template "pages/show_artist.html" [("artist", PDict d)])
          ∧ sentinel d ∧ length d = 15%nat).
Proof.
  split; intros Hnone.
  - unfold show_venue, Query.by_id_or_none. rewrite Hnone.
    eexists. split; [reflexivity|]. split; [|reflexivity].
    split; [reflexivity|]. intros k Hk Hne. simpl in Hk.
    repeat (apply elem_of_cons in Hk as [->|Hk]; [try reflexivity; done|]).
    by apply elem_of_nil in Hk.
  - unfold show_artist, Query.by_id_or_none. rewrite Hnone.
    eexists. split; [reflexivity|]. split; [|reflexivity].
    split; [reflexivity|]. intros k Hk Hne. simpl in Hk.
    repeat (apply elem_of_cons in Hk as [->|Hk]; [try reflexivity; done|]).
    by apply elem_of_nil in Hk.
Qed.

Lemma detail_not_found_sentinel_witness :
  (∃ d, show_venue sample 7
        = inr (render_template "pages/show_venue.html" [("venue", PDict d)])
        ∧ sentinel d ∧ length d = 16%nat)
  ∧ (∃ d, show_artist sample 7
          = inr (render_template "pages/show_artist.html" [("artist", PDict d)])
          ∧ sentinel d ∧ length d = 15%nat).
Proof.
  split.
  - apply (proj1 (detail_not_found_sentinel sample 7)). reflexivity.
  - apply (proj2 (detail_not_found_sentinel sample 7)). reflexivity.
Defined.

(** The rows of a table that satisfy [P], counted on the table or on the
    list [Query.all] returns. *)
Lemma size_filter_all {A : Type} (P : Z * A → Prop) `{!∀ r, Decision (P r)}
    (t : gmap Z A) :
  size (filter P t) = length (filter P (Query.all t)).
Proof.
  unfold Query.all. rewrite map_filter_alt, <- length_map_to_list.
  apply Permutation_length, map_to_list_to_map.
  apply NoDup_fmap_fst.
  - intros i x y Hx Hy.
    apply list_elem_of_filter in Hx as [_ Hx], Hy as [_ Hy].
    apply elem_of_map_to_list in Hx, Hy. congruence.
  - apply NoDup_filter, NoDup_map_to_list.
Qed.

Lemma length_filter_split {A : Type} (f : A → bool) (l : list A) :
  (length (filter (λ x, f x = true) l) + length (filter (λ x, f x = false) l)
   = length l)%nat.
Proof.
  induction l as [|x l IH]; [reflexivity|].
  rewrite !filter_cons. destruct (f x) eqn:E; repeat case_decide; try done;
    simpl; lia.
Qed.

(** The tally after the loop of [show_venue]: every show went to the side
    its stored flag names. *)
Lemma venue_shows_tally (db : Database) (ss : list (Z * Show.t)) (acc : tally) :
  (∀ r, r ∈ ss →
     ∃ a, artist_rows db !! Show.artist_id r.2 = Some a
          ∧ is_Some (details_rows db !! Artist.details_id a)) →
  ∃ t, venue_shows db ss acc = inr t
       ∧ numUpcoming t
         = numUpcoming acc
           + Z.of_nat (length (filter (λ r, Show.upcoming r.2 = true) ss))
       ∧ numPast t
         = numPast acc
           + Z.of_nat (length (filter (λ r, Show.upcoming r.2 = false) ss))
       ∧ length (showsUpcoming t)
         = (length (showsUpcoming acc)
            + length (filter (λ r, Show.upcoming r.2 = true) ss))%nat
       ∧ length (showsPast t)
         = (length (showsPast acc)
            + length (filter (λ r, Show.upcoming r.2 = false) ss))%nat.
Proof.
  revert acc. induction ss as [|[i s] ss IH]; intros acc Hfk.
  - exists acc. simpl. rewrite !Z.add_0_r, !Nat.add_0_r. done.
  - destruct (Hfk (i, s)) as (a & Ha & [d Hd]); [left|].
    simpl in Ha. simpl. unfold Query.by_id. rewrite Ha. simpl. rewrite Hd. simpl.
    edestruct (IH (count_show (Show.upcoming s)
                     (PDict [("artist_image_link", of_column (Details.image_link d));
                             ("artist_id", PInt (Show.artist_id s));
                             ("artist_name", of_column (Artist.name a));
                             ("start_time", PStr (str_start_time (Show.start_time s)))])
                     acc))
      as (t & Ht & Hu & Hp & Hlu & Hlp).
    { intros r Hr. apply Hfk. by right. }
    exists t. split; [exact Ht|].
    rewrite !filter_cons. unfold count_show in *. simpl.
    destruct (Show.upcoming s) eqn:Eup; simpl in *;
      repeat case_decide; try congruence;
      simpl in *; rewrite ?length_app in *; simpl in *; repeat split; lia.
Qed.

(** C4: for a venue that exists, the detail page is rendered and its two
    counters are the numbers of the venue's shows whose stored [upcoming]
    flag is true, respectively false; together they count every [Show] row
    that references the venue. *)
Theorem show_venue_counts (db : Database) (venue_id : Z) :
  consistent db →
  is_Some (venue_rows db !! venue_id) →
  ∃ d upcoming past upcoming_shows past_shows,
    show_venue db venue_id
    = inr (render_template "pages/show_venue.html" [("venue", PDict d)])
    ∧ dict_get d "upcoming_shows_count" = Some (PInt upcoming)
    ∧ dict_get d "past_shows_count" = Some (PInt past)
    ∧ dict_get d "upcoming_shows" = Some (PList upcoming_shows)
    ∧ dict_get d "past_shows" = Some (PList past_shows)
    ∧ upcoming
      = Z.of_nat (size (filter (λ r, Show.venue_id r.2 = venue_id
                                     ∧ Show.upcoming r.2 = true) (show_rows db)))
    ∧ past
      = Z.of_nat (size (filter (λ r, Show.venue_id r.2 = venue_id
                                     ∧ Show.upcoming r.2 = false) (show_rows db)))
    ∧ upcoming + past
      = Z.of_nat (size (filter (λ r, Show.venue_id r.2 = venue_id) (show_rows db)))
    ∧ Z.of_nat (length upcoming_shows) = upcoming
    ∧ Z.of_nat (length past_shows) = past.
Proof.
  intros (Hvd & Had & Hs & _) [venue Hvenue].
  destruct (Hvd _ _ Hvenue) as [detail Hdetail].
  destruct (venue_shows_tally db (shows_of_venue db venue_id) (mkTally [] [] 0 0))
    as (t & Ht & Hu & Hp & Hlu & Hlp).
  { intros [i s] Hr. apply list_elem_of_filter in Hr as [_ Hr].
    apply elem_of_map_to_list in Hr. destruct (Hs _ _ Hr) as [[a Ha] _].
    exists a. split; [exact Ha|]. exact (Had _ _ Ha). }
  unfold show_venue, Query.by_id_or_none, Query.by_id.
  rewrite Hvenue, Hdetail. simpl. rewrite Ht. simpl.
  eexists _, _, _, _, _. split; [reflexivity|].
  do 4 (split; [reflexivity|]).
  rewrite !size_filter_all.
  pose proof (length_filter_split (λ r : Z * Show.t, Show.upcoming r.2)
                (shows_of_venue db venue_id)) as Hsplit.
  unfold shows_of_venue in *. rewrite !list_filter_filter in *.
  simpl in *.
  assert (∀ b, filter (λ r : Z * Show.t, Show.upcoming r.2 = b ∧ Show.venue_id r.2 = venue_id)
                 (Query.all (show_rows db))
               = filter (λ r : Z * Show.t, Show.venue_id r.2 = venue_id ∧ Show.upcoming r.2 = b)
                   (Query.all (show_rows db))) as Hcomm.
  { intros b. apply list_filter_iff. tauto. }
  rewrite !Hcomm in *. repeat split; lia.
Qed.

Lemma show_venue_counts_witness :
  ∃ d upcoming past upcoming_shows past_shows,
    show_venue sample 1
    = inr (render_template "pages/show_venue.html" [("venue", PDict d)])
    ∧ dict_get d "upcoming_shows_count" = Some (PInt upcoming)
    ∧ dict_get d "past_shows_count" = Some (PInt past)
    ∧ dict_get d "upcoming_shows" = Some (PList upcoming_shows)
    ∧ dict_get d "past_shows" = Some (PList past_shows)
    ∧ upcoming
      = Z.of_nat (size (filter (λ r, Show.venue_id r.2 = 1
                                     ∧ Show.upcoming r.2 = true) (show_rows sample)))
    ∧ past
      = Z.of_nat (size (filter (λ r, Show.venue_id r.2 = 1
                                     ∧ Show.upcoming r.2 = false) (show_rows sample)))
    ∧ upcoming + past
      = Z.of_nat (size (filter (λ r, Show.venue_id r.2 = 1) (show_rows sample)))
    ∧ Z.of_nat (length upcoming_shows) = upcoming
    ∧ Z.of_nat (length past_shows) = past.
Proof.
  apply (show_venue_counts sample 1).
  - apply (bool_decide_unpack _). vm_compute. exact I.
  - apply (bool_decide_unpack _). vm_compute. exact I.
Defined.

(** ** The venue listing *)

Lemma collect_places_spec (db : Database) (vs : list (Z * Venue.t))
    (acc : gset place) :
  (∀ r, r ∈ vs → is_Some (location db r.2)) →
  ∃ S : gset place,
    collect_places db vs acc = inr S
    ∧ ∀ p, p ∈ S ↔ p ∈ acc ∨ ∃ r, r ∈ vs ∧ location db r.2 = Some p.
Proof.
  revert acc. induction vs as [|[i v] vs IH]; intros acc Hloc.
  - exists acc. split; [reflexivity|]. intros p. split; [by left|].
    intros [?|(r & Hr & _)]; [done|]. by apply elem_of_nil in Hr.
  - destruct (Hloc (i, v)) as [q Hq]; [left|].
    unfold location in Hq. simpl in Hq.
    destruct (details_rows db !! Venue.details_id v) as [d|] eqn:Hd; [|done].
    simpl in Hq. injection Hq as <-.
    destruct (IH ({[ (Details.city d, Details.state d) ]} ∪ acc))
      as (S & HS & Hin).
    { intros r Hr. apply Hloc. by right. }
    exists S. split.
    + simpl. unfold Query.by_id. rewrite Hd. exact HS.
    + intros p. rewrite Hin, elem_of_union, elem_of_singleton. split.
      * intros [[->|?]|(r & Hr & Hp)]; [right|by left|right].
        -- exists (i, v). split; [left|]. unfold location. simpl. by rewrite Hd.
        -- exists r. split; [by right|done].
      * intros [?|(r & Hr & Hp)]; [by left; right|].
        apply elem_of_cons in Hr as [->|Hr].
        -- left; left. unfold location in Hp. simpl in Hp. rewrite Hd in Hp.
           simpl in Hp. congruence.
        -- right. by exists r.
Qed.

Lemma venues_at_spec (db : Database) (p : place) (vs : list (Z * Venue.t)) :
  (∀ r, r ∈ vs → is_Some (location db r.2)) →
  venues_at db p vs
  = inr ((λ r, summary r.1 (Venue.name r.2))
           <$> filter (λ r, location db r.2 = Some p) vs).
Proof.
  induction vs as [|[i v] vs IH]; intros Hloc; [reflexivity|].
  destruct (Hloc (i, v)) as [q Hq]; [left|].
  unfold location in Hq. simpl in Hq.
  destruct (details_rows db !! Venue.details_id v) as [d|] eqn:Hd; [|done].
  simpl in Hq. injection Hq as <-.
  simpl. unfold Query.by_id. rewrite Hd. simpl.
  rewrite IH by (intros r Hr; apply Hloc; by right). simpl.
  assert (location db v = Some (Details.city d, Details.state d)) as Hl.
  { unfold location. by rewrite Hd. }
  rewrite filter_cons. cbn [snd]. rewrite Hl.
  destruct p as [c st]. simpl.
  case_decide as Hp.
  - injection Hp as -> ->. by rewrite !bool_decide_eq_true_2.
  - destruct (bool_decide (Details.city d = c)) eqn:Ec;
      destruct (bool_decide (Details.state d = st)) eqn:Es; try reflexivity.
    apply bool_decide_eq_true_1 in Ec. apply bool_decide_eq_true_1 in Es.
    subst. done.
Qed.

Lemma areas_spec (db : Database) (ps : list place) (vs : list (Z * Venue.t)) :
  (∀ r, r ∈ vs → is_Some (location db r.2)) →
  areas db ps vs
  = inr (area_view
           <$> ((λ p, (p, filter (λ r, location db r.2 = Some p) vs)) <$> ps)).
Proof.
  intros Hloc. induction ps as [|p ps IH]; [reflexivity|].
  simpl. rewrite (venues_at_spec db p vs Hloc). simpl. rewrite IH. reflexivity.
Qed.

(** C9: the venue listing has one group per distinct (city, state) pair
    found among the venues' [Details] rows; a group lists exactly the venues
    of its city and state; and every venue is in exactly one group. *)
Theorem venues_grouped_by_place (db : Database) :
  consistent db →
  ∃ groups : list (place * list (Z * Venue.t)),
    venues db
    = inr (render_template "pages/venues.html"
             [("areas", PList (area_view <$> groups))])
    ∧ NoDup groups.*1
    ∧ (∀ p, p ∈ groups.*1
            ↔ ∃ i v, venue_rows db !! i = Some v ∧ location db v = Some p)
    ∧ (∀ p vs, (p, vs) ∈ groups →
         NoDup vs
         ∧ ∀ i v, (i, v) ∈ vs
                  ↔ venue_rows db !! i = Some v ∧ location db v = Some p)
    ∧ (∀ i v, venue_rows db !! i = Some v →
         ∃ p vs, (p, vs) ∈ groups ∧ (i, v) ∈ vs
                 ∧ ∀ p' vs', (p', vs') ∈ groups → (i, v) ∈ vs' →
                             (p', vs') = (p, vs)).
Proof.
  intros (Hvd & _).
  assert (∀ r, r ∈ Query.all (venue_rows db) → is_Some (location db r.2)) as Hloc.
  { intros [i v] Hr. apply elem_of_map_to_list in Hr.
    destruct (Hvd _ _ Hr) as [d Hd]. unfold location. simpl. rewrite Hd. by eexists. }
  destruct (collect_places_spec db (Query.all (venue_rows db)) ∅ Hloc)
    as (S & HS & Hin).
  set (at_place p := filter (λ r : Z * Venue.t, location db r.2 = Some p)
                       (Query.all (venue_rows db))).
  assert (∀ p i v, (i, v) ∈ at_place p
                   ↔ venue_rows db !! i = Some v ∧ location db v = Some p) as Hat.
  { intros p i v. unfold at_place. rewrite list_elem_of_filter. simpl.
    unfold Query.all. rewrite elem_of_map_to_list. tauto. }
  exists ((λ p, (p, at_place p)) <$> elements S).
  assert (((λ p, (p, at_place p)) <$> elements S).*1 = elements S) as Hkeys.
  { rewrite <- list_fmap_compose. apply list_fmap_id. }
  assert (∀ p vs, (p, vs) ∈ (λ p, (p, at_place p)) <$> elements S
                  ↔ p ∈ S ∧ vs = at_place p) as Hgroup.
  { intros p vs. rewrite list_elem_of_fmap. split.
    - intros (q & Heq & Hq). injection Heq as -> ->.
      by apply elem_of_elements in Hq.
    - intros [Hp ->]. exists p. split; [done|]. by apply elem_of_elements. }
  assert (∀ p, p ∈ S ↔ ∃ i v, venue_rows db !! i = Some v ∧ location db v = Some p)
    as HinS.
  { intros p. rewrite Hin. split.
    - intros [Hp|([i v] & Hr & Hp)]; [by apply not_elem_of_empty in Hp|].
      apply elem_of_map_to_list in Hr. by exists i, v.
    - intros (i & v & Hv & Hp). right. exists (i, v). split; [|done].
      by apply elem_of_map_to_list. }
  split; [|split; [|split; [|split]]].
  - unfold venues. rewrite HS. simpl.
    rewrite (areas_spec db (elements S) _ Hloc). reflexivity.
  - rewrite Hkeys. apply NoDup_elements.
  - intros p. rewrite Hkeys, elem_of_elements. apply HinS.
  - intros p vs [_ ->]%Hgroup. split; [|apply Hat].
    apply NoDup_filter, NoDup_map_to_list.
  - intros i v Hv. destruct (Hloc (i, v)) as [p Hp].
    { by apply elem_of_map_to_list. }
    simpl in Hp. exists p, (at_place p). split; [|split].
    + apply Hgroup. split; [|done]. apply HinS. by exists i, v.
    + by apply Hat.
    + intros p' vs' [_ ->]%Hgroup [_ Hp']%Hat. congruence.
Qed.

Lemma venues_grouped_by_place_witness :
  ∃ groups : list (place * list (Z * Venue.t)),
    venues sample
    = inr (render_template "pages/venues.html"
             [("areas", PList (area_view <$> groups))])
    ∧ NoDup groups.*1
    ∧ (∀ p, p ∈ groups.*1
            ↔ ∃ i v, venue_rows sample !! i = Some v ∧ location sample v = Some p)
    ∧ (∀ p vs, (p, vs) ∈ groups →
         NoDup vs
         ∧ ∀ i v, (i, v) ∈ vs
                  ↔ venue_rows sample !! i = Some v ∧ location sample v = Some p)
    ∧ (∀ i v, venue_rows sample !! i = Some v →
         ∃ p vs, (p, vs) ∈ groups ∧ (i, v) ∈ vs
                 ∧ ∀ p' vs', (p', vs') ∈ groups → (i, v) ∈ vs' →
                             (p', vs') = (p, vs)).
Proof.
  apply (venues_grouped_by_place sample).
  apply (bool_decide_unpack _). vm_compute. exact I.
Defined.

(** ** Search *)

Lemma list_ascii_of_string_append (a b : string) :
  list_ascii_of_string (a +:+ b) = list_ascii_of_string a ++ list_ascii_of_string b.
Proof. induction a as [|c a IH]; simpl; [reflexivity|]. by rewrite IH. Qed.

Lemma parse_plain (t rest : list ascii) :
  Like.plain t = true →
  Like.parse (t ++ rest) = (app (Like.Lit <$> t)) <$> Like.parse rest.
Proof.
  induction t as [|c t IH]; intros Hplain; simpl.
  - by destruct (Like.parse rest).
  - simpl in Hplain. apply andb_true_iff in Hplain as [Hc Ht].
    apply andb_true_iff in Hc as [Hc Hu]. apply andb_true_iff in Hc as [Hb Hp].
    apply negb_true_iff in Hb, Hp, Hu. rewrite Hb, Hp, Hu, (IH Ht).
    by destruct (Like.parse rest).
Qed.

(** The pattern the search handlers build from a plain term. *)
Lemma parse_search_pattern (search : string) :
  Like.plain (list_ascii_of_string search) = true →
  Like.parse (list_ascii_of_string ("%" +:+ search +:+ "%"))
  = Some (Like.Any :: (Like.Lit <$> list_ascii_of_string search) ++ [Like.Any]).
Proof.
  intros Hplain. rewrite !list_ascii_of_string_append. simpl.
  rewrite (parse_plain _ _ Hplain). reflexivity.
Qed.

Lemma skip_spec (m : list ascii → bool) (s : list ascii) :
  Like.skip m s = true
  ↔ ∃ pre s', s = pre ++ s' ∧ pre ≠ [] ∧ Utf8.boundary s' = true ∧ m s' = true.
Proof.
  induction s as [|d s IH]; cbn [Like.skip].
  - split; [done|]. intros (pre & s' & Hs & Hpre & _). by destruct pre.
  - rewrite orb_true_iff, andb_true_iff, IH. split.
    + intros [[Hb Hm]|(pre & s' & -> & _ & Hb & Hm)].
      * by exists [d], s.
      * by exists (d :: pre), s'.
    + intros (pre & s' & Hs & Hpre & Hb & Hm).
      destruct pre as [|c [|c' pre]]; [done| |].
      * injection Hs as -> ->. by left.
      * injection Hs as -> ->. right. by exists (c' :: pre), s'.
Qed.

Lemma matches_any (s : list ascii) : Like.matches [Like.Any] s = true.
Proof.
  cbn [Like.matches]. destruct s as [|d s]; [done|]. cbn [orb].
  apply skip_spec. exists (d :: s), []. by rewrite app_nil_r.
Qed.

Lemma matches_lits_any (u s : list ascii) :
  Like.matches ((Like.Lit <$> u) ++ [Like.Any]) s = true ↔ ∃ post, s = u ++ post.
Proof.
  revert s. induction u as [|c u IH]; intros s.
  - rewrite fmap_nil, app_nil_l, matches_any. split; [|done]. by exists s.
  - rewrite fmap_cons. cbn [app Like.matches]. destruct s as [|d s].
    + split; [done|]. by intros [post ?].
    + rewrite andb_true_iff, IH, Ascii.eqb_eq. split.
      * intros [-> [post ->]]. by exists post.
      * intros [post [= -> ->]]. split; [done|]. by exists post.
Qed.

(** What the pattern of a literal text between two [%] matches: the texts
    in which the literal text occurs where a character starts. *)
Lemma matches_any_lits_any (u s : list ascii) :
  Like.matches (Like.Any :: (Like.Lit <$> u) ++ [Like.Any]) s = true
  ↔ ∃ pre post, s = pre ++ u ++ post
                ∧ (pre = [] ∨ Utf8.boundary (u ++ post) = true).
Proof.
  cbn [Like.matches]. rewrite orb_true_iff, skip_spec, matches_lits_any. split.
  - intros [[post ->]|(pre & s' & -> & Hpre & Hb & Hm)].
    + exists [], post. split; [done|by left].
    + apply matches_lits_any in Hm as [post ->]. exists pre, post.
      split; [done|by right].
  - intros (pre & post & -> & [->|Hb]).
    + left. by exists post.
    + destruct pre as [|c pre]; [left; by exists post|].
      right. exists (c :: pre), (u ++ post). repeat split; [done|done|].
      apply matches_lits_any. by exists post.
Qed.

Lemma fold_lits (lower : list ascii → list ascii) (run t : list ascii)
    (q : list Like.tok) :
  Like.fold lower run ((Like.Lit <$> t) ++ q) = Like.fold lower (run ++ t) q.
Proof.
  revert run. induction t as [|c t IH]; intros run.
  - by rewrite app_nil_r.
  - rewrite fmap_cons. cbn [app Like.fold]. rewrite IH, <- app_assoc. done.
Qed.

(** The pattern of a plain term, lower-cased: the term lower-cased,
    between two [%]. *)
Lemma fold_search_pattern (l : Locale.t) (t : list ascii) :
  Like.fold (Locale.lower l) [] (Like.Any :: (Like.Lit <$> t) ++ [Like.Any])
  = Like.Any :: (Like.Lit <$> Locale.lower l t) ++ [Like.Any].
Proof.
  cbn [Like.fold Locale.lower fmap list_fmap app]. rewrite fold_lits.
  cbn [app Like.fold Locale.lower fmap list_fmap]. reflexivity.
Qed.

(** What [ilike] decides for the pattern of a plain term. *)
Lemma name_ilike_plain (db : Database) (search : string) (name : option string) :
  name_ilike (lc_ctype db)
    (Like.Any :: (Like.Lit <$> list_ascii_of_string search) ++ [Like.Any]) name
  = true
  ↔ ∃ n, name = Some n ∧ occurs db search n.
Proof.
  destruct name as [n|]; unfold name_ilike.
  - rewrite fold_search_pattern, matches_any_lits_any. split.
    + intros H. by exists n.
    + by intros (? & [= <-] & H).
  - split; [done|]. by intros (? & ? & _).
Qed.

(** An occurrence of a text that starts with a character is any occurrence
    of its bytes. *)
Lemma occurs_text (db : Database) (t n : string) :
  lowered db t ≠ [] →
  Utf8.boundary (lowered db t) = true →
  occurs db t n ↔ ∃ pre post, lowered db n = pre ++ lowered db t ++ post.
Proof.
  intros Hne Hb. split.
  - intros (pre & post & Hn & _). by exists pre, post.
  - intros (pre & post & Hn). exists pre, post. split; [done|]. right.
    destruct (lowered db t); done.
Qed.

(** The driver and the pattern of a search. *)
Lemma nul_free_pattern (search : string) :
  Driver.nul_free ("%" +:+ search +:+ "%") = Driver.nul_free search.
Proof.
  unfold Driver.nul_free. rewrite !list_ascii_of_string_append.
  cbn [list_ascii_of_string app forallb]. rewrite forallb_app.
  cbn [forallb]. by rewrite andb_true_r.
Qed.

Lemma adapt_pattern (search : string) :
  Driver.adapt [Some ("%" +:+ search +:+ "%")]
  = if Driver.nul_free search then inr () else inl ValueError.
Proof.
  unfold Driver.adapt. cbn [forallb]. rewrite nul_free_pattern, andb_true_r.
  by destruct (Driver.nul_free search).
Qed.

(** C8, as the code has it: the submitted term is stripped first; when what
    remains has no [%], [_], backslash or NUL, the search returns exactly
    the venues (respectively artists) whose name contains it at some
    position, name and term lower-cased by the database, each once, and
    their number. *)
Theorem search_finds_substring (db : Database) (search_term : option string) :
  let term := PyStr.strip (default "" search_term) in
  Like.plain (list_ascii_of_string term) = true →
  Driver.nul_free term = true →
  (∃ found : list (Z * Venue.t),
     search_venues db search_term
     = inr (search_response "pages/search_venues.html"
              ((λ r, summary r.1 (Venue.name r.2)) <$> found) (length found) term)
     ∧ NoDup found
     ∧ ∀ i v, (i, v) ∈ found
              ↔ venue_rows db !! i = Some v
                ∧ ∃ n, Venue.name v = Some n ∧ occurs db term n)
  ∧ (∃ found : list (Z * Artist.t),
       search_artists db search_term
       = inr (search_response "pages/search_artists.html"
                ((λ r, summary r.1 (Artist.name r.2)) <$> found) (length found) term)
       ∧ NoDup found
       ∧ ∀ i a, (i, a) ∈ found
                ↔ artist_rows db !! i = Some a
                  ∧ ∃ n, Artist.name a = Some n ∧ occurs db term n).
Proof.
  intros term Hplain Hnul. split.
  - unfold search_venues. fold term.
    rewrite adapt_pattern, Hnul, (parse_search_pattern term Hplain).
    cbn [mbind result_bind].
    eexists. split; [reflexivity|]. split.
    + apply NoDup_filter, NoDup_map_to_list.
    + intros i v. rewrite list_elem_of_filter. cbn [fst snd].
      rewrite name_ilike_plain. unfold Query.all.
      rewrite elem_of_map_to_list. tauto.
  - unfold search_artists. fold term.
    rewrite adapt_pattern, Hnul, (parse_search_pattern term Hplain).
    cbn [mbind result_bind].
    eexists. split; [reflexivity|]. split.
    + apply NoDup_filter, NoDup_map_to_list.
    + intros i a. rewrite list_elem_of_filter. cbn [fst snd].
      rewrite name_ilike_plain. unfold Query.all.
      rewrite elem_of_map_to_list. tauto.
Qed.

Lemma search_finds_substring_witness :
  (∃ found : list (Z * Venue.t),
     search_venues sample (Some " hop ")
     = inr (search_response "pages/search_venues.html"
              ((λ r, summary r.1 (Venue.name r.2)) <$> found) (length found) "hop")
     ∧ NoDup found
     ∧ ∀ i v, (i, v) ∈ found
              ↔ venue_rows sample !! i = Some v
                ∧ ∃ n, Venue.name v = Some n ∧ occurs sample "hop" n)
  ∧ (∃ found : list (Z * Artist.t),
       search_artists sample (Some " hop ")
       = inr (search_response "pages/search_artists.html"
                ((λ r, summary r.1 (Artist.name r.2)) <$> found) (length found) "hop")
       ∧ NoDup found
       ∧ ∀ i a, (i, a) ∈ found
                ↔ artist_rows sample !! i = Some a
                  ∧ ∃ n, Artist.name a = Some n ∧ occurs sample "hop" n).
Proof.
  apply (search_finds_substring sample (Some " hop ")); reflexivity.
Defined.

(** The search of the witness, run: the venue is found, the artist is
    not. *)
Example search_hop_run :
  search_venues sample (Some " hop ")
  = inr (search_response "pages/search_venues.html"
           [summary 1 (Some "The Musical Hop")] 1 "hop")
  ∧ search_artists sample (Some " hop ")
    = inr (search_response "pages/search_artists.html" [] 0 "hop").
Proof. split; vm_compute; reflexivity. Qed.

(** C8 as stated fails on [sample], whose only venue is "The Musical
    Hop", for five terms.  The term ["Hop "] is stripped before it is used;
    the terms ["_"] and ["%"] are read as patterns, and in ["\M"] the
    backslash as the escape of a pattern: all four find the venue, whose
    name contains none of them.  The term of NUL and ["Hop"] is answered
    with status 500 and no result at all. *)
Lemma search_term_not_substring :
  (search_venues sample (Some "Hop ")
   = inr (search_response "pages/search_venues.html"
            [summary 1 (Some "The Musical Hop")] 1 "Hop")
   ∧ ¬ ∃ pre post, lowered sample "The Musical Hop"
                   = pre ++ lowered sample "Hop " ++ post)
  ∧ (search_venues sample (Some "_")
     = inr (search_response "pages/search_venues.html"
              [summary 1 (Some "The Musical Hop")] 1 "_")
     ∧ ¬ ∃ pre post, lowered sample "The Musical Hop"
                     = pre ++ lowered sample "_" ++ post)
  ∧ (search_venues sample (Some "%")
     = inr (search_response "pages/search_venues.html"
              [summary 1 (Some "The Musical Hop")] 1 "%")
     ∧ ¬ ∃ pre post, lowered sample "The Musical Hop"
                     = pre ++ lowered sample "%" ++ post)
  ∧ (search_venues sample (Some "\M")
     = inr (search_response "pages/search_venues.html"
              [summary 1 (Some "The Musical Hop")] 1 "\M")
     ∧ ¬ ∃ pre post, lowered sample "The Musical Hop"
                     = pre ++ lowered sample "\M" ++ post)
  ∧ (search_venues sample (Some (String "000" "Hop")) = inl ValueError
     ∧ status (search_venues sample (Some (String "000" "Hop"))) = 500).
Proof.
  assert (∀ t, lowered sample t ≠ [] →
               Utf8.boundary (lowered sample t) = true →
               name_ilike (lc_ctype sample)
                 (Like.Any :: (Like.Lit <$> list_ascii_of_string t) ++ [Like.Any])
                 (Some "The Musical Hop") = false →
               ¬ ∃ pre post, lowered sample "The Musical Hop"
                             = pre ++ lowered sample t ++ post) as Hnot.
  { intros t Hne Hb Hfalse H.
    apply (occurs_text sample t "The Musical Hop" Hne Hb) in H.
    pose proof (proj2 (name_ilike_plain sample t (Some "The Musical Hop"))
                  (ex_intro _ _ (conj eq_refl H))) as Hm.
    congruence. }
  split; [|split; [|split; [|split]]];
    (split; [vm_compute; reflexivity|]);
    try (apply Hnot; [done|reflexivity|vm_compute; reflexivity]).
  vm_compute. reflexivity.
Qed.

Lemma matches_any_any (s : list ascii) :
  Like.matches [Like.Any; Like.Any] s = true.
Proof. cbn [Like.matches]. fold (Like.matches [Like.Any] s). by rewrite matches_any. Qed.

Lemma name_ilike_any_any (l : Locale.t) (name : option string) :
  name_ilike l [Like.Any; Like.Any] name = true ↔ is_Some name.
Proof.
  destruct name as [n|]; unfold name_ilike.
  - cbn [Like.fold Locale.lower fmap list_fmap app].
    rewrite matches_any_any. split; [by eexists|done].
  - split; [done|]. by intros [? ?].
Qed.

(** C10, as the code has it: a search term that is empty once stripped
    yields the pattern ['%%'], which every name satisfies and a [NULL] name
    does not; the count is the number of rows that have a name, hence the
    number of rows of the table when every row has one. *)
Theorem search_empty_term (db : Database) (search_term : option string) :
  PyStr.strip (default "" search_term) = "" →
  (∃ found : list (Z * Venue.t),
     search_venues db search_term
     = inr (search_response "pages/search_venues.html"
              ((λ r, summary r.1 (Venue.name r.2)) <$> found) (length found) "")
     ∧ NoDup found
     ∧ (∀ i v, (i, v) ∈ found
               ↔ venue_rows db !! i = Some v ∧ is_Some (Venue.name v))
     ∧ length found
       = size (filter (λ r, is_Some (Venue.name r.2)) (venue_rows db))
     ∧ (map_Forall (λ _ v, is_Some (Venue.name v)) (venue_rows db) →
        length found = size (venue_rows db)))
  ∧ (∃ found : list (Z * Artist.t),
       search_artists db search_term
       = inr (search_response "pages/search_artists.html"
                ((λ r, summary r.1 (Artist.name r.2)) <$> found) (length found) "")
       ∧ NoDup found
       ∧ (∀ i a, (i, a) ∈ found
                 ↔ artist_rows db !! i = Some a ∧ is_Some (Artist.name a))
       ∧ length found
         = size (filter (λ r, is_Some (Artist.name r.2)) (artist_rows db))
       ∧ (map_Forall (λ _ a, is_Some (Artist.name a)) (artist_rows db) →
          length found = size (artist_rows db))).
Proof.
  intros Hterm. split.
  - unfold search_venues. rewrite Hterm.
    cbn [String.append list_ascii_of_string Like.parse Driver.adapt forallb].
    simpl.
    assert (filter (λ r : Z * Venue.t,
                      name_ilike (lc_ctype db) [Like.Any; Like.Any] (Venue.name r.2)
                      = true)
              (Query.all (venue_rows db))
            = filter (λ r : Z * Venue.t, is_Some (Venue.name r.2))
                (Query.all (venue_rows db))) as Hfilter.
    { apply list_filter_iff. intros r. apply name_ilike_any_any. }
    eexists. split; [reflexivity|]. rewrite Hfilter. split; [|split; [|split]].
    + apply NoDup_filter, NoDup_map_to_list.
    + intros i v. rewrite list_elem_of_filter. cbn [fst snd]. unfold Query.all.
      rewrite elem_of_map_to_list. tauto.
    + by rewrite size_filter_all.
    + intros Hall. rewrite <- size_filter_all. f_equal.
      apply map_filter_id. intros i v Hv. exact (Hall i v Hv).
  - unfold search_artists. rewrite Hterm.
    cbn [String.append list_ascii_of_string Like.parse Driver.adapt forallb].
    simpl.
    assert (filter (λ r : Z * Artist.t,
                      name_ilike (lc_ctype db) [Like.Any; Like.Any] (Artist.name r.2)
                      = true)
              (Query.all (artist_rows db))
            = filter (λ r : Z * Artist.t, is_Some (Artist.name r.2))
                (Query.all (artist_rows db))) as Hfilter.
    { apply list_filter_iff. intros r. apply name_ilike_any_any. }
    eexists. split; [reflexivity|]. rewrite Hfilter. split; [|split; [|split]].
    + apply NoDup_filter, NoDup_map_to_list.
    + intros i a. rewrite list_elem_of_filter. cbn [fst snd]. unfold Query.all.
      rewrite elem_of_map_to_list. tauto.
    + by rewrite size_filter_all.
    + intros Hall. rewrite <- size_filter_all. f_equal.
      apply map_filter_id. intros i a Ha. exact (Hall i a Ha).
Qed.

Lemma search_empty_term_witness :
  (∃ found : list (Z * Venue.t),
     search_venues sample (Some "")
     = inr (search_response "pages/search_venues.html"
              ((λ r, summary r.1 (Venue.name r.2)) <$> found) (length found) "")
     ∧ NoDup found
     ∧ (∀ i v, (i, v) ∈ found
               ↔ venue_rows sample !! i = Some v ∧ is_Some (Venue.name v))
     ∧ length found
       = size (filter (λ r, is_Some (Venue.name r.2)) (venue_rows sample))
     ∧ (map_Forall (λ _ v, is_Some (Venue.name v)) (venue_rows sample) →
        length found = size (venue_rows sample)))
  ∧ (∃ found : list (Z * Artist.t),
       search_artists sample (Some "")
       = inr (search_response "pages/search_artists.html"
                ((λ r, summary r.1 (Artist.name r.2)) <$> found) (length found) "")
       ∧ NoDup found
       ∧ (∀ i a, (i, a) ∈ found
                 ↔ artist_rows sample !! i = Some a ∧ is_Some (Artist.name a))
       ∧ length found
         = size (filter (λ r, is_Some (Artist.name r.2)) (artist_rows sample))
       ∧ (map_Forall (λ _ a, is_Some (Artist.name a)) (artist_rows sample) →
          length found = size (artist_rows sample))).
Proof.
  apply (search_empty_term sample (Some "")). reflexivity.
Defined.

(** C10 as stated fails on [unnamed]: the empty term finds none of its
    rows, while each table has one. *)
Lemma empty_term_skips_null_names :
  search_venues unnamed (Some "")
  = inr (search_response "pages/search_venues.html" [] 0 "")
  ∧ size (venue_rows unnamed) = 1%nat
  ∧ search_artists unnamed (Some "")
    = inr (search_response "pages/search_artists.html" [] 0 "")
  ∧ size (artist_rows unnamed) = 1%nat.
Proof. repeat split; vm_compute; reflexivity. Qed.

(** ** Writing: shared facts *)

Lemma next_id_fresh {A : Type} (t : gmap Z A) : t !! Query.next_id t = None.
Proof.
  destruct (t !! Query.next_id t) as [x|] eqn:Hx; [|reflexivity].
  apply elem_of_map_to_list in Hx.
  assert (∀ (l : list (Z * A)) k y, (k, y) ∈ l → k ≤ foldr Z.max 0 (map fst l))
    as Hmax.
  { induction l as [|[k' y'] l IH]; intros k y Hin.
    - by apply elem_of_nil in Hin.
    - cbn [map foldr fst]. apply elem_of_cons in Hin as [[= -> ->]|Hin]; [lia|].
      specialize (IH _ _ Hin). lia. }
  specialize (Hmax _ _ _ Hx). unfold Query.next_id in Hmax at 1. lia.
Qed.

(** What [strip] leaves: no whitespace character at either end, and
    nothing but characters of the text. *)
Lemma skip_space_clean (back : bool) (s : list ascii) :
  starts_space back s = false → PyStr.skip_space back s = s.
Proof.
  destruct s as [|a [|b [|c s]]]; cbn [starts_space PyStr.skip_space]; try done.
  - rewrite orb_false_r. by intros ->.
  - rewrite orb_false_r. intros [-> ->]%orb_false_elim. done.
  - intros [-> [-> ->]%orb_false_elim]%orb_false_elim. done.
Qed.

Lemma skip_space_starts (back : bool) (s : list ascii) :
  starts_space back (PyStr.skip_space back s) = false.
Proof.
  remember (List.length s) as n eqn:Hn. revert s Hn.
  induction n as [n IH] using lt_wf_ind. intros s ->.
  destruct s as [|a s1]; [done|]. cbn [PyStr.skip_space].
  destruct (PyStr.isspace [a]) eqn:Ha.
  { eapply IH; [|reflexivity]. cbn. lia. }
  destruct s1 as [|b s2]; [cbn [starts_space]; by rewrite Ha|].
  destruct (PyStr.isspace (PyStr.order back [a; b])) eqn:Hb.
  { eapply IH; [|reflexivity]. cbn. lia. }
  destruct s2 as [|c s3]; [cbn [starts_space]; by rewrite Ha, Hb|].
  destruct (PyStr.isspace (PyStr.order back [a; b; c])) eqn:Hc.
  { eapply IH; [|reflexivity]. cbn. lia. }
  cbn [starts_space]. by rewrite Ha, Hb, Hc.
Qed.

Lemma skip_space_suffix (back : bool) (s : list ascii) :
  ∃ ws, s = ws ++ PyStr.skip_space back s.
Proof.
  remember (List.length s) as n eqn:Hn. revert s Hn.
  induction n as [n IH] using lt_wf_ind. intros s ->.
  destruct s as [|a s1]; [by exists []|]. cbn [PyStr.skip_space].
  destruct (PyStr.isspace [a]).
  { destruct (IH (List.length s1) ltac:(cbn; lia) s1 eq_refl) as [ws Hws].
    exists (a :: ws). cbn [app]. by rewrite <- Hws. }
  destruct s1 as [|b s2]; [by exists []|].
  destruct (PyStr.isspace (PyStr.order back [a; b])).
  { destruct (IH (List.length s2) ltac:(cbn; lia) s2 eq_refl) as [ws Hws].
    exists (a :: b :: ws). cbn [app]. by rewrite <- Hws. }
  destruct s2 as [|c s3]; [by exists []|].
  destruct (PyStr.isspace (PyStr.order back [a; b; c])); [|by exists []].
  destruct (IH (List.length s3) ltac:(cbn; lia) s3 eq_refl) as [ws Hws].
  exists (a :: b :: c :: ws). cbn [app]. by rewrite <- Hws.
Qed.

Lemma starts_space_prefix (back : bool) (p q : list ascii) :
  starts_space back (p ++ q) = false → starts_space back p = false.
Proof.
  destruct p as [|a [|b [|c p]]]; cbn [app starts_space]; try done.
  - destruct (PyStr.isspace [a]); [done|]. by intros _.
  - destruct (PyStr.isspace [a]); [done|]. cbn [orb].
    destruct (PyStr.isspace (PyStr.order back [a; b])); [done|]. by intros _.
Qed.

(** The stripped text between what was stripped from it. *)
Lemma strip_infix (s : string) :
  ∃ before after,
    list_ascii_of_string s
    = before ++ list_ascii_of_string (PyStr.strip s) ++ after.
Proof.
  unfold PyStr.strip. rewrite list_ascii_of_string_of_list_ascii.
  unfold PyStr.lstrip_chars, PyStr.rstrip_chars.
  destruct (skip_space_suffix false (list_ascii_of_string s)) as [before Hb].
  set (a := PyStr.skip_space false (list_ascii_of_string s)) in *.
  destruct (skip_space_suffix true (rev a)) as [after Ha].
  exists before, (rev after). rewrite <- rev_app_distr, <- Ha, rev_involutive.
  exact Hb.
Qed.

(** Stripping a stripped text changes nothing. *)
Lemma strip_strip (s : string) : PyStr.strip (PyStr.strip s) = PyStr.strip s.
Proof.
  unfold PyStr.strip. rewrite list_ascii_of_string_of_list_ascii. f_equal.
  set (a := PyStr.lstrip_chars (list_ascii_of_string s)).
  assert (PyStr.lstrip_chars (PyStr.rstrip_chars a) = PyStr.rstrip_chars a) as ->.
  { apply skip_space_clean. unfold PyStr.rstrip_chars.
    destruct (skip_space_suffix true (rev a)) as [ws Hws].
    apply (starts_space_prefix false _ (rev ws)).
    rewrite <- rev_app_distr, <- Hws, rev_involutive.
    apply skip_space_starts. }
  unfold PyStr.rstrip_chars. rewrite rev_involutive. f_equal.
  apply skip_space_clean, skip_space_starts.
Qed.

Lemma nul_free_strip (s : string) :
  Driver.nul_free s = true → Driver.nul_free (PyStr.strip s) = true.
Proof.
  unfold Driver.nul_free. destruct (strip_infix s) as (before & after & ->).
  rewrite !forallb_app. by intros [_ [? _]%andb_true_iff]%andb_true_iff.
Qed.

(** What the driver sends: the parameters without NUL. *)
Lemma adapt_spec (params : list (option string)) :
  Driver.adapt params
  = if forallb (λ p, match p with Some s => Driver.nul_free s | None => true end)
         params
    then inr () else inl ValueError.
Proof. unfold Driver.adapt. by destruct (forallb _ _). Qed.

Lemma adapt_inr (params : list (option string)) (u : unit) :
  Driver.adapt params = inr u →
  Forall (λ p, ∀ s, p = Some s → Driver.nul_free s = true) params.
Proof.
  rewrite adapt_spec. destruct (forallb _ _) eqn:Hall; [|done]. intros _.
  apply Forall_forall. intros p Hp s ->.
  apply (proj1 (forallb_forall _ _) Hall (Some s)). by apply list_elem_of_In.
Qed.

Lemma adapt_ok (params : list (option string)) :
  Forall (λ p, ∀ s, p = Some s → Driver.nul_free s = true) params →
  Driver.adapt params = inr ().
Proof.
  intros Hall. rewrite adapt_spec.
  rewrite (proj2 (forallb_forall _ _)); [done|].
  intros [s|] Hp%list_elem_of_In; [|done].
  by apply (proj1 (Forall_forall _ _) Hall (Some s)).
Qed.

(** A submitted genre name that no row of [Genre] bears makes the lookups
    raise. *)
Lemma lookup_genres_unknown (db : Database) (names : list string) (genre : string) :
  genre ∈ names →
  (∀ i g, genre_rows db !! i = Some g → Genre.name g ≠ Some genre) →
  ∃ e, lookup_genres db names = inl e.
Proof.
  intros Hin Hunknown. induction names as [|n names IH].
  - by apply elem_of_nil in Hin.
  - cbn [lookup_genres]. destruct (Driver.adapt [Some n]) as [e|[]];
      [by exists e|]. cbn [mbind result_bind].
    destruct (Query.one (Query.genres_named db n)) as [e|g] eqn:Hone;
      [by exists e|]. cbn [mbind result_bind].
    apply elem_of_cons in Hin as [->|Hin].
    + exfalso. unfold Query.genres_named in Hone.
      destruct (filter _ _) as [|[i r] l] eqn:Hf; [done|].
      assert ((i, r) ∈ filter (λ r : Z * Genre.t, Genre.name r.2 = Some n)
                         (Query.all (genre_rows db))) as Hr.
      { rewrite Hf. left. }
      apply list_elem_of_filter in Hr as [Hname Hr].
      apply elem_of_map_to_list in Hr. exact (Hunknown _ _ Hr Hname).
    + destruct (IH Hin) as [e ->]. by exists e.
Qed.

Lemma lookup_genres_spec (db : Database) (names : list string) (gs : list Z) :
  lookup_genres db names = inr gs → Forall2 (names_genre db) names gs.
Proof.
  revert gs. induction names as [|n names IH]; intros gs Hgs; simpl in Hgs.
  - injection Hgs as <-. constructor.
  - destruct (Driver.adapt [Some n]) as [e|[]]; [done|]. simpl in Hgs.
    destruct (Query.one (Query.genres_named db n)) as [e|[g r]] eqn:Hone; [done|].
    simpl in Hgs.
    destruct (lookup_genres db names) as [e|gs'] eqn:Hrest; [done|].
    simpl in Hgs. injection Hgs as <-. constructor; [|by apply IH].
    unfold Query.genres_named in Hone.
    destruct (filter _ _) as [|x [|y l]] eqn:Hf; try done.
    injection Hone as ->.
    assert (∀ x, x ∈ filter (λ r : Z * Genre.t, Genre.name r.2 = Some n)
                       (Query.all (genre_rows db)) ↔ x = (g, r)) as Hsingle.
    { intros x. rewrite Hf. apply list_elem_of_singleton. }
    split.
    + exists r. pose proof (proj2 (Hsingle (g, r)) eq_refl) as Hin.
      apply list_elem_of_filter in Hin as [Hname Hin].
      apply elem_of_map_to_list in Hin. done.
    + intros g' r' Hg' Hname.
      assert ((g', r') = (g, r)) as Heq; [|congruence].
      apply Hsingle, list_elem_of_filter. split; [done|].
      by apply elem_of_map_to_list.
Qed.

Lemma length_list_ascii_of_string (s : string) :
  List.length (list_ascii_of_string s) = String.length s.
Proof. induction s as [|c s IH]; [reflexivity|]. cbn. by rewrite IH. Qed.

(** A text has at most as many characters as bytes. *)
Lemma utf8_length_le (s : string) :
  (Utf8.length (list_ascii_of_string s) ≤ String.length s)%nat.
Proof.
  unfold Utf8.length. rewrite <- length_list_ascii_of_string.
  apply List.filter_length_le.
Qed.

Lemma varchar_fits_chars (n : nat) (s : string) :
  (Utf8.length (list_ascii_of_string s) ≤ n)%nat →
  Column.varchar n (Some s) = inr (Some s).
Proof.
  intros Hlen. unfold Column.varchar.
  by rewrite (proj2 (Nat.leb_le _ _) Hlen).
Qed.

Lemma varchar_fits (n : nat) (s : string) :
  (String.length s ≤ n)%nat → Column.varchar n (Some s) = inr (Some s).
Proof.
  intros Hlen. apply varchar_fits_chars.
  pose proof (utf8_length_le s). lia.
Qed.

(** ** Creating a venue *)



(** The same submission, run: no venue is added, and the [Details] table
    goes from two rows to three. *)
Example polka_venue_run :
  size (details_rows sample) = 2%nat
  ∧ size (details_rows (create_venue_submission sample polka_venue).1) = 3%nat
  ∧ size (venue_rows sample) = 1%nat
  ∧ size (venue_rows (create_venue_submission sample polka_venue).1) = 1%nat.
Proof. repeat split; vm_compute; reflexivity. Qed.

(** ** Deleting a venue *)

Lemma shows_of_venue_nil (db : Database) (venue_id : Z) :
  shows_of_venue db venue_id = []
  ↔ ∀ i s, show_rows db !! i = Some s → Show.venue_id s ≠ venue_id.
Proof.
  unfold shows_of_venue, Query.all. split.
  - intros Hnil i s Hs Heq.
    eapply (filter_nil_not_elem_of _ _ (i, s) Hnil); [exact Heq|].
    by apply elem_of_map_to_list.
  - intros Hnone. destruct (filter _ _) as [|[i s] l] eqn:Hf; [reflexivity|].
    assert ((i, s) ∈ filter (λ r : Z * Show.t, Show.venue_id r.2 = venue_id)
                       (map_to_list (show_rows db))) as Hin.
    { rewrite Hf. left. }
    apply list_elem_of_filter in Hin as [Heq Hin].
    apply elem_of_map_to_list in Hin. destruct (Hnone _ _ Hin Heq).
Qed.

(** C2, as the code has it: an id that matches no venue is answered with
    status 500 and changes nothing; so is the id of a venue that some show
    references, because the commit fails; the id of a venue that no show
    references removes the venue and its genre associations, and is
    answered with [{"deleted": true}] when the name [jsonify] is bound. *)
Theorem delete_venue_outcomes (star : list string) (db : Database) (venue_id : Z) :
  let after := delete_venue star db venue_id in
  (venue_rows db !! venue_id = None →
   after.1 = db ∧ status (outcome after.2) = 500)
  ∧ (is_Some (venue_rows db !! venue_id) →
     (∃ i s, show_rows db !! i = Some s ∧ Show.venue_id s = venue_id) →
     after.1 = db ∧ outcome after.2 = abort 500 ∧ status (outcome after.2) = 500)
  ∧ (is_Some (venue_rows db !! venue_id) →
     (∀ i s, show_rows db !! i = Some s → Show.venue_id s ≠ venue_id) →
     venue_rows after.1 = delete venue_id (venue_rows db)
     ∧ venue_rows after.1 !! venue_id = None
     ∧ (∀ g v, (g, v) ∈ venue_genres after.1
               ↔ (g, v) ∈ venue_genres db ∧ v ≠ venue_id)
     ∧ (bound star "jsonify" = true →
        outcome after.2 = inr (json_response (PDict [("deleted", PBool true)])))).
Proof.
  intros after. subst after. unfold delete_venue, Query.by_id.
  split; [|split].
  - intros ->. done.
  - intros [venue ->] (i & s & Hs & Heq). unfold Session.delete_venue.
    destruct (shows_of_venue db venue_id) as [|r l] eqn:Hshows; [|done].
    exfalso. exact (proj1 (shows_of_venue_nil db venue_id) Hshows i s Hs Heq).
  - intros [venue ->] Hnone. unfold Session.delete_venue.
    rewrite (proj2 (shows_of_venue_nil db venue_id) Hnone).
    cbn [mret result_ret fst snd outcome venue_rows venue_genres
         with_venue_genres with_venues].
    split; [reflexivity|]. split; [apply lookup_delete_eq|]. split.
    + intros g v. rewrite elem_of_filter. cbn [snd]. tauto.
    + intros ->. reflexivity.
Qed.

Lemma delete_venue_outcomes_witness :
  let after := delete_venue ["jsonify"] unnamed 1 in
  venue_rows after.1 = delete 1 (venue_rows unnamed)
  ∧ venue_rows after.1 !! 1 = None
  ∧ (∀ g v, (g, v) ∈ venue_genres after.1
            ↔ (g, v) ∈ venue_genres unnamed ∧ v ≠ 1)
  ∧ (bound ["jsonify"] "jsonify" = true →
     outcome after.2 = inr (json_response (PDict [("deleted", PBool true)]))).
Proof.
  apply (delete_venue_outcomes ["jsonify"] unnamed 1).
  - by eexists.
  - intros i s Hs. unfold unnamed in Hs. cbn [show_rows] in Hs.
    by rewrite lookup_empty in Hs.
Defined.

(** C2 as stated fails on [sample]: venue 1 exists and show 1 references
    it; the request is answered with status 500 and the venue stays. *)
Lemma delete_venue_with_show :
  is_Some (venue_rows sample !! 1)
  ∧ delete_venue ["jsonify"] sample 1 = (sample, mkReply [] (abort 500))
  ∧ status (abort 500) = 500.
Proof. split; [by eexists|]. split; vm_compute; reflexivity. Qed.

(** ** Editing an artist *)

Lemma names_genre_functional (db : Database) (n : string) (g g' : Z) :
  names_genre db n g → names_genre db n g' → g = g'.
Proof. intros [_ Huniq] [(r & Hr & Hn) _]. symmetry. by eapply Huniq. Qed.

Lemma names_genre_injective (db : Database) (n n' : string) (g : Z) :
  names_genre db n g → names_genre db n' g → n = n'.
Proof. intros [(r & Hr & Hn) _] [(r' & Hr' & Hn') _]. congruence. Qed.

Lemma elem_of_pairs (gs : list Z) (entity : Z) (p : Z * Z) :
  p ∈ pairs gs entity ↔ p.1 ∈ gs ∧ p.2 = entity.
Proof.
  unfold pairs. rewrite elem_of_list_to_set, list_elem_of_fmap.
  destruct p as [g a]. simpl. split.
  - by intros (g' & [= -> ->] & Hin).
  - intros [Hin ->]. by exists g.
Qed.

(** As many association rows as distinct submitted names. *)
Lemma size_pairs (db : Database) (names : list string) (gs : list Z) (entity : Z) :
  Forall2 (names_genre db) names gs →
  size (pairs gs entity) = size (list_to_set names : gset string).
Proof.
  induction 1 as [|n g names gs Hng Hrest IH].
  - unfold pairs. rewrite fmap_nil, !list_to_set_nil, !size_empty. reflexivity.
  - unfold pairs in *. rewrite fmap_cons, !list_to_set_cons.
    destruct (decide (n ∈ names)) as [Hin|Hnin].
    + assert (g ∈ gs) as Hg.
      { apply list_elem_of_lookup in Hin as [k Hk].
        destruct (Forall2_lookup_l _ _ _ _ _ Hrest Hk) as (g' & Hg' & Hng').
        rewrite (names_genre_functional _ _ _ _ Hng Hng').
        by eapply list_elem_of_lookup_2. }
      rewrite !subseteq_union_1_L; [exact IH| |].
      * apply singleton_subseteq_l, elem_of_list_to_set. exact Hin.
      * apply singleton_subseteq_l, elem_of_list_to_set, list_elem_of_fmap.
        by exists g.
    + assert (g ∉ gs) as Hg.
      { intros Hg. apply Hnin. apply list_elem_of_lookup in Hg as [k Hk].
        destruct (Forall2_lookup_r _ _ _ _ _ Hrest Hk) as (n' & Hn' & Hng').
        rewrite (names_genre_injective _ _ _ _ Hng Hng').
        by eapply list_elem_of_lookup_2. }
      rewrite !size_union, !size_singleton, IH; [reflexivity| |].
      * apply disjoint_singleton_l. by rewrite elem_of_list_to_set.
      * apply disjoint_singleton_l. rewrite elem_of_list_to_set, list_elem_of_fmap.
        intros (g' & [= ->] & Hin). done.
Qed.

(** C5: after a successful edit, the artist's association rows are those of
    the submitted genre names and no others: each submitted name has the
    row of the one genre that bears it, every row of the artist belongs to
    a submitted name, there are as many rows as distinct submitted names,
    and the rows of other artists are as before. *)
Theorem edit_artist_replaces_genres (db : Database) (artist_id : Z)
    (form : ArtistForm.t) (after : Database) (reply : Reply) :
  edit_artist_submission db artist_id form = (after, reply) →
  outcome reply = inr (redirect "show_artist" [("artist_id", PInt artist_id)]) →
  is_Some (artist_rows db !! artist_id)
  ∧ genre_rows after = genre_rows db
  ∧ (∀ n, n ∈ ArtistForm.genres form →
          ∃ g, names_genre db n g ∧ (g, artist_id) ∈ artist_genres after)
  ∧ (∀ g, (g, artist_id) ∈ artist_genres after →
          ∃ n, n ∈ ArtistForm.genres form ∧ names_genre db n g)
  ∧ size (filter (λ p, p.2 = artist_id) (artist_genres after))
    = size (list_to_set (ArtistForm.genres form) : gset string)
  ∧ (∀ g a, a ≠ artist_id →
            (g, a) ∈ artist_genres after ↔ (g, a) ∈ artist_genres db).
Proof.
  unfold edit_artist_submission, Query.by_id_or_none, Query.by_id.
  intros Hrun Hok.
  destruct (artist_rows db !! artist_id) as [artist|] eqn:Hartist;
    [|injection Hrun as <- <-; done].
  destruct (details_rows db !! Artist.details_id artist) as [detail|];
    [|injection Hrun as <- <-; done].
  destruct (lookup_genres db (ArtistForm.genres form)) as [e|gs] eqn:Hgs;
    [injection Hrun as <- <-; done|].
  cbn [mbind result_bind mret result_ret] in Hrun.
  unfold Session.update_artist in Hrun.
  destruct (Driver.adapt _) as [e|[]];
    cbn [mbind result_bind mret result_ret] in Hrun;
    [injection Hrun as <- <-; done|].
  destruct (Column.details _) as [e|stored];
    cbn [mbind result_bind mret result_ret] in Hrun;
    [injection Hrun as <- <-; done|].
  injection Hrun as <- _. clear Hok.
  apply lookup_genres_spec in Hgs.
  cbn [genre_rows artist_genres with_artist_genres with_details with_artists].
  split; [by eexists|]. split; [reflexivity|].
  assert (∀ p, p ∈ pairs gs artist_id ∪ filter (λ p, p.2 ≠ artist_id) (artist_genres db)
               ↔ (p.1 ∈ gs ∧ p.2 = artist_id)
                 ∨ (p.2 ≠ artist_id ∧ p ∈ artist_genres db)) as Hrows.
  { intros p. by rewrite elem_of_union, elem_of_pairs, elem_of_filter. }
  split; [|split; [|split]].
  - intros n Hn. apply list_elem_of_lookup in Hn as [k Hk].
    destruct (Forall2_lookup_l _ _ _ _ _ Hgs Hk) as (g & Hg & Hng).
    exists g. split; [exact Hng|]. apply Hrows. left.
    split; [|reflexivity]. by eapply list_elem_of_lookup_2.
  - intros g [[Hg _]|[Hne _]]%Hrows; [|done]. cbn [fst] in Hg.
    apply list_elem_of_lookup in Hg as [k Hk].
    destruct (Forall2_lookup_r _ _ _ _ _ Hgs Hk) as (n & Hn & Hng).
    exists n. split; [|exact Hng]. by eapply list_elem_of_lookup_2.
  - rewrite <- (size_pairs db _ gs artist_id Hgs). f_equal.
    apply set_eq. intros p. rewrite elem_of_filter, Hrows, elem_of_pairs. tauto.
  - intros g a Hne. rewrite Hrows. cbn [fst snd]. tauto.
Qed.

Lemma edit_artist_replaces_genres_witness :
  let after := (edit_artist_submission sample 1 to_blues).1 in
  is_Some (artist_rows sample !! 1)
  ∧ genre_rows after = genre_rows sample
  ∧ (∀ n, n ∈ ArtistForm.genres to_blues →
          ∃ g, names_genre sample n g ∧ (g, 1) ∈ artist_genres after)
  ∧ (∀ g, (g, 1) ∈ artist_genres after →
          ∃ n, n ∈ ArtistForm.genres to_blues ∧ names_genre sample n g)
  ∧ size (filter (λ p, p.2 = 1) (artist_genres after))
    = size (list_to_set (ArtistForm.genres to_blues) : gset string)
  ∧ (∀ g a, a ≠ 1 → (g, a) ∈ artist_genres after ↔ (g, a) ∈ artist_genres sample).
Proof.
  apply (edit_artist_replaces_genres sample 1 to_blues
           (edit_artist_submission sample 1 to_blues).1
           (edit_artist_submission sample 1 to_blues).2).
  - apply surjective_pairing.
  - vm_compute. reflexivity.
Defined.

(** The edit of the specification's example, run: the artist's genre was
    Jazz (genre 1), and after the edit to Blues (genre 2) the association
    table holds the one row [(2, 1)]. *)
Example edit_artist_jazz_to_blues :
  elements (artist_genres sample) = [(1, 1)]
  ∧ elements (artist_genres (edit_artist_submission sample 1 to_blues).1) = [(2, 1)].
Proof. split; vm_compute; reflexivity. Qed.

(** ** The session's flushes *)

Lemma bind_inr {A B : Type} (m : result A) (f : A → result B) (b : B) :
  m ≫= f = inr b → ∃ a, m = inr a ∧ f a = inr b.
Proof. destruct m as [e|a]; [done|]. intros H. by exists a. Qed.

Lemma add_details_inr (db : Database) (d : Details.t) (i : Z)
    (stored : Details.t) (db1 : Database) :
  Session.add_details db d = inr (i, stored, db1) →
  i = Query.next_id (details_rows db)
  ∧ Column.details d = inr stored
  ∧ db1 = with_details (<[i := stored]> (details_rows db)) db.
Proof.
  unfold Session.add_details. intros (x & Hx & Hret)%bind_inr.
  injection Hret as <- <- <-. done.
Qed.

Lemma add_venue_inr (db : Database) (v : Venue.t) (gs : list Z) (db2 : Database) :
  Session.add_venue db v gs = inr db2 →
  is_Some (details_rows db !! Venue.details_id v)
  ∧ db2 = with_venue_genres (pairs gs (Query.next_id (venue_rows db)) ∪ venue_genres db)
            (with_venues (<[Query.next_id (venue_rows db) := v]> (venue_rows db)) db).
Proof.
  unfold Session.add_venue. intros ([] & _ & H)%bind_inr. revert H.
  destruct (details_rows db !! _); [|done].
  intros [= <-]. split; [by eexists|done].
Qed.

Lemma add_artist_inr (db : Database) (a : Artist.t) (gs : list Z) (db2 : Database) :
  Session.add_artist db a gs = inr db2 →
  is_Some (details_rows db !! Artist.details_id a)
  ∧ db2 = with_artist_genres (pairs gs (Query.next_id (artist_rows db)) ∪ artist_genres db)
            (with_artists (<[Query.next_id (artist_rows db) := a]> (artist_rows db)) db).
Proof.
  unfold Session.add_artist. intros ([] & _ & H)%bind_inr. revert H.
  destruct (details_rows db !! _); [|done].
  intros [= <-]. split; [by eexists|done].
Qed.

Lemma add_show_inr (db : Database) (s : Show.t) (db1 : Database) :
  Session.add_show db s = inr db1 →
  is_Some (artist_rows db !! Show.artist_id s)
  ∧ is_Some (venue_rows db !! Show.venue_id s)
  ∧ db1 = with_shows (<[Query.next_id (show_rows db) := s]> (show_rows db)) db.
Proof.
  unfold Session.add_show.
  destruct (artist_rows db !! _); [|done]. destruct (venue_rows db !! _); [|done].
  intros [= <-]. split; [by eexists|]. split; [by eexists|done].
Qed.

Lemma update_artist_inr (db : Database) (artist_id : Z) (a : Artist.t)
    (details_id : Z) (d : Details.t) (gs : list Z) (db1 : Database) :
  Session.update_artist db artist_id a details_id d gs = inr db1 →
  ∃ stored,
    Column.details d = inr stored
    ∧ db1 = with_artist_genres
              (pairs gs artist_id ∪ filter (λ p, p.2 ≠ artist_id) (artist_genres db))
              (with_details (<[details_id := stored]> (details_rows db))
                 (with_artists (<[artist_id := a]> (artist_rows db)) db)).
Proof.
  unfold Session.update_artist. intros ([] & _ & H)%bind_inr.
  apply bind_inr in H as (stored & Hstored & [= <-]). by exists stored.
Qed.

Lemma update_venue_inr (db : Database) (venue_id : Z) (v : Venue.t)
    (details_id : Z) (d : Details.t) (gs : list Z) (db1 : Database) :
  Session.update_venue db venue_id v details_id d gs = inr db1 →
  ∃ stored,
    Column.details d = inr stored
    ∧ db1 = with_venue_genres
              (pairs gs venue_id ∪ filter (λ p, p.2 ≠ venue_id) (venue_genres db))
              (with_details (<[details_id := stored]> (details_rows db))
                 (with_venues (<[venue_id := v]> (venue_rows db)) db)).
Proof.
  unfold Session.update_venue. intros ([] & _ & H)%bind_inr.
  apply bind_inr in H as (stored & Hstored & [= <-]). by exists stored.
Qed.

Lemma delete_venue_inr (db : Database) (venue_id : Z) (db1 : Database) :
  Session.delete_venue db venue_id = inr db1 →
  shows_of_venue db venue_id = []
  ∧ db1 = with_venue_genres (filter (λ p, p.2 ≠ venue_id) (venue_genres db))
            (with_venues (delete venue_id (venue_rows db)) db).
Proof.
  unfold Session.delete_venue. destruct (shows_of_venue db venue_id); [|done].
  by intros [= <-].
Qed.

(** ** Shows *)

Lemma create_venue_submission_shows (db : Database) (form : VenueForm.t) :
  show_rows (create_venue_submission db form).1 = show_rows db.
Proof.
  unfold create_venue_submission.
  destruct (Session.add_details db _) as [e|[[i stored] db1]] eqn:Hadd;
    [reflexivity|].
  apply add_details_inr in Hadd as (_ & _ & ->).
  match goal with |- context [match ?m with inl _ => _ | inr _ => _ end] =>
    destruct m as [e|db2] eqn:Hrest end; [reflexivity|].
  apply bind_inr in Hrest as ([] & _ & Hrest).
  apply bind_inr in Hrest as (detail & _ & Hrest).
  apply bind_inr in Hrest as (gs & _ & Hrest).
  apply add_venue_inr in Hrest as (_ & ->). reflexivity.
Qed.

Lemma create_artist_submission_shows (db : Database) (form : ArtistForm.t) :
  show_rows (create_artist_submission db form).1 = show_rows db.
Proof.
  unfold create_artist_submission.
  destruct (Session.add_details db _) as [e|[[i stored] db1]] eqn:Hadd;
    [reflexivity|].
  apply add_details_inr in Hadd as (_ & _ & ->).
  match goal with |- context [match ?m with inl _ => _ | inr _ => _ end] =>
    destruct m as [e|db2] eqn:Hrest end; [reflexivity|].
  apply bind_inr in Hrest as ([] & _ & Hrest).
  apply bind_inr in Hrest as (detail & _ & Hrest).
  apply bind_inr in Hrest as (gs & _ & Hrest).
  apply add_artist_inr in Hrest as (_ & ->). reflexivity.
Qed.

Lemma delete_venue_shows (star : list string) (db : Database) (venue_id : Z) :
  show_rows (delete_venue star db venue_id).1 = show_rows db.
Proof.
  unfold delete_venue. destruct (Query.by_id _ _) as [e|venue]; [reflexivity|].
  destruct (Session.delete_venue db venue_id) as [e|db1] eqn:Hdel; [reflexivity|].
  apply delete_venue_inr in Hdel as (_ & ->). reflexivity.
Qed.

Lemma edit_artist_submission_shows (db : Database) (artist_id : Z)
    (form : ArtistForm.t) :
  show_rows (edit_artist_submission db artist_id form).1 = show_rows db.
Proof.
  unfold edit_artist_submission.
  destruct (Query.by_id_or_none _ _) as [artist|]; [|reflexivity].
  destruct (Query.by_id _ _) as [e|detail]; [reflexivity|].
  match goal with |- context [match ?m with inl _ => _ | inr _ => _ end] =>
    destruct m as [e|db1] eqn:Hrest end; [reflexivity|].
  apply bind_inr in Hrest as (gs & _ & Hrest).
  apply update_artist_inr in Hrest as (stored & _ & ->). reflexivity.
Qed.

Lemma edit_venue_submission_shows (db : Database) (venue_id : Z)
    (form : VenueForm.t) :
  show_rows (edit_venue_submission db venue_id form).1 = show_rows db.
Proof.
  unfold edit_venue_submission.
  destruct (Query.by_id_or_none _ _) as [venue|]; [|reflexivity].
  destruct (Query.by_id _ _) as [e|detail]; [reflexivity|].
  match goal with |- context [match ?m with inl _ => _ | inr _ => _ end] =>
    destruct m as [e|db1] eqn:Hrest end; [reflexivity|].
  apply bind_inr in Hrest as (gs & _ & Hrest).
  apply update_venue_inr in Hrest as (stored & _ & ->). reflexivity.
Qed.

(** What [create_show_submission] does to the [Show] table: nothing, or one
    new row under a fresh id, flagged by the comparison of the submitted
    start time with [now]. *)
Lemma create_show_submission_shows (star : list string) (now : DateTime.t)
    (db : Database) (form : ShowForm.t) :
  let after := create_show_submission star now db form in
  (show_rows after.1 = show_rows db
   ∧ flashed after.2 ≠ ["Show was successfully listed!"])
  ∨ ∃ startTime artist_id venue_id,
      ShowForm.start_time form = Some startTime
      ∧ show_rows db !! Query.next_id (show_rows db) = None
      ∧ show_rows after.1
        = <[Query.next_id (show_rows db) :=
              Show.mk artist_id venue_id (DateTime.gt startTime now)
                      (Some startTime)]> (show_rows db)
      ∧ is_Some (artist_rows db !! artist_id)
      ∧ is_Some (venue_rows db !! venue_id)
      ∧ Column.integer (PyStr.strip (ShowForm.artist_id form)) = inr artist_id
      ∧ Column.integer (PyStr.strip (ShowForm.venue_id form)) = inr venue_id
      ∧ flashed after.2 = ["Show was successfully listed!"].
Proof.
  intros after. subst after. unfold create_show_submission.
  destruct (negb (bound star "datetime")); [by left|].
  destruct (ShowForm.start_time form) as [startTime|]; [|by left].
  match goal with |- context [match ?m with inl _ => _ | inr _ => _ end] =>
    destruct m as [e|db1] eqn:Hrest end; [by left|].
  right. apply bind_inr in Hrest as (artist_id & Hartist & Hrest).
  apply bind_inr in Hrest as (venue_id & Hvenue & Hrest).
  apply add_show_inr in Hrest as (Ha & Hv & ->).
  exists startTime, artist_id, venue_id.
  split; [reflexivity|]. split; [apply next_id_fresh|].
  split; [by destruct (DateTime.gt startTime now)|]. done.
Qed.

Lemma handle_show_rows (star : list string) (db : Database) (r : Request) :
  show_rows (handle star db r).1 = show_rows db
  ∨ ∃ now form startTime artist_id venue_id,
      r = POST_shows_create now form
      ∧ ShowForm.start_time form = Some startTime
      ∧ show_rows db !! Query.next_id (show_rows db) = None
      ∧ show_rows (handle star db r).1
        = <[Query.next_id (show_rows db) :=
              Show.mk artist_id venue_id (DateTime.gt startTime now)
                      (Some startTime)]> (show_rows db).
Proof.
  destruct r as [| | | | |f|i| | | | |i f| |i f| |f| | |now f];
    cbn [handle reading fst]; try (by left).
  - left. apply create_venue_submission_shows.
  - left. apply delete_venue_shows.
  - left. apply edit_artist_submission_shows.
  - left. apply edit_venue_submission_shows.
  - left. apply create_artist_submission_shows.
  - destruct (create_show_submission_shows star now db f)
      as [[Hsame _]|(st & a & v & Hst & Hfresh & Hrows & _)]; [by left|].
    right. by exists now, f, st, a, v.
Qed.

Lemma handle_keeps_show (star : list string) (db : Database) (r : Request)
    (id : Z) (show : Show.t) :
  show_rows db !! id = Some show →
  show_rows (handle star db r).1 !! id = Some show.
Proof.
  intros Hshow.
  destruct (handle_show_rows star db r)
    as [->|(now & f & st & a & v & _ & _ & Hfresh & ->)]; [done|].
  rewrite lookup_insert_ne; [done|]. congruence.
Qed.

Lemma serve_keeps_show (star : list string) (requests : list Request)
    (db : Database) (id : Z) (show : Show.t) :
  show_rows db !! id = Some show →
  show_rows (serve star db requests) !! id = Some show.
Proof.
  revert db. induction requests as [|r requests IH]; intros db Hshow; [done|].
  cbn [serve]. apply IH. by apply handle_keeps_show.
Qed.

(** C6: a show submission that succeeds stores the show under a fresh id
    with its [upcoming] flag set to the comparison of the submitted start
    time with the clock of that request; a row enters the [Show] table in no
    other way; and whatever requests are served afterwards, at whatever
    times, the row, and so its flag, stays as it was stored and is what the
    detail pages read. *)
Theorem upcoming_set_once (star : list string) (db : Database) :
  (∀ now form,
     flashed (create_show_submission star now db form).2
     = ["Show was successfully listed!"] →
     ∃ startTime show,
       ShowForm.start_time form = Some startTime
       ∧ show_rows db !! Query.next_id (show_rows db) = None
       ∧ show_rows (create_show_submission star now db form).1
         !! Query.next_id (show_rows db) = Some show
       ∧ Show.start_time show = Some startTime
       ∧ Show.upcoming show = DateTime.gt startTime now)
  ∧ (∀ r id show,
       show_rows db !! id = None →
       show_rows (handle star db r).1 !! id = Some show →
       ∃ now form startTime,
         r = POST_shows_create now form
         ∧ ShowForm.start_time form = Some startTime
         ∧ Show.start_time show = Some startTime
         ∧ Show.upcoming show = DateTime.gt startTime now)
  ∧ (∀ requests id show,
       show_rows db !! id = Some show →
       show_rows (serve star db requests) !! id = Some show
       ∧ (id, show) ∈ shows_of_venue (serve star db requests) (Show.venue_id show)
       ∧ (id, show) ∈ shows_of_artist (serve star db requests) (Show.artist_id show)).
Proof.
  split; [|split].
  - intros now form Hflash.
    destruct (create_show_submission_shows star now db form)
      as [[_ Hne]|(st & a & v & Hst & Hfresh & Hrows & _)]; [done|].
    exists st, (Show.mk a v (DateTime.gt st now) (Some st)).
    rewrite Hrows, lookup_insert_eq. done.
  - intros r id show Hnone Hsome.
    destruct (handle_show_rows star db r)
      as [Hsame|(now & f & st & a & v & -> & Hst & Hfresh & Hrows)].
    + rewrite Hsame in Hsome. congruence.
    + rewrite Hrows in Hsome.
      destruct (decide (Query.next_id (show_rows db) = id)) as [Heq|Hne].
      * rewrite Heq, lookup_insert_eq in Hsome. injection Hsome as <-.
        by exists now, f, st.
      * rewrite lookup_insert_ne in Hsome by done. congruence.
  - intros requests id show Hshow.
    pose proof (serve_keeps_show star requests db id show Hshow) as Hkept.
    split; [exact Hkept|].
    split; (apply list_elem_of_filter; split; [reflexivity|];
            by apply elem_of_map_to_list).
Qed.

Lemma upcoming_set_once_witness :
  let star := ["datetime"; "jsonify"] in
  let now := DateTime.mk 2030 1 1 12 0 0 0 in
  let created := (create_show_submission star now sample june_show).1 in
  let show := Show.mk 1 1 true (Some (DateTime.mk 2030 6 1 20 0 0 0)) in
  (∃ startTime show',
     ShowForm.start_time june_show = Some startTime
     ∧ show_rows sample !! Query.next_id (show_rows sample) = None
     ∧ show_rows created !! Query.next_id (show_rows sample) = Some show'
     ∧ Show.start_time show' = Some startTime
     ∧ Show.upcoming show' = DateTime.gt startTime now)
  ∧ show_rows (serve star created later_requests) !! 2 = Some show
  ∧ (2, show) ∈ shows_of_venue (serve star created later_requests) 1
  ∧ (2, show) ∈ shows_of_artist (serve star created later_requests) 1.
Proof.
  intros star now created show. split.
  - apply (proj1 (upcoming_set_once star sample) now june_show).
    vm_compute. reflexivity.
  - apply (proj2 (proj2 (upcoming_set_once star created)) later_requests 2 show).
    vm_compute. reflexivity.
Defined.

(** The page of venue 1 after those requests: the show of June 2030 is
    still counted as upcoming when the request of 2031 has been served. *)
Example upcoming_after_start_time :
  let star := ["datetime"; "jsonify"] in
  let created :=
    (create_show_submission star (DateTime.mk 2030 1 1 12 0 0 0) sample june_show).1 in
  ∃ d, show_venue (serve star created later_requests) 1
       = inr (render_template "pages/show_venue.html" [("venue", PDict d)])
       ∧ dict_get d "upcoming_shows_count" = Some (PInt 2)
       ∧ dict_get d "past_shows_count" = Some (PInt 1).
Proof. eexists. split; [vm_compute; reflexivity|]. split; reflexivity. Qed.

(** ** Field extraction *)

(** C7 fails for the phone number of an artist edit: [to_blues] submits
    [" 326-123-5000 "], the edit succeeds, and the [Details] row of the
    artist holds the value with its spaces, not the stripped one. *)
Theorem edit_artist_phone_not_stripped :
  ArtistForm.phone to_blues = " 326-123-5000 "
  ∧ PyStr.strip (ArtistForm.phone to_blues) = "326-123-5000"
  ∧ Artist.details_id <$> artist_rows sample !! 1 = Some 2
  ∧ (edit_artist_submission sample 1 to_blues).2
    = mkReply [] (inr (redirect "show_artist" [("artist_id", PInt 1)]))
  ∧ Details.phone <$> details_rows (edit_artist_submission sample 1 to_blues).1 !! 2
    = Some (Some " 326-123-5000 ").
Proof. repeat split; vm_compute; reflexivity. Qed.

(** The same submission through the sibling handlers, which strip the
    phone number. *)
Example edit_venue_phone_stripped :
  Details.phone
    <$> details_rows
          (edit_venue_submission sample 1
             (VenueForm.mk "The Musical Hop" "San Francisco" "CA"
                "1015 Folsom Street" " 326-123-5000 " "fb/musicalhop" ["Jazz"])).1
        !! 1
  = Some (Some "326-123-5000").
Proof. vm_compute. reflexivity. Qed.

(** ** The schema's constraints are kept *)

Lemma consistent_lookup (db : Database) :
  consistent db
  ↔ (∀ i v, venue_rows db !! i = Some v →
            is_Some (details_rows db !! Venue.details_id v))
    ∧ (∀ i a, artist_rows db !! i = Some a →
              is_Some (details_rows db !! Artist.details_id a))
    ∧ (∀ i s, show_rows db !! i = Some s →
              is_Some (artist_rows db !! Show.artist_id s)
              ∧ is_Some (venue_rows db !! Show.venue_id s))
    ∧ (∀ g a, (g, a) ∈ artist_genres db →
              is_Some (genre_rows db !! g) ∧ is_Some (artist_rows db !! a))
    ∧ (∀ g v, (g, v) ∈ venue_genres db →
              is_Some (genre_rows db !! g) ∧ is_Some (venue_rows db !! v)).
Proof.
  unfold consistent. rewrite !map_Forall_lookup. unfold set_Forall.
  split.
  - intros (H1 & H2 & H3 & H4 & H5). repeat split; try done.
    + by apply (H3 i s).
    + by apply (H3 i s).
    + by apply (H4 (g, a)).
    + by apply (H4 (g, a)).
    + by apply (H5 (g, v)).
    + by apply (H5 (g, v)).
  - intros (H1 & H2 & H3 & H4 & H5). repeat split; try done.
    + by apply (H3 i x).
    + by apply (H3 i x).
    + destruct x as [g a]. by apply (H4 g a).
    + destruct x as [g a]. by apply (H4 g a).
    + destruct x as [g v]. by apply (H5 g v).
    + destruct x as [g v]. by apply (H5 g v).
Qed.

Lemma insert_keeps_is_Some {A : Type} (m : gmap Z A) (i j : Z) (x : A) :
  is_Some (m !! j) → is_Some (<[i := x]> m !! j).
Proof.
  intros Hj. apply lookup_insert_is_Some.
  destruct (decide (i = j)); [by left|by right].
Qed.

Lemma lookup_genres_exist (db : Database) (names : list string) (gs : list Z) :
  lookup_genres db names = inr gs → ∀ g, g ∈ gs → is_Some (genre_rows db !! g).
Proof.
  intros Hgs%lookup_genres_spec g Hg.
  apply list_elem_of_lookup in Hg as [k Hk].
  destruct (Forall2_lookup_r _ _ _ _ _ Hgs Hk) as (n & _ & [(r & Hr & _) _]).
  by exists r.
Qed.

Lemma add_details_consistent (db : Database) (i : Z) (d : Details.t) :
  consistent db →
  consistent (with_details (<[i := d]> (details_rows db)) db).
Proof.
  rewrite !consistent_lookup.
  cbn [venue_rows artist_rows show_rows genre_rows details_rows artist_genres
       venue_genres with_details].
  intros (H1 & H2 & H3 & H4 & H5). repeat split; eauto using insert_keeps_is_Some;
    try (by eapply H3); try (by eapply H4); by eapply H5.
Qed.

Lemma add_venue_consistent (db : Database) (v : Venue.t) (gs : list Z) :
  consistent db →
  is_Some (details_rows db !! Venue.details_id v) →
  (∀ g, g ∈ gs → is_Some (genre_rows db !! g)) →
  consistent
    (with_venue_genres (pairs gs (Query.next_id (venue_rows db)) ∪ venue_genres db)
       (with_venues (<[Query.next_id (venue_rows db) := v]> (venue_rows db)) db)).
Proof.
  rewrite !consistent_lookup.
  cbn [venue_rows artist_rows show_rows genre_rows details_rows artist_genres
       venue_genres with_venue_genres with_venues].
  intros (H1 & H2 & H3 & H4 & H5) Hd Hgs. split; [|split; [|split; [|split]]].
  - intros i v' [[_ <-]|[_ Hv']]%lookup_insert_Some; eauto.
  - done.
  - intros i s Hs. destruct (H3 i s Hs). eauto using insert_keeps_is_Some.
  - done.
  - intros g v' [[Hg Hv']%elem_of_pairs|Hin]%elem_of_union.
    + cbn [fst snd] in *. subst v'. split; [by apply Hgs|].
      rewrite lookup_insert_eq. by eexists.
    + destruct (H5 g v' Hin). eauto using insert_keeps_is_Some.
Qed.

Lemma add_artist_consistent (db : Database) (a : Artist.t) (gs : list Z) :
  consistent db →
  is_Some (details_rows db !! Artist.details_id a) →
  (∀ g, g ∈ gs → is_Some (genre_rows db !! g)) →
  consistent
    (with_artist_genres (pairs gs (Query.next_id (artist_rows db)) ∪ artist_genres db)
       (with_artists (<[Query.next_id (artist_rows db) := a]> (artist_rows db)) db)).
Proof.
  rewrite !consistent_lookup.
  cbn [venue_rows artist_rows show_rows genre_rows details_rows artist_genres
       venue_genres with_artist_genres with_artists].
  intros (H1 & H2 & H3 & H4 & H5) Hd Hgs. split; [|split; [|split; [|split]]].
  - done.
  - intros i a' [[_ <-]|[_ Ha']]%lookup_insert_Some; eauto.
  - intros i s Hs. destruct (H3 i s Hs). eauto using insert_keeps_is_Some.
  - intros g a' [[Hg Ha']%elem_of_pairs|Hin]%elem_of_union.
    + cbn [fst snd] in *. subst a'. split; [by apply Hgs|].
      rewrite lookup_insert_eq. by eexists.
    + destruct (H4 g a' Hin). eauto using insert_keeps_is_Some.
  - done.
Qed.

Lemma add_show_consistent (db : Database) (s : Show.t) :
  consistent db →
  is_Some (artist_rows db !! Show.artist_id s) →
  is_Some (venue_rows db !! Show.venue_id s) →
  consistent (with_shows (<[Query.next_id (show_rows db) := s]> (show_rows db)) db).
Proof.
  rewrite !consistent_lookup.
  cbn [venue_rows artist_rows show_rows genre_rows details_rows artist_genres
       venue_genres with_shows].
  intros (H1 & H2 & H3 & H4 & H5) Ha Hv. split; [|split; [|split]]; try done.
  intros i s' [[_ <-]|[_ Hs]]%lookup_insert_Some; [done|]. by eapply H3.
Qed.

Lemma update_artist_consistent (db : Database) (artist_id : Z) (old a : Artist.t)
    (d : Details.t) (gs : list Z) :
  consistent db →
  artist_rows db !! artist_id = Some old →
  Artist.details_id a = Artist.details_id old →
  (∀ g, g ∈ gs → is_Some (genre_rows db !! g)) →
  consistent
    (with_artist_genres
       (pairs gs artist_id ∪ filter (λ p, p.2 ≠ artist_id) (artist_genres db))
       (with_details (<[Artist.details_id a := d]> (details_rows db))
          (with_artists (<[artist_id := a]> (artist_rows db)) db))).
Proof.
  rewrite !consistent_lookup.
  cbn [venue_rows artist_rows show_rows genre_rows details_rows artist_genres
       venue_genres with_artist_genres with_details with_artists].
  intros (H1 & H2 & H3 & H4 & H5) Hold Hsame Hgs.
  split; [|split; [|split; [|split]]].
  - intros i v Hv. eauto using insert_keeps_is_Some.
  - intros i a' [[_ <-]|[_ Ha']]%lookup_insert_Some.
    + rewrite lookup_insert_eq. by eexists.
    + eauto using insert_keeps_is_Some.
  - intros i s Hs. destruct (H3 i s Hs). eauto using insert_keeps_is_Some.
  - intros g a' [[Hg Ha']%elem_of_pairs|[_ Hin]%elem_of_filter]%elem_of_union.
    + cbn [fst snd] in *. subst a'. split; [by apply Hgs|].
      rewrite lookup_insert_eq. by eexists.
    + destruct (H4 g a' Hin). eauto using insert_keeps_is_Some.
  - done.
Qed.

Lemma update_venue_consistent (db : Database) (venue_id : Z) (old v : Venue.t)
    (d : Details.t) (gs : list Z) :
  consistent db →
  venue_rows db !! venue_id = Some old →
  Venue.details_id v = Venue.details_id old →
  (∀ g, g ∈ gs → is_Some (genre_rows db !! g)) →
  consistent
    (with_venue_genres
       (pairs gs venue_id ∪ filter (λ p, p.2 ≠ venue_id) (venue_genres db))
       (with_details (<[Venue.details_id v := d]> (details_rows db))
          (with_venues (<[venue_id := v]> (venue_rows db)) db))).
Proof.
  rewrite !consistent_lookup.
  cbn [venue_rows artist_rows show_rows genre_rows details_rows artist_genres
       venue_genres with_venue_genres with_details with_venues].
  intros (H1 & H2 & H3 & H4 & H5) Hold Hsame Hgs.
  split; [|split; [|split; [|split]]].
  - intros i v' [[_ <-]|[_ Hv']]%lookup_insert_Some.
    + rewrite lookup_insert_eq. by eexists.
    + eauto using insert_keeps_is_Some.
  - intros i a Ha. eauto using insert_keeps_is_Some.
  - intros i s Hs. destruct (H3 i s Hs). eauto using insert_keeps_is_Some.
  - done.
  - intros g v' [[Hg Hv']%elem_of_pairs|[_ Hin]%elem_of_filter]%elem_of_union.
    + cbn [fst snd] in *. subst v'. split; [by apply Hgs|].
      rewrite lookup_insert_eq. by eexists.
    + destruct (H5 g v' Hin). eauto using insert_keeps_is_Some.
Qed.

Lemma delete_venue_consistent (db : Database) (venue_id : Z) :
  consistent db →
  shows_of_venue db venue_id = [] →
  consistent
    (with_venue_genres (filter (λ p, p.2 ≠ venue_id) (venue_genres db))
       (with_venues (delete venue_id (venue_rows db)) db)).
Proof.
  rewrite !consistent_lookup.
  cbn [venue_rows artist_rows show_rows genre_rows details_rows artist_genres
       venue_genres with_venue_genres with_venues].
  intros (H1 & H2 & H3 & H4 & H5) Hnone.
  pose proof (proj1 (shows_of_venue_nil db venue_id) Hnone) as Hfree.
  split; [|split; [|split; [|split]]].
  - intros i v [_ Hv]%lookup_delete_Some. eauto.
  - done.
  - intros i s Hs. destruct (H3 i s Hs) as [Ha Hv]. split; [done|].
    rewrite lookup_delete_ne; [done|]. intros Heq. by apply (Hfree i s Hs).
  - done.
  - intros g v [Hne Hin]%elem_of_filter. cbn [snd] in Hne.
    destruct (H5 g v Hin). split; [done|]. by rewrite lookup_delete_ne.
Qed.

(** Every handler takes a database that satisfies the schema's constraints
    to one that does. *)
Lemma handle_consistent (star : list string) (db : Database) (r : Request) :
  consistent db → consistent (handle star db r).1.
Proof.
  intros Hdb.
  destruct r as [| | | | |f|i| | | | |i f| |i f| |f| | |now f];
    cbn [handle reading fst]; try done.
  - unfold create_venue_submission.
    destruct (Session.add_details db _) as [e|[[i stored] db1]] eqn:Hadd; [done|].
    apply add_details_inr in Hadd as (_ & _ & ->).
    pose proof (add_details_consistent db i stored Hdb) as Hdb1.
    match goal with |- context [match ?m with inl _ => _ | inr _ => _ end] =>
      destruct m as [e|db2] eqn:Hrest end; [done|].
    apply bind_inr in Hrest as ([] & _ & Hrest).
    apply bind_inr in Hrest as (detail & _ & Hrest).
    apply bind_inr in Hrest as (gs & Hgs & Hrest).
    apply add_venue_inr in Hrest as (Hd & ->).
    apply add_venue_consistent; [done|done|].
    exact (lookup_genres_exist _ _ _ Hgs).
  - unfold delete_venue. destruct (Query.by_id _ _) as [e|venue]; [done|].
    destruct (Session.delete_venue db i) as [e|db1] eqn:Hdel; [done|].
    apply delete_venue_inr in Hdel as (Hnone & ->).
    by apply delete_venue_consistent.
  - unfold edit_artist_submission, Query.by_id_or_none.
    destruct (artist_rows db !! i) as [artist|] eqn:Hartist; [|done].
    destruct (Query.by_id _ _) as [e|detail]; [done|].
    match goal with |- context [match ?m with inl _ => _ | inr _ => _ end] =>
      destruct m as [e|db1] eqn:Hrest end; [done|].
    apply bind_inr in Hrest as (gs & Hgs & Hrest).
    apply update_artist_inr in Hrest as (stored & _ & ->).
    eapply (update_artist_consistent db i artist); [done|done|reflexivity|].
    exact (lookup_genres_exist _ _ _ Hgs).
  - unfold edit_venue_submission, Query.by_id_or_none.
    destruct (venue_rows db !! i) as [venue|] eqn:Hvenue; [|done].
    destruct (Query.by_id _ _) as [e|detail]; [done|].
    match goal with |- context [match ?m with inl _ => _ | inr _ => _ end] =>
      destruct m as [e|db1] eqn:Hrest end; [done|].
    apply bind_inr in Hrest as (gs & Hgs & Hrest).
    apply update_venue_inr in Hrest as (stored & _ & ->).
    eapply (update_venue_consistent db i venue); [done|done|reflexivity|].
    exact (lookup_genres_exist _ _ _ Hgs).
  - unfold create_artist_submission.
    destruct (Session.add_details db _) as [e|[[i stored] db1]] eqn:Hadd; [done|].
    apply add_details_inr in Hadd as (_ & _ & ->).
    pose proof (add_details_consistent db i stored Hdb) as Hdb1.
    match goal with |- context [match ?m with inl _ => _ | inr _ => _ end] =>
      destruct m as [e|db2] eqn:Hrest end; [done|].
    apply bind_inr in Hrest as ([] & _ & Hrest).
    apply bind_inr in Hrest as (detail & _ & Hrest).
    apply bind_inr in Hrest as (gs & Hgs & Hrest).
    apply add_artist_inr in Hrest as (Hd & ->).
    apply add_artist_consistent; [done|done|].
    exact (lookup_genres_exist _ _ _ Hgs).
  - unfold create_show_submission.
    destruct (negb (bound star "datetime")); [done|].
    destruct (ShowForm.start_time f) as [startTime|]; [|done].
    match goal with |- context [match ?m with inl _ => _ | inr _ => _ end] =>
      destruct m as [e|db1] eqn:Hrest end; [done|].
    apply bind_inr in Hrest as (artist_id & _ & Hrest).
    apply bind_inr in Hrest as (venue_id & _ & Hrest).
    apply add_show_inr in Hrest as (Ha & Hv & ->).
    by apply add_show_consistent.
Qed.

(** X15: the foreign keys of the schema keep resolving: from a database in
    which every venue and artist has its [Details] row, every show its
    artist and venue, and every association its genre and entity, any
    sequence of requests leads to such a database. *)
Lemma serve_consistent (star : list string) (requests : list Request)
    (db : Database) :
  consistent db → consistent (serve star db requests).
Proof.
  revert db. induction requests as [|r requests IH]; intros db Hdb; [done|].
  cbn [serve]. apply IH. by apply handle_consistent.
Qed.

(** ** When an edit succeeds *)

Lemma NoDup_single {A : Type} (l : list A) (a : A) :
  NoDup l → (∀ x, x ∈ l ↔ x = a) → l = [a].
Proof.
  intros Hnodup Hall. destruct l as [|x l].
  - pose proof (proj2 (Hall a) eq_refl) as Hin. by apply elem_of_nil in Hin.
  - assert (x = a) as -> by (apply Hall; left).
    destruct l as [|y l]; [reflexivity|]. exfalso.
    assert (y = a) as -> by (apply Hall; right; left).
    apply NoDup_cons in Hnodup as [Hnotin _]. apply Hnotin. left.
Qed.

Lemma lookup_genres_total (db : Database) (names : list string) :
  Forall (λ n, ∃ g, names_genre db n g) names →
  Forall (λ n, Driver.nul_free n = true) names →
  ∃ gs, lookup_genres db names = inr gs.
Proof.
  induction 1 as [|n names [g [(r & Hr & Hname) Huniq]] _ IH];
    intros Hnul.
  - by exists [].
  - apply Forall_cons in Hnul as [Hfree Hnul]. destruct (IH Hnul) as [gs IHgs].
    exists (g :: gs). cbn [lookup_genres].
    rewrite adapt_ok by (repeat constructor; by intros ? [= <-]).
    cbn [mbind result_bind]. unfold Query.genres_named.
    rewrite (NoDup_single _ (g, r)).
    + cbn [Query.one mbind result_bind mret result_ret]. by rewrite IHgs.
    + apply NoDup_filter, NoDup_map_to_list.
    + intros [g' r']. rewrite list_elem_of_filter. unfold Query.all.
      rewrite elem_of_map_to_list. cbn [snd]. split.
      * intros [Hn Hg']. pose proof (Huniq g' r' Hg' Hn) as ->. congruence.
      * intros [= -> ->]. done.
Qed.

(** X17: the edit of an artist that exists succeeds, with the redirect to
    the artist's page, when every submitted genre name is borne by exactly
    one genre, no submitted value contains NUL, and the submitted values
    and the image link the artist has fit their columns. *)
Lemma edit_artist_succeeds (db : Database) (artist_id : Z) (form : ArtistForm.t)
    (artist : Artist.t) (detail : Details.t) :
  artist_rows db !! artist_id = Some artist →
  details_rows db !! Artist.details_id artist = Some detail →
  genres_known db (ArtistForm.genres form) →
  artist_sendable form →
  (PyStr.len (PyStr.strip (ArtistForm.city form)) ≤ 120)%nat →
  (PyStr.len (PyStr.strip (ArtistForm.state form)) ≤ 120)%nat →
  (PyStr.len (ArtistForm.phone form) ≤ 120)%nat →
  (PyStr.len (PyStr.strip (ArtistForm.facebook_link form)) ≤ 120)%nat →
  Column.varchar 500 (Details.image_link detail) = inr (Details.image_link detail) →
  (edit_artist_submission db artist_id form).2
  = mkReply [] (inr (redirect "show_artist" [("artist_id", PInt artist_id)])).
Proof.
  intros Hartist Hdetail Hnames Hsend Hc Hs Hp Hf Himg.
  apply Forall_cons in Hsend as [Hn Hsend].
  apply Forall_cons in Hsend as [Hnc Hsend].
  apply Forall_cons in Hsend as [Hns Hsend].
  apply Forall_cons in Hsend as [Hnp Hsend].
  apply Forall_cons in Hsend as [Hnf Hsend].
  unfold edit_artist_submission, Query.by_id_or_none, Query.by_id.
  rewrite Hartist. cbn [Artist.details_id]. rewrite Hdetail.
  destruct (lookup_genres_total db _ Hnames Hsend) as [gs ->].
  cbn [mbind result_bind mret result_ret].
  unfold Session.update_artist.
  cbn [Artist.name Details.city Details.state Details.phone Details.facebook_link].
  rewrite adapt_ok
    by (repeat constructor; intros ? [= <-]; auto using nul_free_strip).
  cbn [mbind result_bind]. unfold Column.details.
  cbn [Details.city Details.state Details.phone Details.image_link
       Details.facebook_link Details.address Details.website].
  rewrite (varchar_fits_chars _ _ Hc). cbn [mbind result_bind].
  rewrite (varchar_fits_chars _ _ Hs). cbn [mbind result_bind].
  rewrite (varchar_fits_chars _ _ Hp). cbn [mbind result_bind].
  rewrite Himg. cbn [mbind result_bind].
  rewrite (varchar_fits_chars _ _ Hf). reflexivity.
Qed.

(** ** Names *)

(** The handlers never store a venue or an artist without a name: when every
    row has one, so has every row after any request. *)
Lemma handle_named (star : list string) (db : Database) (r : Request) :
  named db → named (handle star db r).1.
Proof.
  intros [Hv Ha].
  destruct r as [| | | | |f|i| | | | |i f| |i f| |f| | |now f];
    cbn [handle reading fst]; try done.
  - unfold create_venue_submission.
    destruct (Session.add_details db _) as [e|[[i stored] db1]] eqn:Hadd; [done|].
    apply add_details_inr in Hadd as (_ & _ & ->).
    match goal with |- context [match ?m with inl _ => _ | inr _ => _ end] =>
      destruct m as [e|db2] eqn:Hrest end; [done|].
    apply bind_inr in Hrest as ([] & _ & Hrest).
    apply bind_inr in Hrest as (detail & _ & Hrest).
    apply bind_inr in Hrest as (gs & _ & Hrest).
    apply add_venue_inr in Hrest as (_ & ->).
    split; [|done]. cbn. apply map_Forall_insert_2; [by eexists|done].
  - unfold delete_venue. destruct (Query.by_id _ _) as [e|venue]; [done|].
    destruct (Session.delete_venue db i) as [e|db1] eqn:Hdel; [done|].
    apply delete_venue_inr in Hdel as (_ & ->).
    split; [|done]. cbn. by apply map_Forall_delete.
  - unfold edit_artist_submission, Query.by_id_or_none.
    destruct (artist_rows db !! i) as [artist|]; [|done].
    destruct (Query.by_id _ _) as [e|detail]; [done|].
    match goal with |- context [match ?m with inl _ => _ | inr _ => _ end] =>
      destruct m as [e|db1] eqn:Hrest end; [done|].
    apply bind_inr in Hrest as (gs & _ & Hrest).
    apply update_artist_inr in Hrest as (stored & _ & ->).
    split; [done|]. cbn. apply map_Forall_insert_2; [by eexists|done].
  - unfold edit_venue_submission, Query.by_id_or_none.
    destruct (venue_rows db !! i) as [venue|]; [|done].
    destruct (Query.by_id _ _) as [e|detail]; [done|].
    match goal with |- context [match ?m with inl _ => _ | inr _ => _ end] =>
      destruct m as [e|db1] eqn:Hrest end; [done|].
    apply bind_inr in Hrest as (gs & _ & Hrest).
    apply update_venue_inr in Hrest as (stored & _ & ->).
    split; [|done]. cbn. apply map_Forall_insert_2; [by eexists|done].
  - unfold create_artist_submission.
    destruct (Session.add_details db _) as [e|[[i stored] db1]] eqn:Hadd; [done|].
    apply add_details_inr in Hadd as (_ & _ & ->).
    match goal with |- context [match ?m with inl _ => _ | inr _ => _ end] =>
      destruct m as [e|db2] eqn:Hrest end; [done|].
    apply bind_inr in Hrest as ([] & _ & Hrest).
    apply bind_inr in Hrest as (detail & _ & Hrest).
    apply bind_inr in Hrest as (gs & _ & Hrest).
    apply add_artist_inr in Hrest as (_ & ->).
    split; [done|]. cbn. apply map_Forall_insert_2; [by eexists|done].
  - unfold create_show_submission.
    destruct (negb (bound star "datetime")); [done|].
    destruct (ShowForm.start_time f) as [startTime|]; [|done].
    match goal with |- context [match ?m with inl _ => _ | inr _ => _ end] =>
      destruct m as [e|db1] eqn:Hrest end; [done|].
    apply bind_inr in Hrest as (artist_id & _ & Hrest).
    apply bind_inr in Hrest as (venue_id & _ & Hrest).
    apply add_show_inr in Hrest as (_ & _ & ->). done.
Qed.

(** X16: no request stores a venue or an artist without a name: when every
    venue and artist has one, every venue and artist has one after any
    sequence of requests. *)
Lemma serve_named (star : list string) (requests : list Request) (db : Database) :
  named db → named (serve star db requests).
Proof.
  revert db. induction requests as [|r requests IH]; intros db Hdb; [done|].
  cbn [serve]. apply IH. by apply handle_named.
Qed.

(** * Further properties of the handlers *)

(** ** Stripped values *)

(** What [strip] returns neither begins nor ends with whitespace. *)
Lemma strip_trimmed (s : string) : trimmed (Some (PyStr.strip s)) = true.
Proof.
  unfold trimmed, PyStr.strip. rewrite list_ascii_of_string_of_list_ascii.
  set (a := PyStr.lstrip_chars (list_ascii_of_string s)).
  unfold PyStr.rstrip_chars. rewrite rev_involutive, skip_space_starts.
  rewrite andb_true_r. apply negb_true_iff.
  destruct (skip_space_suffix true (rev a)) as [ws Hws].
  apply (starts_space_prefix false _ (rev ws)).
  rewrite <- rev_app_distr, <- Hws, rev_involutive.
  apply skip_space_starts.
Qed.

(** ** What a writing handler can do to the database *)

Lemma create_venue_submission_cases (db : Database) (form : VenueForm.t) :
  let after := (create_venue_submission db form).1 in
  after = db
  ∨ (∃ stored,
       after = with_details (<[Query.next_id (details_rows db) := stored]>
                               (details_rows db)) db)
  ∨ (∃ stored details_id gs,
       let db1 := with_details (<[Query.next_id (details_rows db) := stored]>
                                  (details_rows db)) db in
       after
       = with_venue_genres (pairs gs (Query.next_id (venue_rows db)) ∪ venue_genres db)
           (with_venues
              (<[Query.next_id (venue_rows db) :=
                   Venue.mk details_id (Some (PyStr.strip (VenueForm.name form)))
                            false None]> (venue_rows db)) db1)).
Proof.
  unfold create_venue_submission.
  destruct (Session.add_details db _) as [e|[[i stored] db1]] eqn:Hadd;
    [by left|].
  apply add_details_inr in Hadd as (-> & _ & ->).
  match goal with |- context [match ?m with inl _ => _ | inr _ => _ end] =>
    destruct m as [e|db2] eqn:Hrest end; [right; left; by exists stored|].
  apply bind_inr in Hrest as ([] & _ & Hrest).
  apply bind_inr in Hrest as (detail & _ & Hrest).
  apply bind_inr in Hrest as (gs & _ & Hrest).
  apply add_venue_inr in Hrest as (_ & ->).
  right; right. by exists stored, detail.1, gs.
Qed.

Lemma create_artist_submission_cases (db : Database) (form : ArtistForm.t) :
  let after := (create_artist_submission db form).1 in
  after = db
  ∨ (∃ stored,
       after = with_details (<[Query.next_id (details_rows db) := stored]>
                               (details_rows db)) db)
  ∨ (∃ stored details_id gs,
       let db1 := with_details (<[Query.next_id (details_rows db) := stored]>
                                  (details_rows db)) db in
       after
       = with_artist_genres
           (pairs gs (Query.next_id (artist_rows db)) ∪ artist_genres db)
           (with_artists
              (<[Query.next_id (artist_rows db) :=
                   Artist.mk details_id (Some (PyStr.strip (ArtistForm.name form)))
                             false None]> (artist_rows db)) db1)).
Proof.
  unfold create_artist_submission.
  destruct (Session.add_details db _) as [e|[[i stored] db1]] eqn:Hadd;
    [by left|].
  apply add_details_inr in Hadd as (-> & _ & ->).
  match goal with |- context [match ?m with inl _ => _ | inr _ => _ end] =>
    destruct m as [e|db2] eqn:Hrest end; [right; left; by exists stored|].
  apply bind_inr in Hrest as ([] & _ & Hrest).
  apply bind_inr in Hrest as (detail & _ & Hrest).
  apply bind_inr in Hrest as (gs & _ & Hrest).
  apply add_artist_inr in Hrest as (_ & ->).
  right; right. by exists stored, detail.1, gs.
Qed.

Lemma delete_venue_cases (star : list string) (db : Database) (venue_id : Z) :
  let after := (delete_venue star db venue_id).1 in
  after = db
  ∨ after = with_venue_genres (filter (λ p, p.2 ≠ venue_id) (venue_genres db))
              (with_venues (delete venue_id (venue_rows db)) db).
Proof.
  unfold delete_venue. destruct (Query.by_id _ _) as [e|venue]; [by left|].
  destruct (Session.delete_venue db venue_id) as [e|db1] eqn:Hdel; [by left|].
  apply delete_venue_inr in Hdel as (_ & ->). by right.
Qed.

Lemma edit_artist_submission_cases (db : Database) (artist_id : Z)
    (form : ArtistForm.t) :
  let after := (edit_artist_submission db artist_id form).1 in
  after = db
  ∨ ∃ old stored gs,
      artist_rows db !! artist_id = Some old
      ∧ is_Some (details_rows db !! Artist.details_id old)
      ∧ after
        = with_artist_genres
            (pairs gs artist_id ∪ filter (λ p, p.2 ≠ artist_id) (artist_genres db))
            (with_details (<[Artist.details_id old := stored]> (details_rows db))
               (with_artists
                  (<[artist_id :=
                       Artist.mk (Artist.details_id old)
                                 (Some (PyStr.strip (ArtistForm.name form)))
                                 (Artist.seeking_venue old)
                                 (Artist.seeking_text old)]> (artist_rows db)) db)).
Proof.
  unfold edit_artist_submission, Query.by_id_or_none, Query.by_id.
  destruct (artist_rows db !! artist_id) as [old|] eqn:Hold; [|by left].
  destruct (details_rows db !! Artist.details_id old) as [detail|] eqn:Hdetail;
    [|by left].
  cbn [mret result_ret].
  match goal with |- context [match ?m with inl _ => _ | inr _ => _ end] =>
    destruct m as [e|db1] eqn:Hrest end; [by left|].
  apply bind_inr in Hrest as (gs & _ & Hrest).
  apply update_artist_inr in Hrest as (stored & _ & ->).
  right. exists old, stored, gs. split; [done|]. split; [by eexists|done].
Qed.

Lemma edit_venue_submission_cases (db : Database) (venue_id : Z)
    (form : VenueForm.t) :
  let after := (edit_venue_submission db venue_id form).1 in
  after = db
  ∨ ∃ old stored gs,
      venue_rows db !! venue_id = Some old
      ∧ is_Some (details_rows db !! Venue.details_id old)
      ∧ after
        = with_venue_genres
            (pairs gs venue_id ∪ filter (λ p, p.2 ≠ venue_id) (venue_genres db))
            (with_details (<[Venue.details_id old := stored]> (details_rows db))
               (with_venues
                  (<[venue_id :=
                       Venue.mk (Venue.details_id old)
                                (Some (PyStr.strip (VenueForm.name form)))
                                (Venue.seeking_talent old)
                                (Venue.seeking_text old)]> (venue_rows db)) db)).
Proof.
  unfold edit_venue_submission, Query.by_id_or_none, Query.by_id.
  destruct (venue_rows db !! venue_id) as [old|] eqn:Hold; [|by left].
  destruct (details_rows db !! Venue.details_id old) as [detail|] eqn:Hdetail;
    [|by left].
  cbn [mret result_ret].
  match goal with |- context [match ?m with inl _ => _ | inr _ => _ end] =>
    destruct m as [e|db1] eqn:Hrest end; [by left|].
  apply bind_inr in Hrest as (gs & _ & Hrest).
  apply update_venue_inr in Hrest as (stored & _ & ->).
  right. exists old, stored, gs. split; [done|]. split; [by eexists|done].
Qed.

Lemma create_show_submission_cases (star : list string) (now : DateTime.t)
    (db : Database) (form : ShowForm.t) :
  let after := (create_show_submission star now db form).1 in
  after = db
  ∨ ∃ s, after = with_shows (<[Query.next_id (show_rows db) := s]> (show_rows db)) db.
Proof.
  unfold create_show_submission.
  destruct (negb (bound star "datetime")); [by left|].
  destruct (ShowForm.start_time form) as [startTime|]; [|by left].
  match goal with |- context [match ?m with inl _ => _ | inr _ => _ end] =>
    destruct m as [e|db1] eqn:Hrest end; [by left|].
  apply bind_inr in Hrest as (artist_id & _ & Hrest).
  apply bind_inr in Hrest as (venue_id & _ & Hrest).
  apply add_show_inr in Hrest as (_ & _ & ->). right. by eexists.
Qed.

Lemma handle_names_trimmed (star : list string) (db : Database) (r : Request) :
  names_trimmed db → names_trimmed (handle star db r).1.
Proof.
  intros [Hv Ha].
  destruct r as [| | | | |f|i| | | | |i f| |i f| |f| | |now f];
    cbn [handle reading fst]; try done.
  - destruct (create_venue_submission_cases db f)
      as [->|[[stored ->]|(stored & did & gs & ->)]]; try done.
    split; [|done]. cbn. apply map_Forall_insert_2; [|done]. apply strip_trimmed.
  - destruct (delete_venue_cases star db i) as [->| ->]; [done|].
    split; [|done]. cbn. by apply map_Forall_delete.
  - destruct (edit_artist_submission_cases db i f)
      as [->|(old & stored & gs & _ & _ & ->)]; [done|].
    split; [done|]. cbn. apply map_Forall_insert_2; [|done]. apply strip_trimmed.
  - destruct (edit_venue_submission_cases db i f)
      as [->|(old & stored & gs & _ & _ & ->)]; [done|].
    split; [|done]. cbn. apply map_Forall_insert_2; [|done]. apply strip_trimmed.
  - destruct (create_artist_submission_cases db f)
      as [->|[[stored ->]|(stored & did & gs & ->)]]; try done.
    split; [done|]. cbn. apply map_Forall_insert_2; [|done]. apply strip_trimmed.
  - destruct (create_show_submission_cases star now db f) as [->|[s ->]]; done.
Qed.

(** X1: no request stores a venue or artist name that begins or ends with
    whitespace: when the names in the database are free of it, they are
    after any sequence of requests. *)
Theorem serve_names_trimmed (star : list string) (requests : list Request)
    (db : Database) :
  names_trimmed db → names_trimmed (serve star db requests).
Proof.
  revert db. induction requests as [|r requests IH]; intros db Hdb; [done|].
  cbn [serve]. apply IH. by apply handle_names_trimmed.
Qed.

Lemma serve_names_trimmed_witness :
  names_trimmed
    (serve ["datetime"; "jsonify"] sample
       [POST_venues_create polka_venue; POST_artist_edit 1 to_blues]).
Proof.
  apply serve_names_trimmed.
  split; apply (bool_decide_unpack _); vm_compute; exact I.
Defined.

(** ** Rows that stay *)

Lemma handle_keeps_rows (star : list string) (db : Database) (r : Request) :
  genre_rows (handle star db r).1 = genre_rows db
  ∧ (∀ i, is_Some (details_rows db !! i) →
          is_Some (details_rows (handle star db r).1 !! i))
  ∧ (∀ i, is_Some (artist_rows db !! i) →
          is_Some (artist_rows (handle star db r).1 !! i))
  ∧ (∀ i v, venue_rows db !! i = Some v →
            is_Some (venue_rows (handle star db r).1 !! i)
            ∨ r = DELETE_venue i).
Proof.
  destruct r as [| | | | |f|i| | | | |i f| |i f| |f| | |now f];
    cbn [handle reading fst]; try (by repeat split; eauto).
  - destruct (create_venue_submission_cases db f)
      as [->|[[stored ->]|(stored & did & gs & ->)]]; cbn;
      repeat split; eauto using insert_keeps_is_Some.
  - destruct (delete_venue_cases star db i) as [->| ->]; cbn;
      repeat split; eauto.
    intros j v Hv. destruct (decide (j = i)) as [->|Hne]; [by right|].
    left. rewrite lookup_delete_ne; [by eexists|done].
  - destruct (edit_artist_submission_cases db i f)
      as [->|(old & stored & gs & _ & _ & ->)]; cbn;
      repeat split; eauto using insert_keeps_is_Some.
  - destruct (edit_venue_submission_cases db i f)
      as [->|(old & stored & gs & _ & _ & ->)]; cbn;
      repeat split; eauto using insert_keeps_is_Some.
  - destruct (create_artist_submission_cases db f)
      as [->|[[stored ->]|(stored & did & gs & ->)]]; cbn;
      repeat split; eauto using insert_keeps_is_Some.
  - destruct (create_show_submission_cases star now db f) as [->|[s ->]]; cbn;
      repeat split; eauto.
Qed.

(** X2: no sequence of requests changes the [Genre] table or removes a row
    of [Details] or of [Artist]; a [Details] row outlives the venue it was
    created for. *)
Theorem serve_keeps_rows (star : list string) (requests : list Request)
    (db : Database) :
  genre_rows (serve star db requests) = genre_rows db
  ∧ (∀ i, is_Some (details_rows db !! i) →
          is_Some (details_rows (serve star db requests) !! i))
  ∧ (∀ i, is_Some (artist_rows db !! i) →
          is_Some (artist_rows (serve star db requests) !! i)).
Proof.
  revert db. induction requests as [|r requests IH]; intros db; [done|].
  cbn [serve]. destruct (IH (handle star db r).1) as (Hg & Hd & Ha).
  destruct (handle_keeps_rows star db r) as (Hg' & Hd' & Ha' & _).
  split; [congruence|]. split; eauto.
Qed.

Lemma serve_keeps_rows_witness :
  is_Some (details_rows (serve ["jsonify"] unnamed [DELETE_venue 1; GET_venues]) !! 1)
  ∧ is_Some (artist_rows (serve ["jsonify"] unnamed [DELETE_venue 1; GET_venues]) !! 1).
Proof.
  split.
  - apply (proj1 (proj2 (serve_keeps_rows ["jsonify"] [DELETE_venue 1; GET_venues]
                           unnamed)) 1).
    by eexists.
  - apply (proj2 (proj2 (serve_keeps_rows ["jsonify"] [DELETE_venue 1; GET_venues]
                           unnamed)) 1).
    by eexists.
Defined.

(** The venue of [unnamed] is deleted; its [Details] row is still there. *)
Example details_outlive_venue :
  size (venue_rows (serve ["jsonify"] unnamed [DELETE_venue 1])) = 0%nat
  ∧ size (details_rows (serve ["jsonify"] unnamed [DELETE_venue 1])) = 1%nat.
Proof. split; vm_compute; reflexivity. Qed.

(** ** Search with any term *)

(** A pattern that ends in [%] is well formed, whatever comes before. *)
Lemma parse_percent_last (t : list ascii) :
  is_Some (Like.parse (t ++ ["%"%char]))
  ∧ ∀ c, is_Some (Like.parse (c :: t ++ ["%"%char])).
Proof.
  assert (∀ (k : Like.tok) o, is_Some o → is_Some (cons k <$> o)) as Hcons.
  { intros k o [x ->]. by eexists. }
  induction t as [|a t [IH1 IH2]].
  - split; [by eexists|]. intros c. cbn [app Like.parse].
    destruct (Ascii.eqb c "\"); [by eexists|].
    destruct (Ascii.eqb c "%"); [by eexists|].
    destruct (Ascii.eqb c "_"); by eexists.
  - split; [apply IH2|]. intros c. cbn [app]. cbn [Like.parse].
    destruct (Ascii.eqb c "\"); [by apply Hcons|].
    destruct (Ascii.eqb c "%"); [apply Hcons, IH2|].
    destruct (Ascii.eqb c "_"); apply Hcons, IH2.
Qed.

Lemma parse_search_total (search : string) :
  is_Some (Like.parse (list_ascii_of_string ("%" +:+ search +:+ "%"))).
Proof.
  rewrite !list_ascii_of_string_append.
  apply (proj2 (parse_percent_last (list_ascii_of_string search)) "%"%char).
Qed.

(** X3: a search fails in one case only: a term with the character NUL is
    answered with status 500.  Any other term is answered with the page of
    the stripped term, and what the page lists are rows of the table that
    have a name, each at most once, counted. *)
Theorem search_fails_on_nul_only (db : Database) (search_term : option string) :
  let term := PyStr.strip (default "" search_term) in
  (Driver.nul_free term = true →
   (∃ found : list (Z * Venue.t),
      search_venues db search_term
      = inr (search_response "pages/search_venues.html"
               ((λ r, summary r.1 (Venue.name r.2)) <$> found) (length found) term)
      ∧ NoDup found
      ∧ (∀ i v, (i, v) ∈ found →
                venue_rows db !! i = Some v ∧ is_Some (Venue.name v))
      ∧ (length found ≤ size (venue_rows db))%nat)
   ∧ (∃ found : list (Z * Artist.t),
        search_artists db search_term
        = inr (search_response "pages/search_artists.html"
                 ((λ r, summary r.1 (Artist.name r.2)) <$> found) (length found)
                 term)
        ∧ NoDup found
        ∧ (∀ i a, (i, a) ∈ found →
                  artist_rows db !! i = Some a ∧ is_Some (Artist.name a))
        ∧ (length found ≤ size (artist_rows db))%nat))
  ∧ (Driver.nul_free term = false →
     search_venues db search_term = inl ValueError
     ∧ status (search_venues db search_term) = 500
     ∧ search_artists db search_term = inl ValueError
     ∧ status (search_artists db search_term) = 500).
Proof.
  intros term. split; intros Hnul.
  - split.
    + unfold search_venues. fold term. rewrite adapt_pattern, Hnul.
      cbn [mbind result_bind].
      destruct (parse_search_total term) as [pattern ->].
      eexists. split; [reflexivity|]. split; [|split].
      * apply NoDup_filter, NoDup_map_to_list.
      * intros i v [Hname Hin]%list_elem_of_filter. cbn [snd] in Hname.
        apply elem_of_map_to_list in Hin. split; [done|].
        destruct (Venue.name v); [by eexists|done].
      * rewrite <- length_map_to_list. apply length_filter.
    + unfold search_artists. fold term. rewrite adapt_pattern, Hnul.
      cbn [mbind result_bind].
      destruct (parse_search_total term) as [pattern ->].
      eexists. split; [reflexivity|]. split; [|split].
      * apply NoDup_filter, NoDup_map_to_list.
      * intros i a [Hname Hin]%list_elem_of_filter. cbn [snd] in Hname.
        apply elem_of_map_to_list in Hin. split; [done|].
        destruct (Artist.name a); [by eexists|done].
      * rewrite <- length_map_to_list. apply length_filter.
  - unfold search_venues, search_artists. fold term.
    rewrite adapt_pattern, Hnul. done.
Qed.

Lemma search_fails_on_nul_only_witness :
  ((∃ found : list (Z * Venue.t),
      search_venues sample (Some " \_% ")
      = inr (search_response "pages/search_venues.html"
               ((λ r, summary r.1 (Venue.name r.2)) <$> found) (length found)
               "\_%")
      ∧ NoDup found
      ∧ (∀ i v, (i, v) ∈ found →
                venue_rows sample !! i = Some v ∧ is_Some (Venue.name v))
      ∧ (length found ≤ size (venue_rows sample))%nat)
   ∧ (∃ found : list (Z * Artist.t),
        search_artists sample (Some " \_% ")
        = inr (search_response "pages/search_artists.html"
                 ((λ r, summary r.1 (Artist.name r.2)) <$> found) (length found)
                 "\_%")
        ∧ NoDup found
        ∧ (∀ i a, (i, a) ∈ found →
                  artist_rows sample !! i = Some a ∧ is_Some (Artist.name a))
        ∧ (length found ≤ size (artist_rows sample))%nat))
  ∧ (search_venues sample (Some (String "000" "Hop")) = inl ValueError
     ∧ status (search_venues sample (Some (String "000" "Hop"))) = 500
     ∧ search_artists sample (Some (String "000" "Hop")) = inl ValueError
     ∧ status (search_artists sample (Some (String "000" "Hop"))) = 500).
Proof.
  split.
  - apply (proj1 (search_fails_on_nul_only sample (Some " \_% "))). reflexivity.
  - apply (proj2 (search_fails_on_nul_only sample (Some (String "000" "Hop")))).
    reflexivity.
Defined.

(** ** Creating a venue that is accepted *)

Lemma one_of_two {A : Type} (l : list A) (x y : A) :
  x ≠ y → x ∈ l → y ∈ l → Query.one l = raise MultipleResultsFound.
Proof.
  intros Hne Hx Hy. destruct l as [|a [|b l]]; [|exfalso|reflexivity].
  - by apply elem_of_nil in Hx.
  - apply list_elem_of_singleton in Hx, Hy. congruence.
Qed.

Lemma details_fit (form : VenueForm.t) :
  fits_columns form →
  Column.details (submitted_details form) = inr (submitted_details form).
Proof.
  intros (Hc & Hs & Hp & Hf). unfold Column.details, submitted_details.
  cbn [Details.city Details.state Details.phone Details.image_link
       Details.facebook_link Details.address Details.website].
  rewrite (varchar_fits_chars _ _ Hc). cbn [mbind result_bind].
  rewrite (varchar_fits_chars _ _ Hs). cbn [mbind result_bind].
  rewrite (varchar_fits_chars _ _ Hp). cbn [mbind result_bind].
  change (Column.varchar 500 None) with (@inr exn (option string) None).
  cbn [mbind result_bind].
  rewrite (varchar_fits_chars _ _ Hf). reflexivity.
Qed.

Lemma genres_known_total (db : Database) (names : list string) :
  genres_known db names →
  Forall (λ n, Driver.nul_free n = true) names →
  ∃ gs, lookup_genres db names = inr gs ∧ Forall2 (names_genre db) names gs.
Proof.
  intros Hknown Hnul. destruct (lookup_genres_total db names Hknown Hnul) as [gs Hgs].
  exists gs. split; [done|]. by apply lookup_genres_spec.
Qed.

Lemma lookup_genres_ext (db db' : Database) (names : list string) :
  genre_rows db = genre_rows db' →
  lookup_genres db names = lookup_genres db' names.
Proof.
  intros Hsame. induction names as [|n names IH]; [done|].
  cbn [lookup_genres]. unfold Query.genres_named. by rewrite Hsame, IH.
Qed.

(** The database and the reply of a venue submission that is accepted. *)
Lemma create_venue_submission_ok (db : Database) (form : VenueForm.t) :
  genres_known db (VenueForm.genres form) →
  fits_columns form →
  venue_sendable form →
  link_unused db (PyStr.strip (VenueForm.facebook_link form)) →
  ∃ gs,
    Forall2 (names_genre db) (VenueForm.genres form) gs
    ∧ create_venue_submission db form
      = (with_venue_genres (pairs gs (Query.next_id (venue_rows db)) ∪ venue_genres db)
           (with_venues
              (<[Query.next_id (venue_rows db) :=
                   submitted_venue (Query.next_id (details_rows db)) form]>
                 (venue_rows db))
              (with_details
                 (<[Query.next_id (details_rows db) := submitted_details form]>
                    (details_rows db)) db)),
         mkReply ["Venue " +:+ VenueForm.name form +:+ " was successfully listed!"]
                 (inr (render_template "pages/home.html" []))).
Proof.
  intros Hknown Hfits Hsend Hunused.
  apply Forall_cons in Hsend as [Hn Hsend].
  do 4 apply Forall_cons in Hsend as [_ Hsend].
  apply Forall_cons in Hsend as [Hnf Hsend].
  destruct (genres_known_total db _ Hknown Hsend) as (gs & Hgs & Hnames).
  exists gs. split; [exact Hnames|].
  unfold create_venue_submission, Session.add_details.
  fold (submitted_details form). rewrite (details_fit form Hfits).
  cbn [mbind result_bind mret result_ret].
  set (did := Query.next_id (details_rows db)).
  set (db1 := with_details _ db).
  rewrite adapt_ok
    by (repeat constructor; intros ? [= <-]; by apply nul_free_strip).
  cbn [mbind result_bind].
  assert (Query.details_linked db1 (Details.facebook_link (submitted_details form))
          = [(did, submitted_details form)]) as ->.
  { apply NoDup_single.
    - apply NoDup_filter, NoDup_map_to_list.
    - intros [i d]. unfold Query.details_linked, Query.all.
      rewrite list_elem_of_filter, elem_of_map_to_list. cbn [snd].
      subst db1. cbn [details_rows with_details]. rewrite lookup_insert_Some.
      split.
      + intros [Hlink [[<- <-]|[_ Hd]]]; [done|].
        destruct (Hunused i d Hd). exact Hlink.
      + intros [= -> ->]. split; [done|]. by left. }
  cbn [Query.one mbind result_bind mret result_ret fst].
  rewrite (lookup_genres_ext db1 db) by done.
  rewrite Hgs. cbn [mbind result_bind]. unfold Session.add_venue.
  cbn [Venue.name Venue.seeking_text].
  rewrite adapt_ok
    by (repeat constructor; intros ? [= <-]; by apply nul_free_strip).
  cbn [mbind result_bind Venue.details_id]. subst db1.
  cbn [details_rows with_details].
  rewrite lookup_insert_eq. reflexivity.
Qed.

Lemma names_genre_intro (db : Database) (n : string) (g : Z) :
  genre_rows db !! g = Some (Genre.mk (Some n)) →
  map_Forall (λ g' r', Genre.name r' = Some n → g' = g) (genre_rows db) →
  ∃ g, names_genre db n g.
Proof.
  intros Hg Huniq. exists g. split; [by eexists|].
  intros g' r' Hg'. exact (Huniq g' r' Hg').
Qed.

Lemma sample_knows_jazz : ∃ g, names_genre sample "Jazz" g.
Proof.
  apply (names_genre_intro sample "Jazz" 1); [reflexivity|].
  apply (bool_decide_unpack _). vm_compute. exact I.
Qed.

Lemma sample_knows_blues : ∃ g, names_genre sample "Blues" g.
Proof.
  apply (names_genre_intro sample "Blues" 2); [reflexivity|].
  apply (bool_decide_unpack _). vm_compute. exact I.
Qed.

Lemma jazz_venue_known : genres_known sample (VenueForm.genres jazz_venue).
Proof.
  repeat constructor; [apply sample_knows_jazz|apply sample_knows_blues
                      |apply sample_knows_jazz].
Qed.

Lemma fresh_venue_unreferenced (db : Database) :
  consistent db →
  (∀ g, (g, Query.next_id (venue_rows db)) ∉ venue_genres db)
  ∧ (∀ i s, show_rows db !! i = Some s →
            Show.venue_id s ≠ Query.next_id (venue_rows db)).
Proof.
  intros (_ & _ & Hshows & _ & Hvg)%consistent_lookup.
  pose proof (next_id_fresh (venue_rows db)) as Hfresh. split.
  - intros g Hin. destruct (Hvg _ _ Hin) as [_ [v Hv]]. congruence.
  - intros i s Hs Heq. destruct (Hshows _ _ Hs) as [_ [v Hv]]. congruence.
Qed.

(** X5: a venue submission whose genre names are each the name of exactly
    one genre, whose values are free of NUL and fit their columns, and
    whose facebook link no [Details] row has yet, is accepted: one
    [Details] row and one [Venue] row are added under ids that were not in
    use, holding the stripped values, the venue is associated with exactly
    the submitted genres, and no other association changes. *)
Theorem create_venue_accepted (db : Database) (form : VenueForm.t) :
  consistent db →
  genres_known db (VenueForm.genres form) →
  fits_columns form →
  venue_sendable form →
  link_unused db (PyStr.strip (VenueForm.facebook_link form)) →
  let after := create_venue_submission db form in
  after.2
  = mkReply ["Venue " +:+ VenueForm.name form +:+ " was successfully listed!"]
            (inr (render_template "pages/home.html" []))
  ∧ ∃ id details_id,
      venue_rows db !! id = None
      ∧ details_rows db !! details_id = None
      ∧ venue_rows after.1
        = <[id := submitted_venue details_id form]> (venue_rows db)
      ∧ details_rows after.1
        = <[details_id := submitted_details form]> (details_rows db)
      ∧ size (venue_rows after.1) = S (size (venue_rows db))
      ∧ size (details_rows after.1) = S (size (details_rows db))
      ∧ (∀ g, (g, id) ∈ venue_genres after.1
              ↔ ∃ n, n ∈ VenueForm.genres form ∧ names_genre db n g)
      ∧ (∀ g v, v ≠ id → (g, v) ∈ venue_genres after.1 ↔ (g, v) ∈ venue_genres db).
Proof.
  intros Hdb Hknown Hfits Hsend Hunused after. subst after.
  destruct (create_venue_submission_ok db form Hknown Hfits Hsend Hunused)
    as (gs & Hnames & ->).
  destruct (fresh_venue_unreferenced db Hdb) as [Hfresh _].
  cbn [fst snd]. split; [reflexivity|].
  exists (Query.next_id (venue_rows db)), (Query.next_id (details_rows db)).
  cbn [venue_rows details_rows venue_genres with_venue_genres
       with_venues with_details].
  split; [apply next_id_fresh|]. split; [apply next_id_fresh|].
  split; [reflexivity|]. split; [reflexivity|].
  split; [apply map_size_insert_None, next_id_fresh|].
  split; [apply map_size_insert_None, next_id_fresh|].
  split.
  - intros g. rewrite elem_of_union, elem_of_pairs. cbn [fst snd]. split.
    + intros [[Hg _]|Hin]; [|by destruct (Hfresh g)].
      apply list_elem_of_lookup in Hg as [k Hk].
      destruct (Forall2_lookup_r _ _ _ _ _ Hnames Hk) as (n & Hn & Hng).
      exists n. split; [|done]. by eapply list_elem_of_lookup_2.
    + intros (n & Hn & Hng). left. split; [|done].
      apply list_elem_of_lookup in Hn as [k Hk].
      destruct (Forall2_lookup_l _ _ _ _ _ Hnames Hk) as (g' & Hg' & Hng').
      rewrite (names_genre_functional _ _ _ _ Hng Hng').
      by eapply list_elem_of_lookup_2.
  - intros g v Hne. rewrite elem_of_union, elem_of_pairs. cbn [fst snd]. tauto.
Qed.

Lemma jazz_venue_sendable : venue_sendable jazz_venue.
Proof. repeat constructor. Qed.

Lemma jazz_venue_fits : fits_columns jazz_venue.
Proof. repeat split; vm_compute; lia. Qed.

Lemma create_venue_accepted_witness :
  let after := create_venue_submission sample jazz_venue in
  after.2
  = mkReply ["Venue " +:+ VenueForm.name jazz_venue +:+ " was successfully listed!"]
            (inr (render_template "pages/home.html" []))
  ∧ ∃ id details_id,
      venue_rows sample !! id = None
      ∧ details_rows sample !! details_id = None
      ∧ venue_rows after.1
        = <[id := submitted_venue details_id jazz_venue]> (venue_rows sample)
      ∧ details_rows after.1
        = <[details_id := submitted_details jazz_venue]> (details_rows sample)
      ∧ size (venue_rows after.1) = S (size (venue_rows sample))
      ∧ size (details_rows after.1) = S (size (details_rows sample))
      ∧ (∀ g, (g, id) ∈ venue_genres after.1
              ↔ ∃ n, n ∈ VenueForm.genres jazz_venue ∧ names_genre sample n g)
      ∧ (∀ g v, v ≠ id →
                (g, v) ∈ venue_genres after.1 ↔ (g, v) ∈ venue_genres sample).
Proof.
  apply (create_venue_accepted sample jazz_venue).
  - apply (bool_decide_unpack _). vm_compute. exact I.
  - exact jazz_venue_known.
  - exact jazz_venue_fits.
  - exact jazz_venue_sendable.
  - apply (bool_decide_unpack _). vm_compute. exact I.
Defined.

(** X6: the page of a venue just created shows what was submitted: its
    stripped name and contact values, no website or image, the submitted
    genre names and no others, and no shows. *)
Theorem create_venue_then_show (db : Database) (form : VenueForm.t) :
  consistent db →
  genres_known db (VenueForm.genres form) →
  fits_columns form →
  venue_sendable form →
  link_unused db (PyStr.strip (VenueForm.facebook_link form)) →
  let after := (create_venue_submission db form).1 in
  ∃ id d genresList,
    venue_rows db !! id = None
    ∧ is_Some (venue_rows after !! id)
    ∧ show_venue after id
      = inr (render_template "pages/show_venue.html" [("venue", PDict d)])
    ∧ dict_get d "id" = Some (PInt id)
    ∧ dict_get d "name" = Some (PStr (PyStr.strip (VenueForm.name form)))
    ∧ dict_get d "city" = Some (PStr (PyStr.strip (VenueForm.city form)))
    ∧ dict_get d "state" = Some (PStr (PyStr.strip (VenueForm.state form)))
    ∧ dict_get d "address" = Some (PStr (PyStr.strip (VenueForm.address form)))
    ∧ dict_get d "phone" = Some (PStr (PyStr.strip (VenueForm.phone form)))
    ∧ dict_get d "facebook_link"
      = Some (PStr (PyStr.strip (VenueForm.facebook_link form)))
    ∧ dict_get d "website" = Some PNone
    ∧ dict_get d "image_link" = Some PNone
    ∧ dict_get d "seeking_talent" = Some (PBool false)
    ∧ dict_get d "genres" = Some (PList genresList)
    ∧ (∀ n, PStr n ∈ genresList ↔ n ∈ VenueForm.genres form)
    ∧ dict_get d "upcoming_shows" = Some (PList [])
    ∧ dict_get d "upcoming_shows_count" = Some (PInt 0)
    ∧ dict_get d "past_shows" = Some (PList [])
    ∧ dict_get d "past_shows_count" = Some (PInt 0).
Proof.
  intros Hdb Hknown Hfits Hsend Hunused after. subst after.
  destruct (create_venue_submission_ok db form Hknown Hfits Hsend Hunused)
    as (gs & Hnames & ->).
  destruct (fresh_venue_unreferenced db Hdb) as [Hfresh Hnoshow].
  cbn [fst]. set (id := Query.next_id (venue_rows db)) in *.
  set (did := Query.next_id (details_rows db)) in *.
  set (after := with_venue_genres _ _).
  assert (shows_of_venue after id = []) as Hshows.
  { apply shows_of_venue_nil. exact Hnoshow. }
  assert (venue_rows after !! id = Some (submitted_venue did form)) as Hvenue
    by apply lookup_insert_eq.
  exists id. unfold show_venue, Query.by_id_or_none, Query.by_id.
  rewrite Hvenue.
  assert (details_rows after !! Venue.details_id (submitted_venue did form)
          = Some (submitted_details form)) as -> by apply lookup_insert_eq.
  rewrite Hshows. cbn [mbind result_bind mret result_ret venue_shows].
  eexists _, _. split; [apply next_id_fresh|]. split; [by eexists|].
  split; [reflexivity|].
  do 11 (split; [reflexivity|]). split; [|done].
  intros n. unfold genre_names, genres_of, Query.all.
  rewrite list_elem_of_fmap. split.
  - intros ([g r] & Hn & [Hin Hr]%list_elem_of_filter).
    apply elem_of_map_to_list in Hr. cbn [fst snd] in *.
    subst after. cbn [venue_genres with_venue_genres] in Hin.
    apply elem_of_union in Hin as [[Hg _]%elem_of_pairs|Hin];
      [|by destruct (Hfresh g)].
    cbn [fst] in Hg. apply list_elem_of_lookup in Hg as [k Hk].
    destruct (Forall2_lookup_r _ _ _ _ _ Hnames Hk)
      as (n' & Hn' & [(r' & Hr' & Hname) _]).
    assert (r' = r) as -> by (cbn in Hr; congruence).
    rewrite Hname in Hn. injection Hn as ->. by eapply list_elem_of_lookup_2.
  - intros Hn. apply list_elem_of_lookup in Hn as [k Hk].
    destruct (Forall2_lookup_l _ _ _ _ _ Hnames Hk)
      as (g & Hg & [(r & Hr & Hname) _]).
    exists (g, r). cbn [snd]. rewrite Hname. split; [done|].
    apply list_elem_of_filter. split.
    + cbn [fst]. subst after. cbn [venue_genres with_venue_genres].
      apply elem_of_union. left. apply elem_of_pairs. split; [|done].
      by eapply list_elem_of_lookup_2.
    + by apply elem_of_map_to_list.
Qed.

Lemma create_venue_then_show_witness :
  let after := (create_venue_submission sample jazz_venue).1 in
  ∃ id d genresList,
    venue_rows sample !! id = None
    ∧ is_Some (venue_rows after !! id)
    ∧ show_venue after id
      = inr (render_template "pages/show_venue.html" [("venue", PDict d)])
    ∧ dict_get d "id" = Some (PInt id)
    ∧ dict_get d "name" = Some (PStr (PyStr.strip (VenueForm.name jazz_venue)))
    ∧ dict_get d "city" = Some (PStr (PyStr.strip (VenueForm.city jazz_venue)))
    ∧ dict_get d "state" = Some (PStr (PyStr.strip (VenueForm.state jazz_venue)))
    ∧ dict_get d "address" = Some (PStr (PyStr.strip (VenueForm.address jazz_venue)))
    ∧ dict_get d "phone" = Some (PStr (PyStr.strip (VenueForm.phone jazz_venue)))
    ∧ dict_get d "facebook_link"
      = Some (PStr (PyStr.strip (VenueForm.facebook_link jazz_venue)))
    ∧ dict_get d "website" = Some PNone
    ∧ dict_get d "image_link" = Some PNone
    ∧ dict_get d "seeking_talent" = Some (PBool false)
    ∧ dict_get d "genres" = Some (PList genresList)
    ∧ (∀ n, PStr n ∈ genresList ↔ n ∈ VenueForm.genres jazz_venue)
    ∧ dict_get d "upcoming_shows" = Some (PList [])
    ∧ dict_get d "upcoming_shows_count" = Some (PInt 0)
    ∧ dict_get d "past_shows" = Some (PList [])
    ∧ dict_get d "past_shows_count" = Some (PInt 0).
Proof.
  apply (create_venue_then_show sample jazz_venue).
  - apply (bool_decide_unpack _). vm_compute. exact I.
  - exact jazz_venue_known.
  - exact jazz_venue_fits.
  - exact jazz_venue_sendable.
  - apply (bool_decide_unpack _). vm_compute. exact I.
Defined.

(** The page of the venue created from [jazz_venue], run: "Jazz" was
    submitted twice and is listed once. *)
Example jazz_venue_page :
  ∃ d genresList,
    show_venue (create_venue_submission sample jazz_venue).1 2
    = inr (render_template "pages/show_venue.html" [("venue", PDict d)])
    ∧ dict_get d "name" = Some (PStr "Park Square Live")
    ∧ dict_get d "genres" = Some (PList genresList)
    ∧ genresList ≡ₚ [PStr "Jazz"; PStr "Blues"].
Proof.
  eexists _, _. split; [vm_compute; reflexivity|]. split; [reflexivity|].
  split; [reflexivity|]. apply Permutation_swap.
Qed.

(** ** Creating a venue that is refused *)

Lemma details_stored_link (d stored : Details.t) :
  Column.details d = inr stored →
  Column.varchar 120 (Details.facebook_link d) = inr (Details.facebook_link stored).
Proof.
  unfold Column.details.
  intros (city & _ & H)%bind_inr. apply bind_inr in H as (state & _ & H).
  apply bind_inr in H as (phone & _ & H). apply bind_inr in H as (image & _ & H).
  apply bind_inr in H as (link & Hlink & H). injection H as <-. exact Hlink.
Qed.

(** X7: a venue whose facebook link some [Details] row already has cannot
    be created: the handler finds its new [Details] row back by that link,
    finds two rows, and reports the failure; no [Venue] row and no genre
    association is added. *)
Theorem create_venue_link_taken (db : Database) (form : VenueForm.t) (i : Z)
    (d : Details.t) :
  details_rows db !! i = Some d →
  Details.facebook_link d = Some (PyStr.strip (VenueForm.facebook_link form)) →
  (String.length (PyStr.strip (VenueForm.facebook_link form)) ≤ 120)%nat →
  let after := create_venue_submission db form in
  after.2
  = mkReply ["An error occurred. Venue " +:+ PyStr.strip (VenueForm.name form)
             +:+ " could not be listed."]
            (inr (redirect "create_venue_submission" []))
  ∧ venue_rows after.1 = venue_rows db
  ∧ venue_genres after.1 = venue_genres db.
Proof.
  intros Hd Hlink Hfits after. subst after. unfold create_venue_submission.
  destruct (Session.add_details db _) as [e|[[did stored] db1]] eqn:Hadd; [done|].
  apply add_details_inr in Hadd as (-> & Hstored & ->).
  apply details_stored_link in Hstored.
  cbn [Details.facebook_link] in Hstored. rewrite (varchar_fits _ _ Hfits) in Hstored.
  injection Hstored as Hstored. rewrite <- Hstored.
  assert (i ≠ Query.next_id (details_rows db)) as Hne.
  { intros ->. pose proof (next_id_fresh (details_rows db)). congruence. }
  set (did := Query.next_id (details_rows db)) in *.
  set (db1 := with_details _ db).
  destruct (Driver.adapt _) as [e|[]]; [done|]. cbn [mbind result_bind].
  rewrite (one_of_two (Query.details_linked db1 _) (i, d) (did, stored)).
  - done.
  - by intros [= Hi _].
  - apply list_elem_of_filter. split; [done|]. apply elem_of_map_to_list.
    subst db1. cbn [details_rows with_details]. by rewrite lookup_insert_ne.
  - apply list_elem_of_filter. split; [by cbn [snd]|]. apply elem_of_map_to_list.
    apply lookup_insert_eq.
Qed.

Lemma create_venue_link_taken_witness :
  let after := create_venue_submission sample same_link_venue in
  after.2
  = mkReply ["An error occurred. Venue "
             +:+ PyStr.strip (VenueForm.name same_link_venue)
             +:+ " could not be listed."]
            (inr (redirect "create_venue_submission" []))
  ∧ venue_rows after.1 = venue_rows sample
  ∧ venue_genres after.1 = venue_genres sample.
Proof.
  apply (create_venue_link_taken sample same_link_venue 1
           (Details.mk (Some "San Francisco") (Some "CA") (Some "1015 Folsom Street")
              (Some "123-123-1234") None None (Some "fb/musicalhop"))).
  - reflexivity.
  - reflexivity.
  - vm_compute. lia.
Defined.

(** ** Creating an artist *)

(** X8: an artist submission with a genre name that no genre bears fails
    like a venue submission does: the failure is reported and no [Artist]
    row or association is added, but the [Details] row committed first
    stays whenever it could be stored, that is, when its values are free of
    NUL and fit their columns. *)
Theorem create_artist_unknown_genre (db : Database) (form : ArtistForm.t)
    (genre : string) :
  genre ∈ ArtistForm.genres form →
  (∀ i g, genre_rows db !! i = Some g → Genre.name g ≠ Some genre) →
  let after := create_artist_submission db form in
  after.2
  = mkReply ["An error occurred. Artist " +:+ PyStr.strip (ArtistForm.name form)
             +:+ " could not be listed."]
            (inr (redirect "create_artist_submission" []))
  ∧ artist_rows after.1 = artist_rows db
  ∧ artist_genres after.1 = artist_genres db
  ∧ (artist_fits_columns form →
     Forall (λ s, Driver.nul_free s = true)
       [ArtistForm.city form; ArtistForm.state form; ArtistForm.phone form;
        ArtistForm.facebook_link form] →
     ∃ details_id,
       details_rows db !! details_id = None
       ∧ details_rows after.1
         = <[details_id :=
               Details.mk (Some (PyStr.strip (ArtistForm.city form)))
                          (Some (PyStr.strip (ArtistForm.state form)))
                          None
                          (Some (PyStr.strip (ArtistForm.phone form)))
                          None None
                          (Some (PyStr.strip (ArtistForm.facebook_link form)))]>
             (details_rows db)
       ∧ size (details_rows after.1) = S (size (details_rows db))).
Proof.
  intros Hin Hunknown after. subst after. unfold create_artist_submission.
  set (newDetail := Details.mk _ _ _ _ _ _ _).
  assert (artist_fits_columns form → Column.details newDetail = inr newDetail)
    as Hfit.
  { intros (Hc & Hs & Hp & Hf). unfold Column.details, newDetail.
    cbn [Details.city Details.state Details.phone Details.image_link
         Details.facebook_link Details.address Details.website].
    rewrite (varchar_fits_chars _ _ Hc). cbn [mbind result_bind].
    rewrite (varchar_fits_chars _ _ Hs). cbn [mbind result_bind].
    rewrite (varchar_fits_chars _ _ Hp). cbn [mbind result_bind].
    change (Column.varchar 500 None) with (@inr exn (option string) None).
    cbn [mbind result_bind]. rewrite (varchar_fits_chars _ _ Hf). reflexivity. }
  destruct (Session.add_details db newDetail) as [e|[[i stored] db1]] eqn:Hadd.
  - do 3 (split; [reflexivity|]). intros Hfits _. exfalso.
    unfold Session.add_details in Hadd. by rewrite (Hfit Hfits) in Hadd.
  - apply add_details_inr in Hadd as (-> & Hstored & ->).
    set (db1 := with_details _ db).
    destruct (lookup_genres_unknown db1 (ArtistForm.genres form) genre Hin Hunknown)
      as [e He].
    match goal with |- context [match ?m with inl _ => _ | inr _ => _ end] =>
      assert (∃ x, m = inl x) as [x ->]
    end.
    { destruct (Driver.adapt _) as [?|[]]; [by eexists|].
      cbn [mbind result_bind].
      destruct (Query.one _) as [?|detail]; [by eexists|].
      cbn [mbind result_bind]. rewrite He. by eexists. }
    cbn [fst snd]. do 3 (split; [reflexivity|]).
    intros Hfits _. rewrite (Hfit Hfits) in Hstored.
    injection Hstored as <-. exists (Query.next_id (details_rows db)).
    split; [apply next_id_fresh|]. split; [reflexivity|].
    subst db1. cbn [details_rows with_details].
    apply map_size_insert_None, next_id_fresh.
Qed.

Lemma create_artist_unknown_genre_witness :
  let after := create_artist_submission sample polka_artist in
  after.2
  = mkReply ["An error occurred. Artist "
             +:+ PyStr.strip (ArtistForm.name polka_artist)
             +:+ " could not be listed."]
            (inr (redirect "create_artist_submission" []))
  ∧ artist_rows after.1 = artist_rows sample
  ∧ artist_genres after.1 = artist_genres sample
  ∧ ∃ details_id,
      details_rows sample !! details_id = None
      ∧ details_rows after.1
        = <[details_id :=
              Details.mk (Some (PyStr.strip (ArtistForm.city polka_artist)))
                         (Some (PyStr.strip (ArtistForm.state polka_artist)))
                         None
                         (Some (PyStr.strip (ArtistForm.phone polka_artist)))
                         None None
                         (Some (PyStr.strip (ArtistForm.facebook_link polka_artist)))]>
            (details_rows sample)
      ∧ size (details_rows after.1) = S (size (details_rows sample)).
Proof.
  destruct (create_artist_unknown_genre sample polka_artist "Polka")
    as (Hreply & Hartists & Hgenres & Hdetails).
  - apply (bool_decide_unpack _). vm_compute. exact I.
  - apply (proj1 (map_Forall_lookup (λ _ g, Genre.name g ≠ Some "Polka")
                                      (genre_rows sample))).
    apply (bool_decide_unpack _). vm_compute. exact I.
  - split; [exact Hreply|]. split; [exact Hartists|]. split; [exact Hgenres|].
    apply Hdetails.
    + repeat split; vm_compute; lia.
    + repeat constructor.
Defined.

(** ** Editing *)

Lemma details_stored (d stored : Details.t) :
  Column.details d = inr stored →
  Column.varchar 120 (Details.city d) = inr (Details.city stored)
  ∧ Column.varchar 120 (Details.state d) = inr (Details.state stored)
  ∧ Column.varchar 120 (Details.phone d) = inr (Details.phone stored)
  ∧ Column.varchar 500 (Details.image_link d) = inr (Details.image_link stored)
  ∧ Column.varchar 120 (Details.facebook_link d) = inr (Details.facebook_link stored)
  ∧ Details.address stored = Details.address d
  ∧ Details.website stored = Details.website d.
Proof.
  unfold Column.details.
  intros (city & Hc & H)%bind_inr. apply bind_inr in H as (state & Hs & H).
  apply bind_inr in H as (phone & Hp & H). apply bind_inr in H as (image & Hi & H).
  apply bind_inr in H as (link & Hl & H). injection H as <-. done.
Qed.

(** X9: a successful edit of a venue overwrites its name and the city,
    state, phone and facebook link of its [Details] row with the stripped
    submitted values, as their columns store them; it keeps the address,
    the website, the image link and the seeking fields, replaces the genre
    associations of the venue by those of the submitted names, and touches
    no other row. *)
Theorem edit_venue_overwrites (db : Database) (venue_id : Z) (form : VenueForm.t)
    (after : Database) (reply : Reply) :
  edit_venue_submission db venue_id form = (after, reply) →
  outcome reply = inr (redirect "show_venue" [("venue_id", PInt venue_id)]) →
  ∃ old detail stored,
    venue_rows db !! venue_id = Some old
    ∧ details_rows db !! Venue.details_id old = Some detail
    ∧ venue_rows after
      = <[venue_id := Venue.mk (Venue.details_id old)
                               (Some (PyStr.strip (VenueForm.name form)))
                               (Venue.seeking_talent old) (Venue.seeking_text old)]>
          (venue_rows db)
    ∧ details_rows after = <[Venue.details_id old := stored]> (details_rows db)
    ∧ Column.varchar 120 (Some (PyStr.strip (VenueForm.city form)))
      = inr (Details.city stored)
    ∧ Column.varchar 120 (Some (PyStr.strip (VenueForm.state form)))
      = inr (Details.state stored)
    ∧ Column.varchar 120 (Some (PyStr.strip (VenueForm.phone form)))
      = inr (Details.phone stored)
    ∧ Column.varchar 120 (Some (PyStr.strip (VenueForm.facebook_link form)))
      = inr (Details.facebook_link stored)
    ∧ Details.address stored = Details.address detail
    ∧ Details.website stored = Details.website detail
    ∧ Column.varchar 500 (Details.image_link detail) = inr (Details.image_link stored)
    ∧ (∀ g, (g, venue_id) ∈ venue_genres after
            ↔ ∃ n, n ∈ VenueForm.genres form ∧ names_genre db n g)
    ∧ (∀ g v, v ≠ venue_id →
              (g, v) ∈ venue_genres after ↔ (g, v) ∈ venue_genres db)
    ∧ genre_rows after = genre_rows db
    ∧ artist_rows after = artist_rows db
    ∧ show_rows after = show_rows db
    ∧ artist_genres after = artist_genres db.
Proof.
  unfold edit_venue_submission, Query.by_id_or_none, Query.by_id.
  intros Hrun Hok.
  destruct (venue_rows db !! venue_id) as [old|] eqn:Hold;
    [|injection Hrun as <- <-; done].
  destruct (details_rows db !! Venue.details_id old) as [detail|] eqn:Hdetail;
    [|injection Hrun as <- <-; done].
  cbn [mret result_ret] in Hrun.
  destruct (lookup_genres db (VenueForm.genres form)) as [e|gs] eqn:Hgs;
    [injection Hrun as <- <-; done|].
  cbn [mbind result_bind mret result_ret] in Hrun.
  match type of Hrun with
  | context [Session.update_venue ?a ?b ?c ?d ?e ?f] =>
      destruct (Session.update_venue a b c d e f) as [e'|db1] eqn:Hupdate
  end; [injection Hrun as <- <-; done|].
  injection Hrun as <- _. clear Hok.
  apply update_venue_inr in Hupdate as (stored & Hstored & ->).
  apply details_stored in Hstored as (Hc & Hs & Hp & Hi & Hl & Ha & Hw).
  apply lookup_genres_spec in Hgs.
  exists old, detail, stored.
  cbn [genre_rows venue_rows details_rows artist_rows show_rows artist_genres
       venue_genres with_venue_genres with_details with_venues
       Venue.details_id] in *.
  do 11 (split; [done|]). split; [|split; [|done]].
  - intros g. rewrite elem_of_union, elem_of_pairs, elem_of_filter.
    cbn [fst snd]. split.
    + intros [[Hg _]|[Hne _]]; [|done].
      apply list_elem_of_lookup in Hg as [k Hk].
      destruct (Forall2_lookup_r _ _ _ _ _ Hgs Hk) as (n & Hn & Hng).
      exists n. split; [|done]. by eapply list_elem_of_lookup_2.
    + intros (n & Hn & Hng). left. split; [|done].
      apply list_elem_of_lookup in Hn as [k Hk].
      destruct (Forall2_lookup_l _ _ _ _ _ Hgs Hk) as (g' & Hg' & Hng').
      rewrite (names_genre_functional _ _ _ _ Hng Hng').
      by eapply list_elem_of_lookup_2.
  - intros g v Hne. rewrite elem_of_union, elem_of_pairs, elem_of_filter.
    cbn [fst snd]. tauto.
Qed.

Lemma edit_venue_overwrites_witness :
  let after := (edit_venue_submission sample 1 hop_edit).1 in
  ∃ old detail stored,
    venue_rows sample !! 1 = Some old
    ∧ details_rows sample !! Venue.details_id old = Some detail
    ∧ venue_rows after
      = <[1 := Venue.mk (Venue.details_id old)
                               (Some (PyStr.strip (VenueForm.name hop_edit)))
                               (Venue.seeking_talent old) (Venue.seeking_text old)]>
          (venue_rows sample)
    ∧ details_rows after = <[Venue.details_id old := stored]> (details_rows sample)
    ∧ Column.varchar 120 (Some (PyStr.strip (VenueForm.city hop_edit)))
      = inr (Details.city stored)
    ∧ Column.varchar 120 (Some (PyStr.strip (VenueForm.state hop_edit)))
      = inr (Details.state stored)
    ∧ Column.varchar 120 (Some (PyStr.strip (VenueForm.phone hop_edit)))
      = inr (Details.phone stored)
    ∧ Column.varchar 120 (Some (PyStr.strip (VenueForm.facebook_link hop_edit)))
      = inr (Details.facebook_link stored)
    ∧ Details.address stored = Details.address detail
    ∧ Details.website stored = Details.website detail
    ∧ Column.varchar 500 (Details.image_link detail) = inr (Details.image_link stored)
    ∧ (∀ g, (g, 1) ∈ venue_genres after
            ↔ ∃ n, n ∈ VenueForm.genres hop_edit ∧ names_genre sample n g)
    ∧ (∀ g v, v ≠ 1 →
              (g, v) ∈ venue_genres after ↔ (g, v) ∈ venue_genres sample)
    ∧ genre_rows after = genre_rows sample
    ∧ artist_rows after = artist_rows sample
    ∧ show_rows after = show_rows sample
    ∧ artist_genres after = artist_genres sample.
Proof.
  apply (edit_venue_overwrites sample 1 hop_edit
           (edit_venue_submission sample 1 hop_edit).1
           (edit_venue_submission sample 1 hop_edit).2).
  - apply surjective_pairing.
  - vm_compute. reflexivity.
Defined.

(** The edit [hop_edit], run: name and city are stored stripped, the address
    is the old one. *)
Example hop_edit_run :
  Venue.name <$> venue_rows (edit_venue_submission sample 1 hop_edit).1 !! 1
  = Some (Some "The Musical Hop II")
  ∧ Details.city <$> details_rows (edit_venue_submission sample 1 hop_edit).1 !! 1
    = Some (Some "Oakland")
  ∧ Details.address <$> details_rows (edit_venue_submission sample 1 hop_edit).1 !! 1
    = Some (Some "1015 Folsom Street")
  ∧ elements (venue_genres (edit_venue_submission sample 1 hop_edit).1) = [(2, 1)].
Proof. repeat split; vm_compute; reflexivity. Qed.

(** X10: an edit that does not end in the redirect to the detail page is
    answered with status 500 and leaves the database as it was, whether the
    id is unknown, a genre name cannot be looked up or a value does not fit
    its column. *)
Theorem failed_edit_changes_nothing (db : Database) (id : Z) :
  (∀ form,
     outcome (edit_artist_submission db id form).2
     ≠ inr (redirect "show_artist" [("artist_id", PInt id)]) →
     (edit_artist_submission db id form).1 = db
     ∧ status (outcome (edit_artist_submission db id form).2) = 500)
  ∧ (∀ form,
       outcome (edit_venue_submission db id form).2
       ≠ inr (redirect "show_venue" [("venue_id", PInt id)]) →
       (edit_venue_submission db id form).1 = db
       ∧ status (outcome (edit_venue_submission db id form).2) = 500).
Proof.
  split; intros form.
  - unfold edit_artist_submission.
    destruct (Query.by_id_or_none _ _) as [artist|]; [|done].
    unfold Query.by_id. destruct (details_rows db !! _) as [detail|]; [|done].
    cbn [mret result_ret].
    match goal with |- context [match ?m with inl _ => _ | inr _ => _ end] =>
      destruct m as [e|db1] end; done.
  - unfold edit_venue_submission.
    destruct (Query.by_id_or_none _ _) as [venue|]; [|done].
    unfold Query.by_id. destruct (details_rows db !! _) as [detail|]; [|done].
    cbn [mret result_ret].
    match goal with |- context [match ?m with inl _ => _ | inr _ => _ end] =>
      destruct m as [e|db1] end; done.
Qed.

Lemma failed_edit_changes_nothing_witness :
  (edit_artist_submission sample 1 to_polka).1 = sample
  ∧ status (outcome (edit_artist_submission sample 1 to_polka).2) = 500.
Proof.
  apply (proj1 (failed_edit_changes_nothing sample 1) to_polka).
  vm_compute. intros H. discriminate H.
Defined.

(** ** After a venue is deleted *)

(** X11: deleting a venue that no show references removes that one [Venue]
    row only: its [Details] row stays, and so does every other table and
    every other venue; afterwards the detail page of the id is the
    not-found record and the venue is in no listing of all venues. *)
Theorem delete_venue_leaves_rest (star : list string) (db : Database)
    (venue_id : Z) :
  is_Some (venue_rows db !! venue_id) →
  (∀ i s, show_rows db !! i = Some s → Show.venue_id s ≠ venue_id) →
  let after := (delete_venue star db venue_id).1 in
  details_rows after = details_rows db
  ∧ genre_rows after = genre_rows db
  ∧ artist_rows after = artist_rows db
  ∧ show_rows after = show_rows db
  ∧ artist_genres after = artist_genres db
  ∧ (∀ j, j ≠ venue_id → venue_rows after !! j = venue_rows db !! j)
  ∧ S (size (venue_rows after)) = size (venue_rows db)
  ∧ (∀ v, (venue_id, v) ∉ Query.all (venue_rows after))
  ∧ ∃ d, show_venue after venue_id
         = inr (render_template "pages/show_venue.html" [("venue", PDict d)])
         ∧ sentinel d.
Proof.
  intros [venue Hvenue] Hfree after. subst after.
  unfold delete_venue, Query.by_id, Session.delete_venue. rewrite Hvenue.
  cbn [mret result_ret].
  rewrite (proj2 (shows_of_venue_nil db venue_id) Hfree).
  cbn [mret result_ret fst details_rows genre_rows artist_rows show_rows
       artist_genres venue_rows with_venue_genres with_venues].
  do 5 (split; [reflexivity|]). split; [|split; [|split]].
  - intros j Hne. by apply lookup_delete_ne.
  - rewrite map_size_delete, Hvenue.
    assert (size (venue_rows db) ≠ 0%nat); [|lia].
    intros Hzero%map_size_empty_inv. by rewrite Hzero, lookup_empty in Hvenue.
  - intros v Hin. apply elem_of_map_to_list in Hin.
    by rewrite lookup_delete_eq in Hin.
  - unfold show_venue, Query.by_id_or_none.
    cbn [venue_rows with_venue_genres with_venues]. rewrite lookup_delete_eq.
    eexists. split; [reflexivity|].
    split; [reflexivity|]. intros k Hk Hne. simpl in Hk.
    repeat (apply elem_of_cons in Hk as [->|Hk]; [try reflexivity; done|]).
    by apply elem_of_nil in Hk.
Qed.

Lemma delete_venue_leaves_rest_witness :
  let after := (delete_venue ["jsonify"] unnamed 1).1 in
  details_rows after = details_rows unnamed
  ∧ genre_rows after = genre_rows unnamed
  ∧ artist_rows after = artist_rows unnamed
  ∧ show_rows after = show_rows unnamed
  ∧ artist_genres after = artist_genres unnamed
  ∧ (∀ j, j ≠ 1 → venue_rows after !! j = venue_rows unnamed !! j)
  ∧ S (size (venue_rows after)) = size (venue_rows unnamed)
  ∧ (∀ v, (1, v) ∉ Query.all (venue_rows after))
  ∧ ∃ d, show_venue after 1
         = inr (render_template "pages/show_venue.html" [("venue", PDict d)])
         ∧ sentinel d.
Proof.
  apply (delete_venue_leaves_rest ["jsonify"] unnamed 1).
  - by eexists.
  - intros i s Hs. unfold unnamed in Hs. cbn [show_rows] in Hs.
    by rewrite lookup_empty in Hs.
Defined.

(** ** The page of an artist *)

Lemma artist_shows_tally (db : Database) (ss : list (Z * Show.t)) (acc : tally) :
  (∀ r, r ∈ ss →
     ∃ v, venue_rows db !! Show.venue_id r.2 = Some v
          ∧ is_Some (details_rows db !! Venue.details_id v)) →
  ∃ t, artist_shows db ss acc = inr t
       ∧ numUpcoming t
         = numUpcoming acc
           + Z.of_nat (length (filter (λ r, Show.upcoming r.2 = true) ss))
       ∧ numPast t
         = numPast acc
           + Z.of_nat (length (filter (λ r, Show.upcoming r.2 = false) ss))
       ∧ length (showsUpcoming t)
         = (length (showsUpcoming acc)
            + length (filter (λ r, Show.upcoming r.2 = true) ss))%nat
       ∧ length (showsPast t)
         = (length (showsPast acc)
            + length (filter (λ r, Show.upcoming r.2 = false) ss))%nat.
Proof.
  revert acc. induction ss as [|[i s] ss IH]; intros acc Hfk.
  - exists acc. simpl. rewrite !Z.add_0_r, !Nat.add_0_r. done.
  - destruct (Hfk (i, s)) as (v & Hv & [d Hd]); [left|].
    simpl in Hv. simpl. unfold Query.by_id. rewrite Hv. simpl. rewrite Hd. simpl.
    edestruct (IH (count_show (Show.upcoming s)
                     (PDict [("venue_image_link", of_column (Details.image_link d));
                             ("venue_id", PInt (Show.venue_id s));
                             ("venue_name", of_column (Venue.name v));
                             ("start_time", PStr (str_start_time (Show.start_time s)))])
                     acc))
      as (t & Ht & Hu & Hp & Hlu & Hlp).
    { intros r Hr. apply Hfk. by right. }
    exists t. split; [exact Ht|].
    rewrite !filter_cons. unfold count_show in *. simpl.
    destruct (Show.upcoming s) eqn:Eup; simpl in *;
      repeat case_decide; try congruence;
      simpl in *; rewrite ?length_app in *; simpl in *; repeat split; lia.
Qed.

(** X12: for an artist that exists, the detail page is rendered; its two
    counters and the lengths of its two lists are the numbers of the
    artist's shows whose stored [upcoming] flag is true, respectively
    false, and together they count every [Show] row of the artist. *)
Theorem show_artist_counts (db : Database) (artist_id : Z) :
  consistent db →
  is_Some (artist_rows db !! artist_id) →
  ∃ d upcoming past upcoming_shows past_shows,
    show_artist db artist_id
    = inr (render_template "pages/show_artist.html" [("artist", PDict d)])
    ∧ dict_get d "id" = Some (PInt artist_id)
    ∧ dict_get d "upcoming_shows_count" = Some (PInt upcoming)
    ∧ dict_get d "past_shows_count" = Some (PInt past)
    ∧ dict_get d "upcoming_shows" = Some (PList upcoming_shows)
    ∧ dict_get d "past_shows" = Some (PList past_shows)
    ∧ upcoming
      = Z.of_nat (size (filter (λ r, Show.artist_id r.2 = artist_id
                                     ∧ Show.upcoming r.2 = true) (show_rows db)))
    ∧ past
      = Z.of_nat (size (filter (λ r, Show.artist_id r.2 = artist_id
                                     ∧ Show.upcoming r.2 = false) (show_rows db)))
    ∧ upcoming + past
      = Z.of_nat (size (filter (λ r, Show.artist_id r.2 = artist_id) (show_rows db)))
    ∧ Z.of_nat (length upcoming_shows) = upcoming
    ∧ Z.of_nat (length past_shows) = past.
Proof.
  intros (Hvd & Had & Hs & _) [artist Hartist].
  destruct (Had _ _ Hartist) as [detail Hdetail].
  destruct (artist_shows_tally db (shows_of_artist db artist_id) (mkTally [] [] 0 0))
    as (t & Ht & Hu & Hp & Hlu & Hlp).
  { intros [i s] Hr. apply list_elem_of_filter in Hr as [_ Hr].
    apply elem_of_map_to_list in Hr. destruct (Hs _ _ Hr) as [_ [v Hv]].
    exists v. split; [exact Hv|]. exact (Hvd _ _ Hv). }
  unfold show_artist, Query.by_id_or_none, Query.by_id.
  rewrite Hartist, Hdetail. simpl. rewrite Ht. simpl.
  eexists _, _, _, _, _. split; [reflexivity|].
  do 5 (split; [reflexivity|]).
  rewrite !size_filter_all.
  pose proof (length_filter_split (λ r : Z * Show.t, Show.upcoming r.2)
                (shows_of_artist db artist_id)) as Hsplit.
  unfold shows_of_artist in *. rewrite !list_filter_filter in *.
  simpl in *.
  assert (∀ b, filter (λ r : Z * Show.t, Show.upcoming r.2 = b
                                         ∧ Show.artist_id r.2 = artist_id)
                 (Query.all (show_rows db))
               = filter (λ r : Z * Show.t, Show.artist_id r.2 = artist_id
                                           ∧ Show.upcoming r.2 = b)
                   (Query.all (show_rows db))) as Hcomm.
  { intros b. apply list_filter_iff. tauto. }
  rewrite !Hcomm in *. repeat split; lia.
Qed.

Lemma show_artist_counts_witness :
  ∃ d upcoming past upcoming_shows past_shows,
    show_artist sample 1
    = inr (render_template "pages/show_artist.html" [("artist", PDict d)])
    ∧ dict_get d "id" = Some (PInt 1)
    ∧ dict_get d "upcoming_shows_count" = Some (PInt upcoming)
    ∧ dict_get d "past_shows_count" = Some (PInt past)
    ∧ dict_get d "upcoming_shows" = Some (PList upcoming_shows)
    ∧ dict_get d "past_shows" = Some (PList past_shows)
    ∧ upcoming
      = Z.of_nat (size (filter (λ r, Show.artist_id r.2 = 1
                                     ∧ Show.upcoming r.2 = true) (show_rows sample)))
    ∧ past
      = Z.of_nat (size (filter (λ r, Show.artist_id r.2 = 1
                                     ∧ Show.upcoming r.2 = false) (show_rows sample)))
    ∧ upcoming + past
      = Z.of_nat (size (filter (λ r, Show.artist_id r.2 = 1) (show_rows sample)))
    ∧ Z.of_nat (length upcoming_shows) = upcoming
    ∧ Z.of_nat (length past_shows) = past.
Proof.
  apply (show_artist_counts sample 1).
  - apply (bool_decide_unpack _). vm_compute. exact I.
  - apply (bool_decide_unpack _). vm_compute. exact I.
Defined.

(** ** Listing and creating shows *)

Lemma show_summaries_spec (db : Database) (ss : list (Z * Show.t)) :
  (∀ r, r ∈ ss → is_Some (show_view db r.2)) →
  ∃ summaries,
    show_summaries db ss = inr summaries
    ∧ Forall2 (λ r s, show_view db r.2 = Some s) ss summaries.
Proof.
  induction ss as [|[i s] ss IH]; intros Hview.
  - exists []. split; [reflexivity|constructor].
  - destruct IH as (rest & Hrest & Hall).
    { intros r Hr. apply Hview. by right. }
    destruct (Hview (i, s)) as [view Hs]; [left|]. cbn [snd] in Hs.
    exists (view :: rest). split; [|by constructor].
    unfold show_view in Hs.
    destruct (artist_rows db !! Show.artist_id s) as [a|] eqn:Ha; [|done].
    cbn [mbind option_bind] in Hs.
    destruct (venue_rows db !! Show.venue_id s) as [v|] eqn:Hv; [|done].
    cbn [mbind option_bind] in Hs.
    destruct (details_rows db !! Artist.details_id a) as [d|] eqn:Hd; [|done].
    cbn [mbind option_bind] in Hs. injection Hs as <-.
    cbn [show_summaries]. unfold Query.by_id.
    rewrite Ha. cbn [mbind result_bind mret result_ret].
    rewrite Hv. cbn [mbind result_bind mret result_ret].
    rewrite Hd. cbn [mbind result_bind mret result_ret].
    rewrite Hrest. reflexivity.
Qed.

(** X13: the show listing has one entry per row of [Show], in the order of
    the query, each with the ids of the show and the names of its artist
    and venue and the image of the artist, without grouping or paging. *)
Theorem shows_lists_every_show (db : Database) :
  consistent db →
  ∃ summaries,
    shows db = inr (render_template "pages/shows.html" [("shows", PList summaries)])
    ∧ length summaries = size (show_rows db)
    ∧ Forall2 (λ r s, show_view db r.2 = Some s) (Query.all (show_rows db)) summaries.
Proof.
  intros (Hvd & Had & Hs & _).
  destruct (show_summaries_spec db (Query.all (show_rows db)))
    as (summaries & Hrun & Hall).
  { intros [i s] Hr. apply elem_of_map_to_list in Hr.
    destruct (Hs _ _ Hr) as [[a Ha] [v Hv]]. destruct (Had _ _ Ha) as [d Hd].
    unfold show_view. cbn [snd]. rewrite Ha, Hv. cbn [mbind option_bind].
    rewrite Hd. by eexists. }
  exists summaries. unfold shows. rewrite Hrun. split; [reflexivity|].
  split; [|exact Hall].
  rewrite <- (Forall2_length _ _ _ Hall). unfold Query.all.
  by rewrite length_map_to_list.
Qed.

Lemma shows_lists_every_show_witness :
  ∃ summaries,
    shows sample
    = inr (render_template "pages/shows.html" [("shows", PList summaries)])
    ∧ length summaries = size (show_rows sample)
    ∧ Forall2 (λ r s, show_view sample r.2 = Some s)
              (Query.all (show_rows sample)) summaries.
Proof.
  apply (shows_lists_every_show sample).
  apply (bool_decide_unpack _). vm_compute. exact I.
Defined.

Lemma integer_decimal (s : string) (n : Z) :
  decimal s n → Column.integer s = inr n.
Proof.
  intros [Hne Hdigits]. unfold Column.integer.
  destruct (list_ascii_of_string s) as [|c ds] eqn:Hs.
  { destruct s; [done|discriminate Hs]. }
  destruct (Ascii.eqb c "-") eqn:Hminus.
  { apply Ascii.eqb_eq in Hminus as ->. discriminate Hdigits. }
  destruct (Ascii.eqb c "+") eqn:Hplus.
  { apply Ascii.eqb_eq in Hplus as ->. discriminate Hdigits. }
  by rewrite Hdigits.
Qed.

(** X14: a show submission that is not accepted leaves the database as it
    was; and when the stripped artist and venue ids are decimal numerals,
    the submission is accepted exactly when the name [datetime] is bound,
    the start time was parsed, and the two numbers are the ids of an
    existing artist and an existing venue. *)
Theorem create_show_accepted_iff (star : list string) (now : DateTime.t)
    (db : Database) (form : ShowForm.t) :
  let after := create_show_submission star now db form in
  (flashed after.2 ≠ ["Show was successfully listed!"] → after.1 = db)
  ∧ ∀ artist_id venue_id,
      decimal (PyStr.strip (ShowForm.artist_id form)) artist_id →
      decimal (PyStr.strip (ShowForm.venue_id form)) venue_id →
      flashed after.2 = ["Show was successfully listed!"]
      ↔ bound star "datetime" = true
        ∧ is_Some (ShowForm.start_time form)
        ∧ is_Some (artist_rows db !! artist_id)
        ∧ is_Some (venue_rows db !! venue_id).
Proof.
  intros after. subst after. split.
  - unfold create_show_submission.
    destruct (bound star "datetime"); cbn [negb]; [|done].
    destruct (ShowForm.start_time form) as [startTime|]; [|done].
    match goal with |- context [match ?m with inl _ => _ | inr _ => _ end] =>
      destruct m as [e|db1] end; done.
  - intros artist_id venue_id Hartist%integer_decimal Hvenue%integer_decimal.
    unfold create_show_submission. rewrite Hartist, Hvenue.
    destruct (bound star "datetime"); cbn [negb];
      [|split; [done|by intros [? _]]].
    destruct (ShowForm.start_time form) as [startTime|];
      [|split; [done|by intros (_ & [? ?] & _)]].
    cbn [mbind result_bind]. unfold Session.add_show.
    cbn [Show.artist_id Show.venue_id].
    destruct (artist_rows db !! artist_id) as [a|];
      [|split; [done|by intros (_ & _ & [? ?] & _)]].
    destruct (venue_rows db !! venue_id) as [v|];
      [|split; [done|by intros (_ & _ & _ & [? ?])]].
    split; [|done]. intros _. by repeat split; try eexists.
Qed.

Lemma create_show_accepted_iff_witness :
  flashed (create_show_submission ["datetime"] (DateTime.mk 2030 1 1 12 0 0 0)
             sample june_show).2
  = ["Show was successfully listed!"]
  ∧ flashed (create_show_submission ["datetime"] (DateTime.mk 2030 1 1 12 0 0 0)
               sample (ShowForm.mk "1" "7" (Some (DateTime.mk 2030 6 1 20 0 0 0)))).2
    ≠ ["Show was successfully listed!"].
Proof.
  split.
  - apply (proj2 (create_show_accepted_iff ["datetime"]
                    (DateTime.mk 2030 1 1 12 0 0 0) sample june_show) 1 1).
    + split; [done|reflexivity].
    + split; [done|reflexivity].
    + split; [reflexivity|]. repeat split; by eexists.
  - intros Hflash.
    apply (proj2 (create_show_accepted_iff ["datetime"]
                    (DateTime.mk 2030 1 1 12 0 0 0) sample
                    (ShowForm.mk "1" "7" (Some (DateTime.mk 2030 6 1 20 0 0 0))))
             1 7) in Hflash as (_ & _ & _ & [v Hv]).
    + discriminate Hv.
    + split; [done|reflexivity].
    + split; [done|reflexivity].
Defined.

(** ** The edit form after an edit *)

(** X18: after a successful edit of an artist, the edit form of that artist
    is rendered with what the edit stored: the stripped name, the city as
    its column stores the stripped value, the phone as its column stores
    the submitted value, and the submitted genre names and no others. *)
Theorem edit_artist_then_form (db : Database) (artist_id : Z)
    (form : ArtistForm.t) (after : Database) (reply : Reply) :
  edit_artist_submission db artist_id form = (after, reply) →
  outcome reply = inr (redirect "show_artist" [("artist_id", PInt artist_id)]) →
  ∃ prefilled d city phone genresList,
    edit_artist after artist_id
    = inr (render_template "forms/edit_artist.html"
             [("form", prefilled); ("artist", PDict d)])
    ∧ dict_get d "id" = Some (PInt artist_id)
    ∧ dict_get d "name" = Some (PStr (PyStr.strip (ArtistForm.name form)))
    ∧ dict_get d "city" = Some (of_column city)
    ∧ Column.varchar 120 (Some (PyStr.strip (ArtistForm.city form))) = inr city
    ∧ dict_get d "phone" = Some (of_column phone)
    ∧ Column.varchar 120 (Some (ArtistForm.phone form)) = inr phone
    ∧ dict_get d "genres" = Some (PList genresList)
    ∧ (∀ n, PStr n ∈ genresList ↔ n ∈ ArtistForm.genres form).
Proof.
  unfold edit_artist_submission, Query.by_id_or_none, Query.by_id.
  intros Hrun Hok.
  destruct (artist_rows db !! artist_id) as [old|] eqn:Hold;
    [|injection Hrun as <- <-; done].
  destruct (details_rows db !! Artist.details_id old) as [detail|] eqn:Hdetail;
    [|injection Hrun as <- <-; done].
  cbn [mret result_ret] in Hrun.
  destruct (lookup_genres db (ArtistForm.genres form)) as [e|gs] eqn:Hgs;
    [injection Hrun as <- <-; done|].
  cbn [mbind result_bind mret result_ret] in Hrun.
  match type of Hrun with
  | context [Session.update_artist ?a ?b ?c ?d ?e ?f] =>
      destruct (Session.update_artist a b c d e f) as [e'|db1] eqn:Hupdate
  end; [injection Hrun as <- <-; done|].
  injection Hrun as <- _. clear Hok.
  apply update_artist_inr in Hupdate as (stored & Hstored & ->).
  apply details_stored in Hstored as (Hc & _ & Hp & _).
  apply lookup_genres_spec in Hgs.
  cbn [Artist.details_id Details.city Details.phone] in *.
  set (after := with_artist_genres _ _).
  unfold edit_artist, Query.by_id_or_none, Query.by_id.
  assert (artist_rows after !! artist_id
          = Some (Artist.mk (Artist.details_id old)
                    (Some (PyStr.strip (ArtistForm.name form)))
                    (Artist.seeking_venue old) (Artist.seeking_text old))) as ->
    by apply lookup_insert_eq.
  cbn [Artist.details_id].
  assert (details_rows after !! Artist.details_id old = Some stored) as ->
    by apply lookup_insert_eq.
  cbn [mbind result_bind mret result_ret].
  eexists _, _, (Details.city stored), (Details.phone stored), _.
  split; [reflexivity|]. do 7 (split; [done|]).
  intros n. unfold genre_names, genres_of, Query.all.
  rewrite list_elem_of_fmap. split.
  - intros ([g r] & Hn & [Hin Hr]%list_elem_of_filter).
    apply elem_of_map_to_list in Hr. cbn [fst snd] in *.
    subst after. cbn [artist_genres with_artist_genres genre_rows with_details
                      with_artists] in Hin, Hr.
    apply elem_of_union in Hin as [[Hg _]%elem_of_pairs|[Hne _]%elem_of_filter];
      [|done].
    cbn [fst] in Hg. apply list_elem_of_lookup in Hg as [k Hk].
    destruct (Forall2_lookup_r _ _ _ _ _ Hgs Hk)
      as (n' & Hn' & [(r' & Hr' & Hname) _]).
    assert (r' = r) as -> by congruence.
    rewrite Hname in Hn. injection Hn as ->. by eapply list_elem_of_lookup_2.
  - intros Hn. apply list_elem_of_lookup in Hn as [k Hk].
    destruct (Forall2_lookup_l _ _ _ _ _ Hgs Hk)
      as (g & Hg & [(r & Hr & Hname) _]).
    exists (g, r). cbn [snd]. rewrite Hname. split; [done|].
    apply list_elem_of_filter. split.
    + cbn [fst]. subst after. cbn [artist_genres with_artist_genres].
      apply elem_of_union. left. apply elem_of_pairs. split; [|done].
      by eapply list_elem_of_lookup_2.
    + by apply elem_of_map_to_list.
Qed.

Lemma edit_artist_then_form_witness :
  let after := (edit_artist_submission sample 1 to_blues).1 in
  ∃ prefilled d city phone genresList,
    edit_artist after 1
    = inr (render_template "forms/edit_artist.html"
             [("form", prefilled); ("artist", PDict d)])
    ∧ dict_get d "id" = Some (PInt 1)
    ∧ dict_get d "name" = Some (PStr (PyStr.strip (ArtistForm.name to_blues)))
    ∧ dict_get d "city" = Some (of_column city)
    ∧ Column.varchar 120 (Some (PyStr.strip (ArtistForm.city to_blues))) = inr city
    ∧ dict_get d "phone" = Some (of_column phone)
    ∧ Column.varchar 120 (Some (ArtistForm.phone to_blues)) = inr phone
    ∧ dict_get d "genres" = Some (PList genresList)
    ∧ (∀ n, PStr n ∈ genresList ↔ n ∈ ArtistForm.genres to_blues).
Proof.
  apply (edit_artist_then_form sample 1 to_blues
           (edit_artist_submission sample 1 to_blues).1
           (edit_artist_submission sample 1 to_blues).2).
  - apply surjective_pairing.
  - vm_compute. reflexivity.
Defined.

(** ** Creating an artist that is accepted *)

Lemma create_artist_submission_ok (db : Database) (form : ArtistForm.t) :
  genres_known db (ArtistForm.genres form) →
  artist_fits_columns form →
  artist_sendable form →
  link_unused db (PyStr.strip (ArtistForm.facebook_link form)) →
  ∃ gs stored,
    Forall2 (names_genre db) (ArtistForm.genres form) gs
    ∧ create_artist_submission db form
      = (with_artist_genres
           (pairs gs (Query.next_id (artist_rows db)) ∪ artist_genres db)
           (with_artists
              (<[Query.next_id (artist_rows db) :=
                   Artist.mk (Query.next_id (details_rows db))
                             (Some (PyStr.strip (ArtistForm.name form))) false None]>
                 (artist_rows db))
              (with_details
                 (<[Query.next_id (details_rows db) := stored]> (details_rows db))
                 db)),
         mkReply ["Artist " +:+ ArtistForm.name form +:+ " was successfully listed!"]
                 (inr (render_template "pages/home.html" []))).
Proof.
  intros Hknown (Hc & Hs & Hp & Hf) Hsend Hunused.
  apply Forall_cons in Hsend as [Hn Hsend].
  do 3 apply Forall_cons in Hsend as [_ Hsend].
  apply Forall_cons in Hsend as [Hnf Hsend].
  destruct (genres_known_total db _ Hknown Hsend) as (gs & Hgs & Hnames).
  unfold create_artist_submission, Session.add_details.
  set (newDetail := Details.mk _ _ _ _ _ _ _).
  assert (Column.details newDetail = inr newDetail) as Hfit.
  { unfold Column.details, newDetail.
    cbn [Details.city Details.state Details.phone Details.image_link
         Details.facebook_link Details.address Details.website].
    rewrite (varchar_fits_chars _ _ Hc). cbn [mbind result_bind].
    rewrite (varchar_fits_chars _ _ Hs). cbn [mbind result_bind].
    rewrite (varchar_fits_chars _ _ Hp). cbn [mbind result_bind].
    change (Column.varchar 500 None) with (@inr exn (option string) None).
    cbn [mbind result_bind]. rewrite (varchar_fits_chars _ _ Hf). reflexivity. }
  exists gs, newDetail. split; [exact Hnames|]. rewrite Hfit.
  cbn [mbind result_bind mret result_ret].
  set (did := Query.next_id (details_rows db)).
  set (db1 := with_details _ db).
  rewrite adapt_ok
    by (repeat constructor; intros ? [= <-]; by apply nul_free_strip).
  cbn [mbind result_bind].
  assert (Query.details_linked db1 (Details.facebook_link newDetail)
          = [(did, newDetail)]) as ->.
  { apply NoDup_single.
    - apply NoDup_filter, NoDup_map_to_list.
    - intros [i d]. unfold Query.details_linked, Query.all.
      rewrite list_elem_of_filter, elem_of_map_to_list. cbn [snd].
      subst db1. cbn [details_rows with_details]. rewrite lookup_insert_Some.
      split.
      + intros [Hlink [[<- <-]|[_ Hd]]]; [done|].
        destruct (Hunused i d Hd). exact Hlink.
      + intros [= -> ->]. split; [done|]. by left. }
  cbn [Query.one mbind result_bind mret result_ret fst].
  rewrite (lookup_genres_ext db1 db) by done.
  rewrite Hgs. cbn [mbind result_bind]. unfold Session.add_artist.
  cbn [Artist.name Artist.seeking_text].
  rewrite adapt_ok
    by (repeat constructor; intros ? [= <-]; by apply nul_free_strip).
  cbn [mbind result_bind Artist.details_id]. subst db1.
  cbn [details_rows with_details].
  rewrite lookup_insert_eq. reflexivity.
Qed.

(** X19: an artist submission whose genre names are each the name of
    exactly one genre, whose values are free of NUL and fit their columns,
    and whose facebook link no [Details] row has yet, is accepted: the
    artist is stored with its stripped name under an id that was not in
    use, and the artist listing then has one entry more, among them that
    id with that name. *)
Theorem create_artist_listed (db : Database) (form : ArtistForm.t) :
  genres_known db (ArtistForm.genres form) →
  artist_fits_columns form →
  artist_sendable form →
  link_unused db (PyStr.strip (ArtistForm.facebook_link form)) →
  let after := create_artist_submission db form in
  after.2
  = mkReply ["Artist " +:+ ArtistForm.name form +:+ " was successfully listed!"]
            (inr (render_template "pages/home.html" []))
  ∧ ∃ id details_id listing,
      artist_rows db !! id = None
      ∧ artist_rows after.1
        = <[id := Artist.mk details_id
                            (Some (PyStr.strip (ArtistForm.name form))) false None]>
            (artist_rows db)
      ∧ is_Some (details_rows after.1 !! details_id)
      ∧ artists after.1
        = inr (render_template "pages/artists.html" [("artists", PList listing)])
      ∧ summary id (Some (PyStr.strip (ArtistForm.name form))) ∈ listing
      ∧ length listing = S (size (artist_rows db)).
Proof.
  intros Hknown Hfits Hsend Hunused after. subst after.
  destruct (create_artist_submission_ok db form Hknown Hfits Hsend Hunused)
    as (gs & stored & _ & ->).
  cbn [fst snd]. split; [reflexivity|].
  exists (Query.next_id (artist_rows db)), (Query.next_id (details_rows db)).
  unfold artists.
  cbn [artist_rows details_rows with_artist_genres with_artists with_details].
  eexists. split; [apply next_id_fresh|]. split; [reflexivity|].
  split; [rewrite lookup_insert_eq; by eexists|].
  split; [reflexivity|]. split.
  - apply list_elem_of_fmap.
    exists (Query.next_id (artist_rows db),
            Artist.mk (Query.next_id (details_rows db))
                      (Some (PyStr.strip (ArtistForm.name form))) false None).
    split; [reflexivity|]. apply elem_of_map_to_list, lookup_insert_eq.
  - rewrite length_fmap. unfold Query.all. rewrite length_map_to_list.
    apply map_size_insert_None, next_id_fresh.
Qed.

Lemma create_artist_listed_witness :
  let after := create_artist_submission sample blues_artist in
  after.2
  = mkReply ["Artist " +:+ ArtistForm.name blues_artist +:+ " was successfully listed!"]
            (inr (render_template "pages/home.html" []))
  ∧ ∃ id details_id listing,
      artist_rows sample !! id = None
      ∧ artist_rows after.1
        = <[id := Artist.mk details_id
                            (Some (PyStr.strip (ArtistForm.name blues_artist)))
                            false None]>
            (artist_rows sample)
      ∧ is_Some (details_rows after.1 !! details_id)
      ∧ artists after.1
        = inr (render_template "pages/artists.html" [("artists", PList listing)])
      ∧ summary id (Some (PyStr.strip (ArtistForm.name blues_artist))) ∈ listing
      ∧ length listing = S (size (artist_rows sample)).
Proof.
  apply (create_artist_listed sample blues_artist).
  - repeat constructor. apply sample_knows_blues.
  - repeat split; vm_compute; lia.
  - repeat constructor.
  - apply (bool_decide_unpack _). vm_compute. exact I.
Defined.

(** ** Runs of the invariants and of an edit *)

Lemma serve_consistent_witness :
  consistent
    (serve ["datetime"; "jsonify"] sample
       (POST_venues_create jazz_venue :: POST_venues_create polka_venue
        :: later_requests)).
Proof.
  apply serve_consistent. apply (bool_decide_unpack _). vm_compute. exact I.
Defined.

Lemma serve_named_witness :
  named
    (serve ["datetime"; "jsonify"] sample
       (POST_artists_create blues_artist :: POST_venue_edit 1 hop_edit
        :: later_requests)).
Proof.
  apply serve_named. split; apply (bool_decide_unpack _); vm_compute; exact I.
Defined.

Lemma edit_artist_succeeds_witness :
  (edit_artist_submission sample 1 to_blues).2
  = mkReply [] (inr (redirect "show_artist" [("artist_id", PInt 1)])).
Proof.
  apply (edit_artist_succeeds sample 1 to_blues
           (Artist.mk 2 (Some "Guns N Petals") false None)
           (Details.mk (Some "San Francisco") (Some "CA") None
              (Some "326-123-5000") None None (Some "fb/gunsnpetals"))).
  - reflexivity.
  - reflexivity.
  - repeat constructor. apply sample_knows_blues.
  - repeat constructor.
  - vm_compute. lia.
  - vm_compute. lia.
  - vm_compute. lia.
  - vm_compute. lia.
  - reflexivity.
Defined.
